(** * Aether Studio orchestration core: node store, context assembler,
      universal delta driver, orchestration loop and simulation manager.

    Shallow embedding of [src/types.ts], [src/App.tsx], the engine module
    appended to [src/components/ConfigPanel.tsx] (imported by the
    application as [services/aiEngine.ts]) and the node inspector
    ([src/unnamed/part_003]).

    Conventions of the embedding.
    - A JavaScript string is its sequence of UTF-16 code units; the model
      covers code units below 256, one [ascii] each.
    - An optional property is an [option]; [None] is [undefined].
    - [Record<string, AetherNode>] is an association list in insertion
      order, which is the order [Object.values] enumerates string keys that
      are not canonical array indices.  Keys are assumed not to be such
      indices and not to be property names of [Object.prototype].
    - React state is an explicit record.  A function defined in the
      component body reads the state of the render that created it (its
      closure) and writes through the setters; [processChatTurn] calls
      itself through that same closure, so one turn reads one render. *)

From Stdlib Require Import List String Ascii Bool Arith Lia Permutation.
From Stdlib Require Import DecimalString.
Import ListNotations.

Set Warnings "-register-all".

Local Open Scope string_scope.
Local Open Scope list_scope.

Infix "^" := String.append : string_scope.

(** ** JavaScript values used by the code *)

(** The one-character strings that cannot be written inside a literal. *)
Definition dq : string := String (ascii_of_nat 34) EmptyString.
Definition nl : string := String (ascii_of_nat 10) EmptyString.

(** [x === s] for an optional string property [x]. *)
Definition eqStr (s : string) (x : option string) : bool :=
  match x with
  | Some v => String.eqb v s
  | None => false
  end.

(** Truthiness of an optional string: [undefined] and the empty string are
    falsy. *)
Definition truthy (x : option string) : bool :=
  match x with
  | Some EmptyString => false
  | Some _ => true
  | None => false
  end.

(** [x || d] where [d] is a string. *)
Definition orStr (x : option string) (d : string) : string :=
  match x with
  | Some EmptyString => d
  | Some v => v
  | None => d
  end.

(** [x || y] where both sides are optional strings. *)
Definition orOpt (x y : option string) : option string :=
  if truthy x then x else y.

(** [x !== undefined ? x : y]. *)
Definition definedOr (x y : option string) : option string :=
  match x with
  | Some _ => x
  | None => y
  end.

(** Template-literal rendering of an optional string. *)
Definition show (x : option string) : string :=
  match x with
  | Some v => v
  | None => "undefined"
  end.

(** [n.toString()] for a natural number. *)
Definition toString (n : nat) : string :=
  NilZero.string_of_uint (Nat.to_uint n).

(** A character of the class [[a-zA-Z0-9_]]. *)
Definition isWordChar (c : ascii) : bool :=
  let n := nat_of_ascii c in
  (((48 <=? n) && (n <=? 57)) || ((65 <=? n) && (n <=? 90))
   || ((97 <=? n) && (n <=? 122)) || (n =? 95))%nat.

Fixpoint mapChars (f : ascii -> ascii) (s : string) : string :=
  match s with
  | EmptyString => EmptyString
  | String c r => String (f c) (mapChars f r)
  end.

Fixpoint filterChars (f : ascii -> bool) (s : string) : string :=
  match s with
  | EmptyString => EmptyString
  | String c r => if f c then String c (filterChars f r) else filterChars f r
  end.

Fixpoint allChars (f : ascii -> bool) (s : string) : bool :=
  match s with
  | EmptyString => true
  | String c r => f c && allChars f r
  end.

(** [name.replace(/[^a-zA-Z0-9_]/g, '_')]: [sanitizeName] of
    [collectContext], written inline a second time in [processChatTurn]. *)
Definition sanitizeName (name : string) : string :=
  mapChars (fun c => if isWordChar c then c else "_"%char) name.

(** The reading of the specification's words: the characters outside the
    class are stripped.  Not the code; kept to compare with [sanitizeName]. *)
Definition stripName (name : string) : string :=
  filterChars isWordChar name.

(** White space removed by [String.prototype.trim], among code units below
    256. *)
Definition isSpace (c : ascii) : bool :=
  let n := nat_of_ascii c in
  (((9 <=? n) && (n <=? 13)) || (n =? 32) || (n =? 160))%nat.

Fixpoint trimStart (s : string) : string :=
  match s with
  | String c r => if isSpace c then trimStart r else s
  | EmptyString => EmptyString
  end.

Fixpoint trimEnd (s : string) : string :=
  match s with
  | String c r =>
      match trimEnd r with
      | EmptyString => if isSpace c then EmptyString else String c EmptyString
      | r' => String c r'
      end
  | EmptyString => EmptyString
  end.

Definition trim (s : string) : string := trimEnd (trimStart s).

(** ** Data model ([types.ts]) *)

Inductive Role := USER | MODEL | SYSTEM_ROLE | TOOL_ROLE.

(** [NodeType] is a string enum; a node's [type] is whatever string the
    caller stored ([args.type as NodeType] is unchecked). *)
Module NodeType.
Definition SYSTEM : string := "SYSTEM".
Definition AGENT : string := "AGENT".
Definition TOOL : string := "TOOL".
Definition MEMORY : string := "MEMORY".
Definition ROUTER : string := "ROUTER".
End NodeType.

Record AetherNode := mkNode {
  id : string;
  type : option string;
  name : string;
  parentId : option string;
  isActive : option bool;
  provider : option string;
  model : option string;
  systemInstruction : option string;
  toolType : option string;
  code : option string;
  language : option string;
  memoryContent : option string
}.

Definition Nodes := list (string * AetherNode).

Record ProjectState := mkProject {
  rootNodeId : string;
  nodes : Nodes;
  selectedNodeId : string
}.

(** [nodes[k]], for an identifier [k] that is no name of a member of
    [Object.prototype]: for such a name the lookup of the source answers
    with the inherited member when the store holds no node under it. *)
Fixpoint getNode (k : string) (ns : Nodes) : option AetherNode :=
  match ns with
  | [] => None
  | (k', n) :: r => if String.eqb k' k then Some n else getNode k r
  end.

(** [nodes[k] = n]: an existing key keeps its place, a new key goes last. *)
Fixpoint setNode (k : string) (n : AetherNode) (ns : Nodes) : Nodes :=
  match ns with
  | [] => [(k, n)]
  | (k', n') :: r =>
      if String.eqb k' k then (k', n) :: r else (k', n') :: setNode k n r
  end.

(** [delete nodes[k]]. *)
Definition deleteNode (k : string) (ns : Nodes) : Nodes :=
  filter (fun kn => negb (String.eqb (fst kn) k)) ns.

(** [Object.values(nodes)] and [Object.keys(nodes)]. *)
Definition values (ns : Nodes) : list AetherNode := map snd ns.
Definition keys (ns : Nodes) : list string := map fst ns.

(** [JSON.parse(JSON.stringify(p))]: a structurally equal value sharing
    nothing with [p].  Values are immutable here, so the copy is [p]. *)
Definition deepCopy (p : ProjectState) : ProjectState := p.

Definition withNodes (p : ProjectState) (ns : Nodes) : ProjectState :=
  mkProject (rootNodeId p) ns (selectedNodeId p).

(** Arguments of an administrative tool call, as declared by the schemas of
    [systemTools] (plus [toolType], which the update branch reads).  A call
    carries an argument object, as the schemas declare; its properties are
    strings or absent.  Calls that come without argument object are read by
    [Module Raw] below. *)
Record Args := mkArgs {
  action : option string;
  nodeId : option string;
  a_parentId : option string;
  a_type : option string;
  a_name : option string;
  content : option string;
  a_code : option string;
  a_language : option string;
  a_toolType : option string
}.

Record ToolCall := mkCall {
  call_name : string;
  call_args : Args
}.

Record ToolResponse := mkResponse {
  resp_name : string;
  resp_content : string
}.

Record Message := mkMessage {
  msg_id : string;
  role : Role;
  msg_content : string;
  thinking : option bool;
  toolCalls : option (list ToolCall);
  toolResponse : option ToolResponse
}.

Definition noArgs : Args :=
  mkArgs None None None None None None None None None.

(** [DEFAULT_PROJECT]; the two memory texts are abbreviated, nothing below
    depends on them. *)
Definition DEFAULT_PROJECT : ProjectState :=
  mkProject "root"
    [ ("root",
       mkNode "root" (Some NodeType.SYSTEM) "Aether_Kernel" None (Some true)
         (Some "google") (Some "gemini-2.5-flash") None None None None None);
      ("sys_local_setup",
       mkNode "sys_local_setup" (Some NodeType.MEMORY) "LOCAL_SETUP.sh"
         (Some "root") None None None None None None (Some "text")
         (Some "#!/bin/bash ..."));
      ("agent_core",
       mkNode "agent_core" (Some NodeType.AGENT) "Orchestrator" (Some "root")
         None (Some "google") (Some "gemini-2.5-flash")
         (Some "You are the Aether Orchestrator. You manage the lifecycle of nodes and respond to user intent.")
         None None None None);
      ("mem_readme",
       mkNode "mem_readme" (Some NodeType.MEMORY) "ARCHITECTURE.md"
         (Some "root") None None None None None None (Some "text")
         (Some "# Aether Studio: Architecture & Delegation Protocol ...")) ]
    "root".

(** ** Context assembler ([collectContext] and [systemTools]) *)

Record FunctionDeclaration := mkDecl {
  fd_name : string;
  fd_description : string;
  fd_properties : list string;
  fd_required : list string
}.

(** An element of the [tools] array: a group of function declarations or the
    native search capability [{ googleSearch: {} }]. *)
Inductive Tool :=
  | FunctionDeclarations (fds : list FunctionDeclaration)
  | GoogleSearch.

Definition manage_node_decl : FunctionDeclaration :=
  mkDecl "manage_node"
    "Modify the Aether system architecture. Create, update, or delete Agents, Tools, or Memories."
    ["action"; "nodeId"; "parentId"; "type"; "name"; "content"; "code"; "language"]
    ["action"].

Definition manage_simulation_decl : FunctionDeclaration :=
  mkDecl "manage_simulation"
    "Control the Runtime Hypervisor. Use this to fork the system into a safe simulation before applying risky changes, or to commit a simulation to live."
    ["action"; "reason"]
    ["action"].

(** [systemTools] is an array of ONE element, whose [functionDeclarations]
    holds the two administrative tools. *)
Definition systemTools : list Tool :=
  [ FunctionDeclarations [manage_node_decl; manage_simulation_decl] ].

Record Context := mkContext {
  instruction : string;
  tools : list Tool
}.

Definition shouldInclude (p : ProjectState) (activeNodeIds : option (list string))
    (k : string) : bool :=
  match activeNodeIds with
  | None => true
  | Some l => existsb (String.eqb k) l || String.eqb k (rootNodeId p)
  end.

Definition isAgentOrRouter (n : AetherNode) : bool :=
  eqStr NodeType.AGENT (type n) || eqStr NodeType.ROUTER (type n).
Definition isTool (n : AetherNode) : bool := eqStr NodeType.TOOL (type n).
Definition isMemory (n : AetherNode) : bool := eqStr NodeType.MEMORY (type n).
Definition isSearch (n : AetherNode) : bool := eqStr "googleSearch" (toolType n).

(** The labeled blocks appended to [systemInstruction], one per branch. *)
Definition agentBlock (n : AetherNode) : string :=
  nl ^ "[" ^ show (type n) ^ ": " ^ name n ^ " (ID: " ^ id n ^ ")]" ^ nl
  ^ "Instructions: " ^ orStr (systemInstruction n) "None" ^ nl.

Definition toolBlock (n : AetherNode) : string :=
  nl ^ "[Tool: " ^ name n ^ " (ID: " ^ id n ^ ") - " ^ show (toolType n) ^ "]" ^ nl.

Definition memoryBlock (n : AetherNode) : string :=
  nl ^ "[Memory: " ^ name n ^ " (ID: " ^ id n ^ ")]" ^ nl
  ^ "Content: " ^ orStr (memoryContent n) "Empty" ^ nl.

(** The catalog entry pushed for a tool that is not the search tool. *)
Definition customDecl (n : AetherNode) : FunctionDeclaration :=
  mkDecl (sanitizeName (name n))
    ("Execute the custom tool '" ^ name n ^ "'. Logic: "
     ^ (if truthy (code n) then "Defined in codebase" else "Standard"))
    ["payload"] [].

Definition Acc := (string * list Tool)%type.

(** The body of [if (shouldInclude(nodeId)) { ... }]. *)
Definition describe (n : AetherNode) (acc : Acc) : Acc :=
  let '(systemInstruction, tools) := acc in
  if isAgentOrRouter n then (systemInstruction ^ agentBlock n, tools)
  else if isTool n then
    if isSearch n then (systemInstruction ^ toolBlock n, tools ++ [GoogleSearch])
    else (systemInstruction ^ toolBlock n,
          tools ++ [FunctionDeclarations [customDecl n]])
  else if isMemory n then (systemInstruction ^ memoryBlock n, tools)
  else acc.

(** [Object.values(project.nodes).filter(n => n.parentId === nodeId)]. *)
Definition childrenOf (p : ProjectState) (k : string) : list AetherNode :=
  filter (fun n => eqStr k (parentId n)) (values (nodes p)).

(** [traverse].  The recursion follows parent links downwards and is not
    structural; [fuel] is the depth of call stack still available and [None]
    is the engine's stack overflow. *)
Fixpoint traverse (fuel : nat) (p : ProjectState)
    (activeNodeIds : option (list string)) (k : string) (acc : Acc)
    : option Acc :=
  match fuel with
  | O => None
  | S fuel' =>
      match getNode k (nodes p) with
      | None => Some acc
      | Some node =>
          let acc1 := if shouldInclude p activeNodeIds k
                      then describe node acc else acc in
          fold_left
            (fun r c =>
               match r with
               | Some a => traverse fuel' p activeNodeIds (id c) a
               | None => None
               end)
            (childrenOf p k) (Some acc1)
      end
  end.

Definition header : string := "Current Active System Stack:" ^ nl.

Definition collectContext (fuel : nat) (p : ProjectState)
    (activeNodeIds : option (list string)) : option Context :=
  match getNode (rootNodeId p) (nodes p) with
  | None => Some (mkContext "System Error: Root missing." [])
  | Some _ =>
      match traverse fuel p activeNodeIds (rootNodeId p) (header, systemTools) with
      | Some (i, t) => Some (mkContext i t)
      | None => None
      end
  end.

(** The function declarations a catalog offers, and its search entries. *)
Definition declarations (ts : list Tool) : list FunctionDeclaration :=
  flat_map (fun t => match t with
                     | FunctionDeclarations fds => fds
                     | GoogleSearch => []
                     end) ts.

Definition searchEntries (ts : list Tool) : nat :=
  List.length (filter (fun t => match t with GoogleSearch => true | _ => false end) ts).

(** [convertToolsToOpenAI]: search entries are skipped, the declarations of
    every group become one function tool each. *)
Definition convertToolsToOpenAI (googleTools : list Tool) : list FunctionDeclaration :=
  declarations googleTools.

(** *** Visit order

    The nodes [traverse] visits, parent before children, each tagged with
    the key it was looked up under. *)
Fixpoint visitOrder (fuel : nat) (p : ProjectState) (k : string)
    : option (list (string * AetherNode)) :=
  match fuel with
  | O => None
  | S fuel' =>
      match getNode k (nodes p) with
      | None => Some []
      | Some node =>
          fold_left
            (fun r c =>
               match r, visitOrder fuel' p (id c) with
               | Some l, Some l' => Some (l ++ l')
               | _, _ => None
               end)
            (childrenOf p k) (Some [(k, node)])
      end
  end.

(** The visited nodes that are in the active set. *)
Definition included (p : ProjectState) (activeNodeIds : option (list string))
    (l : list (string * AetherNode)) : list AetherNode :=
  map snd (filter (fun kn => shouldInclude p activeNodeIds (fst kn)) l).

(** What one included node contributes. *)
Definition blocksOf (n : AetherNode) : list string :=
  if isAgentOrRouter n then [agentBlock n]
  else if isTool n then [toolBlock n]
  else if isMemory n then [memoryBlock n]
  else [].

Definition entriesOf (n : AetherNode) : list Tool :=
  if isAgentOrRouter n then []
  else if isTool n then
    if isSearch n then [GoogleSearch] else [FunctionDeclarations [customDecl n]]
  else [].

Definition concatStr (l : list string) : string :=
  fold_right String.append EmptyString l.

(** What [traverse] does at one visited node. *)
Definition visitStep (p : ProjectState) (activeNodeIds : option (list string))
    (acc : Acc) (kn : string * AetherNode) : Acc :=
  if shouldInclude p activeNodeIds (fst kn) then describe (snd kn) acc else acc.

(** The nodes of the store that are in the active set. *)
Definition activeNodes (p : ProjectState) (activeNodeIds : option (list string))
    : list AetherNode :=
  included p activeNodeIds (nodes p).

Definition countIf (f : AetherNode -> bool) (l : list AetherNode) : nat :=
  List.length (filter f l).

(** A node that gets a labeled block. *)
Definition isLabeled (n : AetherNode) : bool :=
  isAgentOrRouter n || isTool n || isMemory n.

Definition isCustomTool (n : AetherNode) : bool := isTool n && negb (isSearch n).
Definition isSearchTool (n : AetherNode) : bool := isTool n && isSearch n.

(** *** Structural invariant of the node tree *)

(** Number of parent links from [k] up to a node without parent. *)
Fixpoint depthOf (fuel : nat) (ns : Nodes) (k : string) : option nat :=
  match fuel with
  | O => None
  | S fuel' =>
      match getNode k ns with
      | None => None
      | Some n =>
          match parentId n with
          | None => Some 0
          | Some q => option_map S (depthOf fuel' ns q)
          end
      end
  end.

Definition hasParent (n : AetherNode) : bool :=
  match parentId n with Some _ => true | None => false end.

Fixpoint nodupb (l : list string) : bool :=
  match l with
  | [] => true
  | x :: r => negb (existsb (String.eqb x) r) && nodupb r
  end.

(** The invariant of the data model, as a decidable check: keys are unique
    and are the nodes' identifiers; the root exists and is the one node
    without parent; every parent identifier resolves; following parent links
    from any node ends at the root (no cycle). *)
Definition wfb (p : ProjectState) : bool :=
  nodupb (keys (nodes p))
  && forallb (fun kn => String.eqb (id (snd kn)) (fst kn)) (nodes p)
  && match getNode (rootNodeId p) (nodes p) with
     | Some r => negb (hasParent r)
     | None => false
     end
  && forallb (fun n => hasParent n || String.eqb (id n) (rootNodeId p))
       (values (nodes p))
  && forallb (fun n => match parentId n with
                       | Some q => match getNode q (nodes p) with
                                   | Some _ => true
                                   | None => false
                                   end
                       | None => true
                       end) (values (nodes p))
  && forallb (fun k => match depthOf (List.length (nodes p)) (nodes p) k with
                       | Some _ => true
                       | None => false
                       end) (keys (nodes p)).

Definition wf (p : ProjectState) : Prop := wfb p = true.

(** The invariant, clause by clause. *)
Record WF (p : ProjectState) : Prop := mkWF {
  wf_keys : NoDup (keys (nodes p));
  wf_ids : forall k n, In (k, n) (nodes p) -> id n = k;
  wf_root : exists r, getNode (rootNodeId p) (nodes p) = Some r /\ parentId r = None;
  wf_one_root : forall n, In n (values (nodes p)) -> parentId n = None ->
                id n = rootNodeId p;
  wf_parents : forall n q, In n (values (nodes p)) -> parentId n = Some q ->
               getNode q (nodes p) <> None;
  wf_acyclic : forall k, In k (keys (nodes p)) ->
               depthOf (List.length (nodes p)) (nodes p) k <> None
}.

(** The identifier reached from [k] by [j] parent links. *)
Fixpoint climb (ns : Nodes) (j : nat) (k : string) : option string :=
  match j with
  | O => Some k
  | S j' =>
      match getNode k ns with
      | Some n =>
          match parentId n with
          | Some q => climb ns j' q
          | None => None
          end
      | None => None
      end
  end.

(** A tree of three levels under the root: [a], its child [b] and its
    grandchild [c]. *)
Definition plainNode (k ty nm : string) (parent : option string) : AetherNode :=
  mkNode k (Some ty) nm parent None None None None None None None None.

Definition toolNode (k nm kind : string) : AetherNode :=
  mkNode k (Some NodeType.TOOL) nm (Some "root") None None None None (Some kind)
    None (Some "javascript") None.

(** A root with three search tools. *)
Definition searchProject : ProjectState :=
  mkProject "root"
    [ ("root", plainNode "root" NodeType.SYSTEM "Kernel" None);
      ("s1", toolNode "s1" "Web" "googleSearch");
      ("s2", toolNode "s2" "News" "googleSearch");
      ("s3", toolNode "s3" "Maps" "googleSearch") ]
    "root".

(** A root with two function tools whose names differ by one character
    outside the class. *)
Definition toolsProject : ProjectState :=
  mkProject "root"
    [ ("root", plainNode "root" NodeType.SYSTEM "Kernel" None);
      ("t1", toolNode "t1" "Get Time" "function");
      ("t2", toolNode "t2" "Get_Time" "function") ]
    "root".

(** The catalog size the specification states. *)
Definition statedCatalogSize (p : ProjectState) (activeNodeIds : option (list string))
    : nat :=
  countIf isCustomTool (activeNodes p activeNodeIds)
  + (if existsb isSearchTool (activeNodes p activeNodeIds) then 1 else 0)
  + 2.

Definition chainProject : ProjectState :=
  mkProject "root"
    [ ("root", plainNode "root" NodeType.SYSTEM "Kernel" None);
      ("a", plainNode "a" NodeType.AGENT "A" (Some "root"));
      ("b", plainNode "b" NodeType.AGENT "B" (Some "a"));
      ("c", plainNode "c" NodeType.TOOL "C" (Some "b")) ]
    "root".

(** ** Universal delta driver ([executeUniversalRequest], stream part) *)

Module Driver.

(** A [delta] of one stream event, as far as the driver reads it. *)
Record FunctionDelta := mkFunctionDelta {
  fn_name : option string;
  fn_arguments : option string
}.

Record ToolCallDelta := mkToolCallDelta {
  tc_index : nat;
  tc_id : option string;
  tc_function : option FunctionDelta
}.

Record Delta := mkDelta {
  delta_content : option string;
  delta_tool_calls : option (list ToolCallDelta)
}.

(** An entry of [toolCallBuffer]. *)
Record Pending := mkPending {
  p_id : option string;
  p_name : option string;
  p_arguments : string
}.

(** [toolCallBuffer : Record<number, ...>].  Its keys are array indices, which
    [Object.values] enumerates in ascending numeric order whatever the order
    of insertion: the list is kept sorted by key. *)
Definition Buffer := list (nat * Pending).

Fixpoint bufGet (idx : nat) (b : Buffer) : option Pending :=
  match b with
  | [] => None
  | (i, e) :: r => if Nat.eqb i idx then Some e else bufGet idx r
  end.

Fixpoint bufSet (idx : nat) (e : Pending) (b : Buffer) : Buffer :=
  match b with
  | [] => [(idx, e)]
  | (i, e') :: r =>
      if Nat.eqb i idx then (i, e) :: r
      else if Nat.ltb idx i then (idx, e) :: (i, e') :: r
      else (i, e') :: bufSet idx e r
  end.

(** The body of [for (const tc of delta.tool_calls)]. *)
Definition applyFragment (b : Buffer) (tc : ToolCallDelta) : Buffer :=
  let idx := tc_index tc in
  let e0 := match bufGet idx b with
            | Some e => e
            | None => mkPending None None EmptyString
            end in
  let e1 := if truthy (tc_id tc)
            then mkPending (tc_id tc) (p_name e0) (p_arguments e0) else e0 in
  let fname := match tc_function tc with Some f => fn_name f | None => None end in
  let fargs := match tc_function tc with Some f => fn_arguments f | None => None end in
  let e2 := if truthy fname
            then mkPending (p_id e1) fname (p_arguments e1) else e1 in
  let e3 := if truthy fargs
            then mkPending (p_id e2) (p_name e2) (p_arguments e2 ^ show fargs)
            else e2 in
  bufSet idx e3 b.

(** What the driver reports through its callbacks. *)
Inductive Event (J : Type) :=
  | Chunk (text : string)
  | ToolCallBatch (calls : list (option string * J))
  | Complete
  | Failure (message : string).
Arguments Chunk {J} text.
Arguments ToolCallBatch {J} calls.
Arguments Complete {J}.
Arguments Failure {J} message.

(** [s.split('\n')]: never empty. *)
Fixpoint splitLines (s : string) : list string :=
  match s with
  | EmptyString => [EmptyString]
  | String c r =>
      if Ascii.eqb c (ascii_of_nat 10) then EmptyString :: splitLines r
      else match splitLines r with
           | l :: ls => String c l :: ls
           | [] => [String c EmptyString]
           end
  end.

(** [s.slice(n)]. *)
Fixpoint slice (n : nat) (s : string) : string :=
  match n, s with
  | O, _ => s
  | S n', String _ r => slice n' r
  | S _, EmptyString => EmptyString
  end.

Section Stream.
  (** The parsed values of the platform's [JSON.parse]. *)
Variable J : Type.
  (** [JSON.parse] on an accumulated argument text; [None] when it throws. *)
Variable JSON_parse : string -> option J.
  (** [JSON.parse(payload)] followed by [json.choices[0]?.delta], viewed at
      the type the driver reads; [None] when the [try] block throws or
      there is no delta. *)
Variable decode : string -> option Delta.

  (** Loop state: the callbacks invoked so far and [toolCallBuffer]. *)
Definition Loop := (list (Event J) * Buffer)%type.

  (** The body of [try { ... }] for one decoded delta. *)
Definition applyDelta (st : Loop) (d : Delta) : Loop :=
    let '(out, b) := st in
    let out1 := if truthy (delta_content d)
                then out ++ [Chunk (show (delta_content d))] else out in
    match delta_tool_calls d with
    | Some tcs => (out1, fold_left applyFragment tcs b)
    | None => (out1, b)
    end.

  (** The body of [for (const line of lines)]. *)
Definition processLine (st : Loop) (line : string) : Loop :=
    if String.eqb (trim line) EmptyString
       || String.eqb (trim line) "data: [DONE]" then st
    else if String.prefix "data: " line then
      match decode (slice 6 line) with
      | Some d => applyDelta st d
      | None => st
      end
    else st.

  (** One iteration of [while (true)] for a chunk that was read: the text
      is appended to [buffer], the complete lines are processed and the
      last, incomplete one stays in [buffer]. *)
Definition processChunk (st : string * Loop) (value : string) : string * Loop :=
    let '(buffer, loop) := st in
    let lines := splitLines (buffer ^ value) in
    (last lines EmptyString, fold_left processLine (removelast lines) loop).

Definition readStream (chunks : list string) : string * Loop :=
    fold_left processChunk chunks (EmptyString, ([], [])).

  (** [Object.values(toolCallBuffer).map(...).filter(t => t)]. *)
Definition finalToolCalls (b : Buffer) : list (option string * J) :=
    flat_map (fun ie =>
                match JSON_parse (p_arguments (snd ie)) with
                | Some args => [(p_name (snd ie), args)]
                | None => []
                end) b.

  (** The last callback: the batch if there is one, completion otherwise. *)
Definition finish (b : Buffer) : Event J :=
    match finalToolCalls b with
    | [] => Complete
    | calls => ToolCallBatch calls
    end.

  (** The HTTP response as the driver sees it. *)
Inductive Response :=
    | NotOk (status body : string)
    | NoBody
    | Body (chunks : list string).

  (** The callbacks invoked by [executeUniversalRequest] once the response
      has arrived, in order. *)
Definition executeUniversalRequest (baseUrl : string) (response : Response)
      : list (Event J) :=
    match response with
    | NotOk status body =>
        [Failure ("Provider Error (" ^ status ^ " @ " ^ baseUrl ^ "): " ^ body)]
    | NoBody => [Failure "No response body"]
    | Body chunks =>
        let '(_, (out, b)) := readStream chunks in
        out ++ [finish b]
    end.
End Stream.

(** *** A reference [JSON.parse] for the examples

    Values of the fragment without fractions, exponents and [\u] escapes;
    a number keeps its literal. *)
Inductive json :=
  | JNull
  | JBool (b : bool)
  | JNum (literal : string)
  | JStr (s : string)
  | JArr (items : list json)
  | JObj (members : list (string * json)).

Definition isDigit (c : ascii) : bool :=
  let n := nat_of_ascii c in ((48 <=? n) && (n <=? 57))%nat.

Fixpoint skipWs (s : string) : string :=
  match s with
  | String c r =>
      let n := nat_of_ascii c in
      if ((n =? 32) || (n =? 9) || (n =? 10) || (n =? 13))%nat then skipWs r else s
  | EmptyString => EmptyString
  end.

Fixpoint takeDigits (s : string) : string * string :=
  match s with
  | String c r =>
      if isDigit c then let '(d, rest) := takeDigits r in (String c d, rest)
      else (EmptyString, s)
  | EmptyString => (EmptyString, EmptyString)
  end.

(** The characters of a string literal after its opening quote. *)
Fixpoint parseChars (s : string) : option (string * string) :=
  match s with
  | EmptyString => None
  | String c r =>
      if Ascii.eqb c (ascii_of_nat 34) then Some (EmptyString, r)
      else if Ascii.eqb c (ascii_of_nat 92) then
        match r with
        | String e r' =>
            let unescaped :=
              if Ascii.eqb e (ascii_of_nat 34) then Some (ascii_of_nat 34)
              else if Ascii.eqb e (ascii_of_nat 92) then Some (ascii_of_nat 92)
              else if Ascii.eqb e "/"%char then Some "/"%char
              else if Ascii.eqb e "n"%char then Some (ascii_of_nat 10)
              else if Ascii.eqb e "t"%char then Some (ascii_of_nat 9)
              else if Ascii.eqb e "r"%char then Some (ascii_of_nat 13)
              else None in
            match unescaped, parseChars r' with
            | Some u, Some (t, rest) => Some (String u t, rest)
            | _, _ => None
            end
        | EmptyString => None
        end
      else if (nat_of_ascii c <? 32)%nat then None
      else match parseChars r with
           | Some (t, rest) => Some (String c t, rest)
           | None => None
           end
  end.

Definition parseNumber (s : string) : option (json * string) :=
  let '(sign, body) :=
    match s with
    | String "-"%char r => ("-", r)
    | _ => (EmptyString, s)
    end in
  let '(digits, rest) := takeDigits body in
  let wellFormed :=
    match digits with
    | EmptyString => false
    | String "0"%char (String _ _) => false
    | _ => true
    end in
  let continues :=
    match rest with
    | String c _ => Ascii.eqb c "."%char || Ascii.eqb c "e"%char || Ascii.eqb c "E"%char
    | EmptyString => false
    end in
  if wellFormed && negb continues then Some (JNum (sign ^ digits), rest) else None.

Fixpoint parseValue (fuel : nat) (s : string) {struct fuel} : option (json * string) :=
  match fuel with
  | O => None
  | S fuel' =>
      match skipWs s with
      | String "n"%char (String "u"%char (String "l"%char (String "l"%char r))) =>
          Some (JNull, r)
      | String "t"%char (String "r"%char (String "u"%char (String "e"%char r))) =>
          Some (JBool true, r)
      | String "f"%char (String "a"%char (String "l"%char (String "s"%char
          (String "e"%char r)))) => Some (JBool false, r)
      | String "["%char r =>
          match skipWs r with
          | String "]"%char r' => Some (JArr [], r')
          | _ => match parseItems fuel' r with
                 | Some (items, rest) => Some (JArr items, rest)
                 | None => None
                 end
          end
      | String "{"%char r =>
          match skipWs r with
          | String "}"%char r' => Some (JObj [], r')
          | _ => match parseMembers fuel' r with
                 | Some (members, rest) => Some (JObj members, rest)
                 | None => None
                 end
          end
      | String c r =>
          if Ascii.eqb c (ascii_of_nat 34) then
            match parseChars r with
            | Some (t, rest) => Some (JStr t, rest)
            | None => None
            end
          else parseNumber (String c r)
      | EmptyString => None
      end
  end
with parseItems (fuel : nat) (s : string) {struct fuel} : option (list json * string) :=
  match fuel with
  | O => None
  | S fuel' =>
      match parseValue fuel' s with
      | Some (v, rest) =>
          match skipWs rest with
          | String ","%char r =>
              match parseItems fuel' r with
              | Some (vs, rest') => Some (v :: vs, rest')
              | None => None
              end
          | String "]"%char r => Some ([v], r)
          | _ => None
          end
      | None => None
      end
  end
with parseMembers (fuel : nat) (s : string) {struct fuel}
    : option (list (string * json) * string) :=
  match fuel with
  | O => None
  | S fuel' =>
      match skipWs s with
      | String c r =>
          if Ascii.eqb c (ascii_of_nat 34) then
            match parseChars r with
            | Some (k, rest) =>
                match skipWs rest with
                | String ":"%char r1 =>
                    match parseValue fuel' r1 with
                    | Some (v, rest1) =>
                        match skipWs rest1 with
                        | String ","%char r2 =>
                            match parseMembers fuel' r2 with
                            | Some (ms, rest2) => Some ((k, v) :: ms, rest2)
                            | None => None
                            end
                        | String "}"%char r2 => Some ([(k, v)], r2)
                        | _ => None
                        end
                    | None => None
                    end
                | _ => None
                end
            | None => None
            end
          else None
      | EmptyString => None
      end
  end.

Definition parseJson (s : string) : option json :=
  match parseValue (2 * String.length s + 2) s with
  | Some (v, rest) =>
      match skipWs rest with
      | EmptyString => Some v
      | _ => None
      end
  | None => None
  end.

(** [o[k]] on a parsed object. *)
Fixpoint member (k : string) (ms : list (string * json)) : option json :=
  match ms with
  | [] => None
  | (k', v) :: r => if String.eqb k' k then Some v else member k r
  end.

Definition field (k : string) (j : json) : option json :=
  match j with
  | JObj ms => member k ms
  | _ => None
  end.

Definition asString (j : option json) : option string :=
  match j with
  | Some (JStr s) => Some s
  | _ => None
  end.

Fixpoint natOfDigits (acc : nat) (s : string) : nat :=
  match s with
  | String c r => natOfDigits (10 * acc + (nat_of_ascii c - 48)) r
  | EmptyString => acc
  end.

(** A [decode] for payloads of the expected shape. *)
Definition toolCallDeltaOf (j : json) : option ToolCallDelta :=
  match field "index" j with
  | Some (JNum lit) =>
      Some (mkToolCallDelta (natOfDigits 0 lit) (asString (field "id" j))
              (match field "function" j with
               | Some f => Some (mkFunctionDelta (asString (field "name" f))
                                   (asString (field "arguments" f)))
               | None => None
               end))
  | _ => None
  end.

Fixpoint allSome {A : Type} (l : list (option A)) : option (list A) :=
  match l with
  | [] => Some []
  | Some x :: r => match allSome r with Some xs => Some (x :: xs) | None => None end
  | None :: _ => None
  end.

Definition decodeDelta (payload : string) : option Delta :=
  match parseJson payload with
  | Some j =>
      match field "choices" j with
      | Some (JArr (c :: _)) =>
          match field "delta" c with
          | Some d =>
              match field "tool_calls" d with
              | Some (JArr tcs) =>
                  match allSome (map toolCallDeltaOf tcs) with
                  | Some l => Some (mkDelta (asString (field "content" d)) (Some l))
                  | None => None
                  end
              | _ => Some (mkDelta (asString (field "content" d)) None)
              end
          | None => None
          end
      | _ => None
      end
  | None => None
  end.

End Driver.

(** ** Application state, simulation manager and orchestration loop
       ([App.tsx]) *)

Record AppState := mkApp {
  project : ProjectState;                    (* the live node store *)
  simulatedProject : option ProjectState;    (* the fork *)
  isSimulating : bool;
  activeContextIds : list string;
  messages : list Message;                   (* of the session of the turn *)
  isLoading : bool;
  saved : option ProjectState;               (* localStorage copy of [project] *)
  drawn : nat;                               (* calls of [uuid()] so far *)
  ticks : nat                                (* reads of [Date.now()] so far *)
}.

(** State-passing code: a computation reads and writes the React state. *)
Definition M (A : Type) : Type := AppState -> A * AppState.

Definition ret {A : Type} (a : A) : M A := fun st => (a, st).

Definition bind {A B : Type} (c : M A) (k : A -> M B) : M B :=
  fun st => let '(a, st') := c st in k a st'.

Notation "x <- c ;; k" := (bind c (fun x => k))
  (at level 61, c at next level, right associativity).
Notation "c ;; k" := (bind c (fun _ => k))
  (at level 61, right associativity).

Definition setProject (v : ProjectState) : M unit := fun st =>
  (tt, mkApp v (simulatedProject st) (isSimulating st) (activeContextIds st)
         (messages st) (isLoading st) (saved st) (drawn st) (ticks st)).

Definition setSimulatedProject (v : option ProjectState) : M unit := fun st =>
  (tt, mkApp (project st) v (isSimulating st) (activeContextIds st)
         (messages st) (isLoading st) (saved st) (drawn st) (ticks st)).

Definition setIsSimulating (v : bool) : M unit := fun st =>
  (tt, mkApp (project st) (simulatedProject st) v (activeContextIds st)
         (messages st) (isLoading st) (saved st) (drawn st) (ticks st)).

Definition setActiveContextIds (v : list string) : M unit := fun st =>
  (tt, mkApp (project st) (simulatedProject st) (isSimulating st) v
         (messages st) (isLoading st) (saved st) (drawn st) (ticks st)).

(** [updateSessionMessages(session, fn)], a functional update. *)
Definition updateSessionMessages (fn : list Message -> list Message) : M unit :=
  fun st =>
  (tt, mkApp (project st) (simulatedProject st) (isSimulating st)
         (activeContextIds st) (fn (messages st)) (isLoading st) (saved st)
         (drawn st) (ticks st)).

Definition setIsLoading (v : bool) : M unit := fun st =>
  (tt, mkApp (project st) (simulatedProject st) (isSimulating st)
         (activeContextIds st) (messages st) v (saved st) (drawn st) (ticks st)).

(** The effect that persists the live store: it writes only while no
    simulation runs. *)
Definition saveProjectEffect (st : AppState) : AppState :=
  if negb (isSimulating st)
  then mkApp (project st) (simulatedProject st) (isSimulating st)
         (activeContextIds st) (messages st) (isLoading st)
         (Some (project st)) (drawn st) (ticks st)
  else st.

(** [activeProject], computed during a render. *)
Definition activeProject (r : AppState) : ProjectState :=
  if isSimulating r then
    match simulatedProject r with
    | Some sp => sp
    | None => project r
    end
  else project r.

(** The result of one streaming phase, as the driver reports it: the text
    streamed, then a batch of tool calls, completion or failure. *)
Inductive Outcome :=
  | ToolCalls (text : string) (calls : list ToolCall)
  | Completed (text : string)
  | Failed (text : string) (error : string).

(** How a turn ended; [Pending] when the backend has not answered. *)
Inductive TurnEnd :=
  | EndCompleted
  | EndFailed (error : string)
  | Pending.

(** Local variables of the tool-call handler. *)
Record Locals := mkLocals {
  nextProject : ProjectState;
  nextStack : list string;
  modified : bool;
  triggeredSimulationChange : bool;
  newHistory : list Message
}.

Definition withProject (l : Locals) (p : ProjectState) : Locals :=
  mkLocals p (nextStack l) (modified l) (triggeredSimulationChange l) (newHistory l).
Definition withStack (l : Locals) (s : list string) : Locals :=
  mkLocals (nextProject l) s (modified l) (triggeredSimulationChange l) (newHistory l).
Definition setModified (l : Locals) : Locals :=
  mkLocals (nextProject l) (nextStack l) true (triggeredSimulationChange l) (newHistory l).
Definition setTriggered (l : Locals) : Locals :=
  mkLocals (nextProject l) (nextStack l) (modified l) true (newHistory l).
Definition pushHistory (l : Locals) (m : Message) : Locals :=
  mkLocals (nextProject l) (nextStack l) (modified l) (triggeredSimulationChange l)
    (newHistory l ++ [m]).

(** The default code of a tool created without code. *)
Definition generatedCode (args : Args) : string :=
  "// AI Generated Tool Logic" ^ nl
  ^ "print(" ^ dq ^ "Tool " ^ orStr (a_name args) "Script" ^ " executing..." ^ dq ^ ");" ^ nl
  ^ "return " ^ dq ^ "Tool logic executed successfully." ^ dq ^ ";".

(** The node built by [manage_node] create. *)
Definition newNode (newId parent : string) (args : Args) : AetherNode :=
  mkNode newId (a_type args) (orStr (a_name args) "AI_Generated_Node")
    (Some parent) (Some true) (Some "google") (Some "gemini-2.5-flash")
    (content args)
    (if eqStr NodeType.TOOL (a_type args) then Some "function" else None)
    (orOpt (a_code args)
       (if eqStr NodeType.TOOL (a_type args) then Some (generatedCode args) else None))
    (Some (orStr (a_language args) "javascript"))
    (content args).

(** The node stored by [manage_node] update: [{ ...node, name: ..., ... }]. *)
Definition updatedNode (node : AetherNode) (args : Args) : AetherNode :=
  mkNode (id node) (type node)
    (orStr (a_name args) (name node))
    (orOpt (a_parentId args) (parentId node))
    (isActive node) (provider node) (model node)
    (definedOr (content args) (systemInstruction node))
    (orOpt (a_toolType args) (toolType node))
    (orOpt (a_code args) (code node))
    (language node)
    (definedOr (content args) (memoryContent node)).

(** The first node whose sanitized name is the requested tool name:
    [Object.values(nextProject.nodes).find(...)]. *)
Definition findTarget (p : ProjectState) (toolName : string) : option AetherNode :=
  find (fun n => String.eqb (sanitizeName (name n)) toolName) (values (nodes p)).

Section Runtime.

(** The identifiers [uuid()] returns, by number of the call. *)
Variable uuid : nat -> string.
(** [Date.now()], by number of the read. *)
Variable now : nat -> nat.
(** The depth of call stack the engine offers to [collectContext]. *)
Variable stackDepth : nat.
(** [window.electron.runScript('python', code)] when the desktop bridge
    exists: the text it resolves to, or the message it rejects with. *)
Variable electron : option (string -> string + string).
(** The tool runner of the browser: running [code] as the body of an async
    function of [args] and [print] gives the lines printed, rendered as
    [addLog] renders them, and then the returned value rendered by
    [String] or [JSON.stringify], or the message of the exception.  The run
    is taken to settle; what the code of a tool does to the page besides is
    not part of the model. *)
Variable runJs : string -> Args -> list string * (string + string).
(** [String.prototype.toUpperCase]. *)
Variable toUpperCase : string -> string.

Definition dateNow : M nat := fun st =>
  (now (ticks st),
   mkApp (project st) (simulatedProject st) (isSimulating st)
     (activeContextIds st) (messages st) (isLoading st) (saved st) (drawn st)
     (S (ticks st))).

Definition drawUuid : M string := fun st =>
  (uuid (drawn st),
   mkApp (project st) (simulatedProject st) (isSimulating st)
     (activeContextIds st) (messages st) (isLoading st) (saved st)
     (S (drawn st)) (ticks st)).

Definition addLog (source text : string) : M unit :=
  i <- dateNow ;;
  updateSessionMessages (fun prev =>
    prev ++ [mkMessage (toString i) SYSTEM_ROLE ("[" ^ source ^ "] " ^ text)
               None None None]).

(** *** Simulation manager

    [r] is the render whose closures run: [project], [simulatedProject] and
    [isSimulating] are read from it, the setters write the state. *)
Definition startSimulation (r : AppState) : M unit :=
  setSimulatedProject (Some (deepCopy (project r))) ;;
  setIsSimulating true ;;
  addLog "HYPERVISOR" "Simulation Runtime Initialized. All changes are sandboxed.".

Definition commitSimulation (r : AppState) : M unit :=
  match simulatedProject r with
  | Some sp =>
      setProject sp ;;
      setIsSimulating false ;;
      setSimulatedProject None ;;
      addLog "HYPERVISOR" "Simulation committed to Live Production."
  | None => ret tt
  end.

Definition abortSimulation : M unit :=
  setIsSimulating false ;;
  setSimulatedProject None ;;
  addLog "HYPERVISOR" "Simulation aborted. State reverted.".

(** [setActiveProject(newValue)] with a value, as the loop calls it. *)
Definition setActiveProject (r : AppState) (newValue : ProjectState) : M unit :=
  if isSimulating r then setSimulatedProject (Some newValue)
  else setProject newValue.

(** *** Tool-call handler: the three branches of the loop body

    Each returns the locals and [result]. *)
Definition manageSimulation (r : AppState) (args : Args) (l : Locals)
    : M (Locals * string) :=
  if eqStr "start" (action args) then
    startSimulation r ;;
    ret (withProject (setTriggered l) (deepCopy (nextProject l)),
         "Simulation Runtime Started. You are now operating in a sandboxed copy.")
  else if eqStr "commit" (action args) then
    commitSimulation r ;;
    ret (setTriggered l, "Simulation Committed to Live.")
  else if eqStr "abort" (action args) then
    abortSimulation ;;
    ret (setTriggered l, "Simulation Aborted.")
  else ret (l, "Action failed").

(** The [catch] of the node manager. *)
Definition operationFailed (l : Locals) (message : string) : M (Locals * string) :=
  addLog "ORCHESTRATOR" ("Operation failed: " ^ message) ;;
  ret (l, "Error: " ^ message).

Definition manageNode (args : Args) (l : Locals) : M (Locals * string) :=
  if eqStr "create" (action args) then
    newId <- drawUuid ;;
    let parent := orStr (a_parentId args) (rootNodeId (nextProject l)) in
    match getNode parent (nodes (nextProject l)) with
    | None => operationFailed l ("Parent " ^ parent ^ " not found")
    | Some _ =>
        let node := newNode newId parent args in
        let l1 := withProject l
                    (withNodes (nextProject l)
                       (setNode newId node (nodes (nextProject l)))) in
        let l2 := withStack l1 (nextStack l1 ++ [newId]) in
        addLog "ORCHESTRATOR"
          ("Constructed " ^ show (type node) ^ ": " ^ name node) ;;
        ret (setModified l2, "Success. Node created with ID: " ^ newId)
    end
  else if eqStr "update" (action args) then
    let k := show (nodeId args) in
    match getNode k (nodes (nextProject l)) with
    | None => operationFailed l ("Node " ^ k ^ " not found")
    | Some node =>
        let l1 := withProject l
                    (withNodes (nextProject l)
                       (setNode k (updatedNode node args) (nodes (nextProject l)))) in
        addLog "ORCHESTRATOR" ("Updated configuration for " ^ name node) ;;
        ret (setModified l1, "Success. Node " ^ k ^ " updated.")
    end
  else if eqStr "delete" (action args) then
    let k := show (nodeId args) in
    match getNode k (nodes (nextProject l)) with
    | None => operationFailed l ("Node " ^ k ^ " not found")
    | Some _ =>
        let l1 := withProject l
                    (withNodes (nextProject l)
                       (deleteNode k (nodes (nextProject l)))) in
        let l2 := withStack l1
                    (filter (fun i => negb (eqStr i (nodeId args))) (nextStack l1)) in
        addLog "ORCHESTRATOR" ("Deconstructed node " ^ k) ;;
        ret (setModified l2, "Success. Node " ^ k ^ " deleted.")
    end
  else ret (l, "Action failed").

Definition notFoundResult (toolName : string) : string :=
  "[System] Error: Tool definition '" ^ toolName ^ "' not found in active registry.".

Definition runtimeExecutor (call : ToolCall) (l : Locals) : M (Locals * string) :=
  let toolName := call_name call in
  match findTarget (nextProject l) toolName with
  | Some targetNode =>
      addLog "RUNTIME" ("Executing " ^ toolName ^ "...") ;;
      let crashed (message : string) : M (Locals * string) :=
        addLog "RUNTIME" ("[" ^ toolName ^ "] CRASHED: " ^ message) ;;
        ret (l, "Runtime Exception: " ^ message) in
      if eqStr "python" (language targetNode) then
        match electron with
        | Some runScript =>
            match runScript (orStr (code targetNode) EmptyString) with
            | inl res => addLog "STDOUT" res ;; ret (l, res)
            | inr message => crashed message
            end
        | None => crashed "Python execution requires Desktop Runtime (Electron)."
        end
      else
        let '(printed, outcome) :=
          runJs (orStr (code targetNode) ("return " ^ dq ^ "No code defined" ^ dq ^ ";"))
                (call_args call) in
        fold_right (fun line k => addLog (toUpperCase toolName) line ;; k)
                   (ret tt) printed ;;
        match outcome with
        | inl result =>
            addLog "RUNTIME"
              ("[" ^ toolName ^ "] Exit Code 0. Result: "
               ^ String.substring 0 50 result ^ "...") ;;
            ret (l, result)
        | inr message => crashed message
        end
  | None =>
      addLog "RUNTIME" ("Failed to execute " ^ toolName ^ ": Not found") ;;
      ret (l, notFoundResult toolName)
  end.

(** The body of [for (const call of toolCalls)]. *)
Definition handleCall (r : AppState) (call : ToolCall) (l : Locals) : M Locals :=
  lr <- (if String.eqb (call_name call) "manage_simulation"
         then manageSimulation r (call_args call) l
         else if String.eqb (call_name call) "manage_node"
         then manageNode (call_args call) l
         else runtimeExecutor call l) ;;
  i <- dateNow ;;
  let toolResponseMsg :=
    mkMessage (toString i) TOOL_ROLE "done" None None
      (Some (mkResponse (call_name call) (snd lr))) in
  updateSessionMessages (fun prev => prev ++ [toolResponseMsg]) ;;
  ret (pushHistory (fst lr) toolResponseMsg).

Fixpoint handleCalls (r : AppState) (calls : list ToolCall) (l : Locals) : M Locals :=
  match calls with
  | [] => ret l
  | call :: rest => l' <- handleCall r call l ;; handleCalls r rest l'
  end.

(** The [onToolCall] callback up to the recursive call: the message under
    [aiMsgId] is completed, the batch is handled and, when nodes changed and
    no simulation switch happened, the in-flight store is written back. *)
Definition onToolCall (r : AppState) (aiMsgId accumulatedText : string)
    (currentHistory : list Message) (runtimeProject : ProjectState)
    (stack : list string) (calls : list ToolCall) : M Locals :=
  updateSessionMessages (map (fun m =>
    if String.eqb (msg_id m) aiMsgId
    then mkMessage (msg_id m) (role m)
           (orStr (Some (msg_content m)) "Executing...")
           (Some false) (Some calls) (toolResponse m)
    else m)) ;;
  let historyContent :=
    orStr (Some accumulatedText) "Thought process complete. Executing tool." in
  let l0 := mkLocals (withNodes runtimeProject (nodes runtimeProject)) stack
              false false
              (currentHistory
               ++ [mkMessage aiMsgId MODEL historyContent None (Some calls) None]) in
  l <- handleCalls r calls l0 ;;
  (if modified l && negb (triggeredSimulationChange l)
   then setActiveProject r (nextProject l) ;; setActiveContextIds (nextStack l)
   else ret tt) ;;
  ret l.

(** [onChunk], for the whole text of a phase. *)
Definition onChunk (aiMsgId text : string) : M unit :=
  if truthy (Some text) then
    updateSessionMessages (map (fun m =>
      if String.eqb (msg_id m) aiMsgId
      then mkMessage (msg_id m) (role m) (msg_content m ^ text)
             (Some false) (toolCalls m) (toolResponse m)
      else m))
  else ret tt.

Definition onError (aiMsgId error : string) : M unit :=
  setIsLoading false ;;
  updateSessionMessages (map (fun m =>
    if String.eqb (msg_id m) aiMsgId
    then mkMessage (msg_id m) (role m) ("Error: " ^ error)
           (Some false) (toolCalls m) (toolResponse m)
    else m)).

(** What [streamResponse] throws when the root is missing, before any
    request is made. *)
Definition rootMissing : string :=
  "Cannot read properties of undefined (reading 'apiKey')".

Definition stackOverflow : string := "Maximum call stack size exceeded".

(** One dispatch: the context assembled from the store and the active set
    given to [streamResponse], and the history sent with it. *)
Definition Dispatch := (Context * list Message)%type.

(** [processChatTurn].  [script] is what [streamResponse] reports for the
    successive requests of the turn (a missing credential or a transport
    fault is a [Failed] entry); the recursion has no bound of its own and
    goes on as long as the backend requests tools. *)
Fixpoint processChatTurn (r : AppState) (script : list Outcome)
    (currentHistory : list Message) (contextFilter : option (list string))
    (overrideProject : option ProjectState) : M (TurnEnd * list Dispatch) :=
  t <- dateNow ;;
  let aiMsgId := toString (t + 1) in
  updateSessionMessages (fun prev =>
    prev ++ [mkMessage aiMsgId MODEL EmptyString (Some true) None None]) ;;
  let runtimeProject :=
    match overrideProject with
    | Some p => p
    | None => activeProject r
    end in
  let stack :=
    match contextFilter with
    | Some s => s
    | None => activeContextIds r
    end in
  match getNode (rootNodeId runtimeProject) (nodes runtimeProject) with
  | None => onError aiMsgId rootMissing ;; ret (EndFailed rootMissing, [])
  | Some _ =>
      match collectContext stackDepth runtimeProject (Some stack) with
      | None => onError aiMsgId stackOverflow ;; ret (EndFailed stackOverflow, [])
      | Some ctx =>
          let d : Dispatch := (ctx, currentHistory) in
          match script with
          | [] => ret (Pending, [d])
          | Completed text :: _ =>
              onChunk aiMsgId text ;; setIsLoading false ;; ret (EndCompleted, [d])
          | Failed text error :: _ =>
              onChunk aiMsgId text ;; onError aiMsgId error ;;
              ret (EndFailed error, [d])
          | ToolCalls text calls :: rest =>
              onChunk aiMsgId text ;;
              l <- onToolCall r aiMsgId text currentHistory runtimeProject stack
                     calls ;;
              e <- processChatTurn r rest (newHistory l) (Some (nextStack l))
                     (Some (nextProject l)) ;;
              ret (fst e, d :: snd e)
          end
      end
  end.

(** [handleSend] without image (the renaming of a new session is left
    out): an empty input or a turn in flight is ignored; otherwise the user
    message is appended and the turn starts on the closures of the render
    [r].  [Raw.handleSend] below is the function with its image. *)
Definition handleSend (r : AppState) (script : list Outcome) (input : string)
    (focusMode : bool) : M (option (TurnEnd * list Dispatch)) :=
  if String.eqb (trim input) EmptyString || isLoading r then ret None
  else
    t <- dateNow ;;
    let userMsg := mkMessage (toString t) USER input None None None in
    updateSessionMessages (fun prev => prev ++ [userMsg]) ;;
    setIsLoading true ;;
    e <- processChatTurn r script (messages r ++ [userMsg])
           (if focusMode then Some [selectedNodeId (activeProject r)] else None)
           None ;;
    ret (Some e).

End Runtime.

(** ** Tool calls as the drivers deliver them

    [call.args] is whatever the driver parsed.  The native driver hands over
    [functionCall.args], which the backend may leave out; the universal
    driver hands over [JSON.parse(arguments)], which is [null] for the
    argument text [null].  The loop above reads calls that carry an
    argument object and sends without image; [Module Raw] is the same loop
    for calls that may come without one, and [handleSend] with its image.
    Reading a property of [null] or [undefined] throws a [TypeError]: in
    the node manager the [try] around the branch catches it, in the
    simulation manager nothing does, and the exception leaves the
    [onToolCall] handler.  The drivers call the handler without awaiting
    it, so neither [onComplete] nor [onError] runs after that. *)
Inductive CallArgs :=
  | Object (a : Args)
  | Null
  | Undefined.

(** What a statement sequence comes to: its value, or the exception that
    left it. *)
Inductive Completion (A : Type) :=
  | Normal (a : A)
  | Throw (message : string).
Arguments Normal {A} a.
Arguments Throw {A} message.

(** The message of the [TypeError] raised by reading [property] of [a]
    (in V8's wording). *)
Definition cannotRead (a : CallArgs) (property : string) : string :=
  "Cannot read properties of "
  ^ match a with Null => "null" | _ => "undefined" end
  ^ " (reading '" ^ property ^ "')".

Module Raw.

Record Call := mkRaw {
  raw_name : string;
  raw_args : CallArgs
}.

(** The call as the messages of the model keep it: the name and the
    argument object, an absent one being kept as the empty object. *)
Definition recorded (c : Call) : ToolCall :=
  mkCall (raw_name c)
    match raw_args c with
    | Object a => a
    | _ => noArgs
    end.

Inductive Outcome :=
  | ToolCalls (text : string) (calls : list Call)
  | Completed (text : string)
  | Failed (text : string) (error : string).

(** How a turn ended: as the callbacks report it, or with the handler of
    a batch rejected, which no callback reports. *)
Inductive End :=
  | Ended (e : TurnEnd)
  | Rejected (message : string).

Section Runtime.

Variable uuid : nat -> string.
Variable now : nat -> nat.
Variable stackDepth : nat.
Variable electron : option (string -> string + string).
(** The tool runner of the browser, on the arguments as delivered. *)
Variable runJs : string -> CallArgs -> list string * (string + string).
Variable toUpperCase : string -> string.

(** The body of [for (const call of toolCalls)].  The executor branch
    reads [call.name] and hands [call.args] to the tool unread. *)
Definition handleCall (r : AppState) (call : Call) (l : Locals)
    : M (Completion Locals) :=
  lr <- (if String.eqb (raw_name call) "manage_simulation" then
           match raw_args call with
           | Object args => lr <- manageSimulation now r args l ;; ret (Normal lr)
           | a => ret (Throw (cannotRead a "action"))
           end
         else if String.eqb (raw_name call) "manage_node" then
           match raw_args call with
           | Object args => lr <- manageNode uuid now args l ;; ret (Normal lr)
           | a => lr <- operationFailed now l (cannotRead a "action") ;;
                  ret (Normal lr)
           end
         else
           lr <- runtimeExecutor now electron
                   (fun code _ => runJs code (raw_args call)) toUpperCase
                   (mkCall (raw_name call) noArgs) l ;;
           ret (Normal lr)) ;;
  match lr with
  | Throw message => ret (Throw message)
  | Normal lr =>
      i <- dateNow now ;;
      let toolResponseMsg :=
        mkMessage (toString i) TOOL_ROLE "done" None None
          (Some (mkResponse (raw_name call) (snd lr))) in
      updateSessionMessages (fun prev => prev ++ [toolResponseMsg]) ;;
      ret (Normal (pushHistory (fst lr) toolResponseMsg))
  end.

Fixpoint handleCalls (r : AppState) (calls : list Call) (l : Locals)
    : M (Completion Locals) :=
  match calls with
  | [] => ret (Normal l)
  | call :: rest =>
      x <- handleCall r call l ;;
      match x with
      | Normal l' => handleCalls r rest l'
      | Throw message => ret (Throw message)
      end
  end.

(** The [onToolCall] callback up to the recursive call. *)
Definition onToolCall (r : AppState) (aiMsgId accumulatedText : string)
    (currentHistory : list Message) (runtimeProject : ProjectState)
    (stack : list string) (calls : list Call) : M (Completion Locals) :=
  updateSessionMessages (map (fun m =>
    if String.eqb (msg_id m) aiMsgId
    then mkMessage (msg_id m) (role m)
           (orStr (Some (msg_content m)) "Executing...")
           (Some false) (Some (map recorded calls)) (toolResponse m)
    else m)) ;;
  let historyContent :=
    orStr (Some accumulatedText) "Thought process complete. Executing tool." in
  let l0 := mkLocals (withNodes runtimeProject (nodes runtimeProject)) stack
              false false
              (currentHistory
               ++ [mkMessage aiMsgId MODEL historyContent None
                     (Some (map recorded calls)) None]) in
  x <- handleCalls r calls l0 ;;
  match x with
  | Throw message => ret (Throw message)
  | Normal l =>
      (if modified l && negb (triggeredSimulationChange l)
       then setActiveProject r (nextProject l) ;; setActiveContextIds (nextStack l)
       else ret tt) ;;
      ret (Normal l)
  end.

(** [processChatTurn]; [script] is what [streamResponse] reports for the
    successive requests of the turn. *)
Fixpoint processChatTurn (r : AppState) (script : list Outcome)
    (currentHistory : list Message) (contextFilter : option (list string))
    (overrideProject : option ProjectState) : M (End * list Dispatch) :=
  t <- dateNow now ;;
  let aiMsgId := toString (t + 1) in
  updateSessionMessages (fun prev =>
    prev ++ [mkMessage aiMsgId MODEL EmptyString (Some true) None None]) ;;
  let runtimeProject :=
    match overrideProject with
    | Some p => p
    | None => activeProject r
    end in
  let stack :=
    match contextFilter with
    | Some s => s
    | None => activeContextIds r
    end in
  match getNode (rootNodeId runtimeProject) (nodes runtimeProject) with
  | None => onError aiMsgId rootMissing ;; ret (Ended (EndFailed rootMissing), [])
  | Some _ =>
      match collectContext stackDepth runtimeProject (Some stack) with
      | None =>
          onError aiMsgId stackOverflow ;; ret (Ended (EndFailed stackOverflow), [])
      | Some ctx =>
          let d : Dispatch := (ctx, currentHistory) in
          match script with
          | [] => ret (Ended Pending, [d])
          | Completed text :: _ =>
              onChunk aiMsgId text ;; setIsLoading false ;;
              ret (Ended EndCompleted, [d])
          | Failed text error :: _ =>
              onChunk aiMsgId text ;; onError aiMsgId error ;;
              ret (Ended (EndFailed error), [d])
          | ToolCalls text calls :: rest =>
              onChunk aiMsgId text ;;
              x <- onToolCall r aiMsgId text currentHistory runtimeProject stack
                     calls ;;
              match x with
              | Throw message => ret (Rejected message, [d])
              | Normal l =>
                  e <- processChatTurn r rest (newHistory l) (Some (nextStack l))
                         (Some (nextProject l)) ;;
                  ret (fst e, d :: snd e)
              end
          end
      end
  end.

(** [handleSend] (the renaming of a new session is left out): a send
    with neither text nor image, or while a turn is in flight, is ignored;
    otherwise the user message is appended, marked when an image comes with
    it, and the turn starts on the closures of the render [r]. *)
Definition handleSend (r : AppState) (script : list Outcome) (input : string)
    (image : option string) (focusMode : bool)
    : M (option (End * list Dispatch)) :=
  if (String.eqb (trim input) EmptyString && negb (truthy image)) || isLoading r
  then ret None
  else
    t <- dateNow now ;;
    let userMsg :=
      mkMessage (toString t) USER
        (input ^ (if truthy image then nl ^ "(Image attached)" else EmptyString))
        None None None in
    updateSessionMessages (fun prev => prev ++ [userMsg]) ;;
    setIsLoading true ;;
    e <- processChatTurn r script (messages r ++ [userMsg])
           (if focusMode then Some [selectedNodeId (activeProject r)] else None)
           None ;;
    ret (Some e).

End Runtime.

End Raw.

(** ** Node inspector ([NodeInspector]) *)

(** [getPotentialParents]: the options of the parent selector. *)
Definition getPotentialParents (p : ProjectState) (localNode : AetherNode)
    : list AetherNode :=
  filter (fun n =>
            (eqStr NodeType.AGENT (type n) || eqStr NodeType.ROUTER (type n)
             || eqStr NodeType.TOOL (type n) || String.eqb (id n) (rootNodeId p))
            && negb (String.eqb (id n) (id localNode))
            && negb (eqStr (id localNode) (parentId n)))
         (values (nodes p)).

Definition withParent (n : AetherNode) (q : option string) : AetherNode :=
  mkNode (id n) (type n) (name n) q (isActive n) (provider n) (model n)
    (systemInstruction n) (toolType n) (code n) (language n) (memoryContent n).

(** [handleSave]: the edited copy replaces the node. *)
Definition handleSave (p : ProjectState) (localNode : AetherNode) : ProjectState :=
  withNodes p (setNode (id localNode) localNode (nodes p)).

(** Choosing an option of the parent selector, then APPLY.  The selector is
    rendered for nodes other than the root and offers the identifiers of
    [getPotentialParents] only. *)
Definition reparent (p : ProjectState) (k q : string) : option ProjectState :=
  match getNode k (nodes p) with
  | Some n =>
      if negb (String.eqb (id n) (rootNodeId p))
         && existsb (fun c => String.eqb (id c) q) (getPotentialParents p n)
      then Some (handleSave p (withParent n (Some q)))
      else None
  | None => None
  end.

(** ** Example inputs *)

Definition ticking : nat -> nat := fun n => 10 * n.
Definition sampleUuid (n : nat) : string := "node" ^ toString n.
Definition noRunner : string -> Args -> list string * (string + string) :=
  fun _ _ => ([], inl "ok").
Definition upper : string -> string := fun s => s.

(** The application with the default project, nothing simulated. *)
Definition liveState : AppState :=
  mkApp DEFAULT_PROJECT None false (keys (nodes DEFAULT_PROJECT)) [] false
    (Some DEFAULT_PROJECT) 0 0.

(** A fork that has diverged from the live store: the agent was deleted in
    the simulation. *)
Definition forkedProject : ProjectState :=
  withNodes DEFAULT_PROJECT (deleteNode "agent_core" (nodes DEFAULT_PROJECT)).

Definition forkedState : AppState :=
  mkApp DEFAULT_PROJECT (Some forkedProject) true
    (keys (nodes forkedProject)) [] false (Some DEFAULT_PROJECT) 0 0.

Definition simulationCall (a : string) : ToolCall :=
  mkCall "manage_simulation"
    (mkArgs (Some a) None None None None None None None None).

Definition deleteCall (k : string) : ToolCall :=
  mkCall "manage_node"
    (mkArgs (Some "delete") (Some k) None None None None None None None).

Definition updateParentCall (k q : string) : ToolCall :=
  mkCall "manage_node"
    (mkArgs (Some "update") (Some k) (Some q) None None None None None None).

(** The backend starts a simulation in one phase and deletes the root in
    the next one. *)
Definition startThenDeleteRoot : list Outcome :=
  [ ToolCalls EmptyString [simulationCall "start"];
    ToolCalls EmptyString [deleteCall "root"];
    Completed "done" ].

(** The same two calls requested in one batch. *)
Definition startAndDeleteRoot : list Outcome :=
  [ ToolCalls EmptyString [simulationCall "start"; deleteCall "root"];
    Completed "done" ].

(** The backend aborts the simulation in one phase and requests a commit
    in the next one. *)
Definition abortThenCommit : list Outcome :=
  [ ToolCalls EmptyString [simulationCall "abort"];
    ToolCalls EmptyString [simulationCall "commit"];
    Completed "done" ].

(** [call] is a [manage_simulation] commit. *)
Definition isCommit (call : ToolCall) : bool :=
  String.eqb (call_name call) "manage_simulation"
  && eqStr "commit" (action (call_args call)).

Definition commits (o : Outcome) : bool :=
  match o with
  | ToolCalls _ calls => existsb isCommit calls
  | _ => false
  end.

(** A computation that does not write the live store. *)
Definition keepsLive {A : Type} (c : M A) : Prop :=
  forall st, project (snd (c st)) = project st.

(** [m] is the tool-result message of call [c]. *)
Definition answers (c : ToolCall) (m : Message) : Prop :=
  role m = TOOL_ROLE
  /\ msg_content m = "done"
  /\ exists result, toolResponse m = Some (mkResponse (call_name c) result).

(** Arguments used in the examples. *)
Definition emptyCodeUpdate : Args :=
  mkArgs (Some "update") (Some "agent_core") None None (Some EmptyString)
    (Some EmptyString) (Some EmptyString) None None.

Definition twoCalls : list ToolCall :=
  [mkCall "Get_Time" noArgs; simulationCall "abort"].

Definition createToolArgs : Args :=
  mkArgs (Some "create") None (Some "agent_core") (Some NodeType.TOOL)
    (Some "Get Time") None None None None.

(** ** Reading the stream as a whole *)

Import Driver.



Definition fragmentsOf (i : nat) (tcs : list ToolCallDelta) : list ToolCallDelta :=
  filter (fun tc => Nat.eqb (tc_index tc) i) tcs.

(** The delta a line of the stream carries, if any. *)
Definition lineDelta (decode : string -> option Delta) (line : string) : option Delta :=
  if String.eqb (trim line) EmptyString
     || String.eqb (trim line) "data: [DONE]" then None
  else if String.prefix "data: " line then decode (slice 6 line)
  else None.

Definition lineFragments (decode : string -> option Delta) (line : string)
    : list ToolCallDelta :=
  match lineDelta decode line with
  | Some d => match delta_tool_calls d with Some tcs => tcs | None => [] end
  | None => []
  end.

Definition lineChunks (J : Type) (decode : string -> option Delta) (line : string)
    : list (Event J) :=
  match lineDelta decode line with
  | Some d => if truthy (delta_content d) then [Chunk (show (delta_content d))] else []
  | None => []
  end.

(** The complete lines of a stream, whatever the chunking. *)
Definition streamLines (chunks : list string) : list string :=
  removelast (splitLines (concatStr chunks)).


Definition quoted (s : string) : string := dq ^ s ^ dq.

Definition eventLine (fragment : string) : string :=
  "data: {" ^ quoted "choices" ^ ":[{" ^ quoted "delta" ^ ":{"
  ^ quoted "tool_calls" ^ ":[" ^ fragment ^ "]}}]}" ^ nl.




(** ** Request construction of the engine ([streamResponse],
       [executeUniversalRequest], [executeGoogleRequest]) *)

(** [l.findIndex(f)]; [None] is -1. *)
Fixpoint findIndex {A : Type} (f : A -> bool) (l : list A) : option nat :=
  match l with
  | [] => None
  | x :: r => if f x then Some 0 else option_map S (findIndex f r)
  end.

(** [l.map((x, i) => f(x, i))], counting from [i]. *)
Fixpoint mapi {A B : Type} (f : A -> nat -> B) (i : nat) (l : list A) : list B :=
  match l with
  | [] => []
  | x :: r => f x i :: mapi f (S i) r
  end.

(** An element of [tool_calls] of an assistant message on the wire. *)
Record WireCall := mkWireCall {
  wc_id : string;
  wc_name : string;
  wc_arguments : string
}.

(** A message of the chat-completion request. *)
Inductive ChatMessage :=
  | SystemMessage (text : string)
  | AssistantToolCalls (text : option string) (calls : list WireCall)
  | ToolMessage (tool_call_id : string) (text : string)
  | PlainMessage (chatRole : string) (text : string).

(** The synthetic identifier [call_${id}_${i}]. *)
Definition callId (messageId : string) (i : nat) : string :=
  "call_" ^ messageId ^ "_" ^ toString i.

(** State of the history loop: [messages], [lastModelToolCalls] and
    [lastModelMsgId]. *)
Record Mapping := mkMapping {
  mapped : list ChatMessage;
  lastModelToolCalls : list ToolCall;
  lastModelMsgId : string
}.

(** The body of [for (const m of history)].  [None] is the [TypeError] of
    reading [m.toolResponse.name] on a tool message without response. *)
Definition mapMessage (stringify : Args -> string) (st : Mapping) (m : Message)
    : option Mapping :=
  match role m, toolCalls m with
  | MODEL, Some tcs =>
      Some (mkMapping
              (mapped st
               ++ [AssistantToolCalls
                     (if truthy (Some (msg_content m)) then Some (msg_content m) else None)
                     (mapi (fun tc i =>
                              mkWireCall (callId (msg_id m) i) (call_name tc)
                                (stringify (call_args tc))) 0 tcs)])
              tcs (msg_id m))
  | TOOL_ROLE, _ =>
      match toolResponse m with
      | Some tr =>
          let callIndex :=
            findIndex (fun tc => String.eqb (call_name tc) (resp_name tr))
              (lastModelToolCalls st) in
          let syntheticId :=
            callId (lastModelMsgId st)
              (match callIndex with Some i => i | None => 0 end) in
          Some (mkMapping (mapped st ++ [ToolMessage syntheticId (resp_content tr)])
                  (lastModelToolCalls st) (lastModelMsgId st))
      | None => None
      end
  | USER, _ =>
      Some (mkMapping (mapped st ++ [PlainMessage "user" (msg_content m)])
              (lastModelToolCalls st) (lastModelMsgId st))
  | _, _ =>
      Some (mkMapping (mapped st ++ [PlainMessage "assistant" (msg_content m)])
              (lastModelToolCalls st) (lastModelMsgId st))
  end.

Fixpoint mapHistory (stringify : Args -> string) (st : Mapping) (history : list Message)
    : option Mapping :=
  match history with
  | [] => Some st
  | m :: rest =>
      match mapMessage stringify st m with
      | Some st' => mapHistory stringify st' rest
      | None => None
      end
  end.

(** The [messages] of the request body. *)
Definition universalMessages (stringify : Args -> string) (systemInstruction : string)
    (history : list Message) : option (list ChatMessage) :=
  option_map mapped
    (mapHistory stringify (mkMapping [SystemMessage systemInstruction] [] EmptyString)
       history).

(** [effectiveHistory] of the universal branch of [streamResponse]. *)
Definition effectiveHistory (history : list Message) (currentPrompt : option string)
    : list Message :=
  if truthy currentPrompt
  then history ++ [mkMessage "curr" USER (show currentPrompt) None None None]
  else history.

(** The index of the first call named [nm], 0 when there is none. *)
Definition answeredIndex (nm : string) (calls : list ToolCall) : nat :=
  match findIndex (fun tc => String.eqb (call_name tc) nm) calls with
  | Some i => i
  | None => 0
  end.

Definition toolCallId (m : ChatMessage) : option string :=
  match m with
  | ToolMessage i _ => Some i
  | _ => None
  end.

(** *** Contents of the native request *)

Inductive Part :=
  | TextPart (text : string)
  | FunctionCallPart (fname : string) (fargs : Args)
  | FunctionResponsePart (fname : string) (result : string)
  | InlineDataPart (mimeType : option string) (data : option string).

Record Content := mkContent {
  contentRole : string;
  contentParts : list Part
}.

(** [s.split(c)]: never empty. *)
Fixpoint splitOn (c : ascii) (s : string) : list string :=
  match s with
  | EmptyString => [EmptyString]
  | String x r =>
      if Ascii.eqb x c then EmptyString :: splitOn c r
      else match splitOn c r with
           | l :: ls => String x l :: ls
           | [] => [String x EmptyString]
           end
  end.

(** The element of [history.map(...)] for one message. *)
Definition googleContent (m : Message) : option Content :=
  match role m with
  | TOOL_ROLE =>
      match toolResponse m with
      | Some tr =>
          Some (mkContent "function"
                  [FunctionResponsePart (resp_name tr) (resp_content tr)])
      | None => None
      end
  | _ =>
      match toolCalls m with
      | Some tcs =>
          Some (mkContent "model"
                  ((if truthy (Some (msg_content m))
                       && negb (String.eqb (trim (msg_content m)) EmptyString)
                    then [TextPart (msg_content m)] else [])
                   ++ map (fun tc => FunctionCallPart (call_name tc) (call_args tc)) tcs))
      | None =>
          Some (mkContent (match role m with USER => "user" | _ => "model" end)
                  [TextPart (msg_content m)])
      end
  end.

(** [currentParts]. *)
Definition currentParts (currentPrompt currentImage : option string) : list Part :=
  (if truthy currentImage
   then [InlineDataPart
           (match nth_error (splitOn ";"%char (show currentImage)) 0 with
            | Some h => nth_error (splitOn ":"%char h) 1
            | None => None
            end)
           (nth_error (splitOn ","%char (show currentImage)) 1)]
   else [])
  ++ (if truthy currentPrompt then [TextPart (show currentPrompt)] else []).

(** [googleContents]; [None] when a tool message has no response. *)
Definition googleContents (history : list Message)
    (currentPrompt currentImage : option string) : option (list Content) :=
  match allSome (map googleContent history) with
  | Some cs =>
      Some (cs ++ match currentParts currentPrompt currentImage with
                  | [] => []
                  | ps => [mkContent "user" ps]
                  end)
  | None => None
  end.

Definition isFunctionCallPart (p : Part) : bool :=
  match p with FunctionCallPart _ _ => true | _ => false end.

Definition isBlankText (p : Part) : bool :=
  match p with
  | TextPart t => String.eqb (trim t) EmptyString
  | _ => false
  end.

(** *** Credential of a request *)

(** [safeApiKey]: the key of the root node, else the key of the build
    environment, else the one of the page's [process.env], else the dummy
    key of the local proxy. *)
Definition safeApiKey (nodeKey viteKey processKey provider : option string)
    : option string :=
  let apiKey := if truthy nodeKey then nodeKey else orOpt viteKey processKey in
  if truthy apiKey then apiKey
  else if eqStr "litellm" provider then Some "sk-dummy-key-for-proxy"
  else None.

(** The driver [streamResponse] routes to. *)
Inductive Route := NativeDriver | UniversalDriver.

Definition routeOf (provider : option string) : Route :=
  if negb (truthy provider) || eqStr "google" provider then NativeDriver
  else UniversalDriver.

(** What [streamResponse] does after the context is assembled: it reports
    the missing credential, or dispatches the request on one driver. *)
Inductive Prepared :=
  | MissingKey (message : string)
  | Dispatched (route : Route) (apiKey : string).

Definition prepare (nodeKey viteKey processKey provider : option string) : Prepared :=
  match safeApiKey nodeKey viteKey processKey provider with
  | Some k => Dispatched (routeOf provider) k
  | None =>
      MissingKey ("No API Key found for " ^ show provider
                  ^ ". Please configure it in the Node Inspector.")
  end.

(** *** Native structured driver ([executeGoogleRequest], stream part) *)

Module Native.

Record StreamPart := mkStreamPart {
  part_text : option string;
  part_functionCall : option ToolCall
}.

(** A chunk of the stream: the parts of its first candidate, the chunk's
    own [text] and whether grounding chunks come with it. *)
Record StreamChunk := mkStreamChunk {
  chunk_parts : list StreamPart;
  chunk_text : option string;
  chunk_grounding : bool
}.

Inductive Event :=
  | Text (text : string)
  | Grounding
  | ToolCallBatch (calls : list ToolCall)
  | Complete.

(** Loop state: the callbacks invoked so far and [toolCalls]. *)
Definition Loop := (list Event * list ToolCall)%type.

Definition processPart (st : Loop) (part : StreamPart) : Loop :=
  let '(out, calls) := st in
  let out1 := if truthy (part_text part)
              then out ++ [Text (show (part_text part))] else out in
  match part_functionCall part with
  | Some fc => (out1, calls ++ [fc])
  | None => (out1, calls)
  end.

(** The body of [for await (const chunk of responseStream)]. *)
Definition processChunk (st : Loop) (c : StreamChunk) : Loop :=
  let st1 :=
    match chunk_parts c with
    | [] => if truthy (chunk_text c)
            then (fst st ++ [Text (show (chunk_text c))], snd st) else st
    | ps => fold_left processPart ps st
    end in
  if chunk_grounding c then (fst st1 ++ [Grounding], snd st1) else st1.

(** The callbacks invoked by [executeGoogleRequest], in order. *)
Definition executeGoogleRequest (chunks : list StreamChunk) : list Event :=
  let '(out, calls) := fold_left processChunk chunks ([], []) in
  out ++ [match calls with
          | [] => Complete
          | _ => ToolCallBatch calls
          end].

(** What a chunk forwards at once, and what it adds to the batch. *)
Definition partEvents (part : StreamPart) : list Event :=
  if truthy (part_text part) then [Text (show (part_text part))] else [].

Definition chunkEvents (c : StreamChunk) : list Event :=
  match chunk_parts c with
  | [] => if truthy (chunk_text c) then [Text (show (chunk_text c))] else []
  | ps => flat_map partEvents ps
  end
  ++ (if chunk_grounding c then [Grounding] else []).

Definition chunkCalls (c : StreamChunk) : list ToolCall :=
  flat_map (fun part => match part_functionCall part with
                        | Some fc => [fc]
                        | None => []
                        end) (chunk_parts c).

Definition isTerminal (e : Event) : bool :=
  match e with
  | ToolCallBatch _ | Complete => true
  | _ => false
  end.

End Native.

(** *** Views of the stream used in the statements *)

Definition noNewline (s : string) : bool :=
  allChars (fun c => negb (Ascii.eqb c (ascii_of_nat 10))) s.

(** Strictly ascending keys. *)
Fixpoint ascending (l : list nat) : bool :=
  match l with
  | x :: ((y :: _) as r) => Nat.ltb x y && ascending r
  | _ => true
  end.

(** The last non-empty value of a property over the fragments. *)
Definition lastTruthy (l : list (option string)) : option string :=
  fold_left (fun acc x => if truthy x then x else acc) l None.

Definition fragmentName (tc : ToolCallDelta) : option string :=
  match tc_function tc with
  | Some f => fn_name f
  | None => None
  end.

Definition pendingName (i : nat) (b : Buffer) : option string :=
  match bufGet i b with
  | Some e => p_name e
  | None => None
  end.

(** The fragments of a whole stream, in arrival order. *)
Definition streamFragments (decode : string -> option Delta) (chunks : list string)
    : list ToolCallDelta :=
  flat_map (lineFragments decode) (streamLines chunks).

(** A model message with the two calls of [twoCalls] and the tool
    messages that answer them. *)
Definition batchMessage : Message :=
  mkMessage "m1" MODEL EmptyString None (Some twoCalls) None.

Definition batchResults : list Message :=
  [mkMessage "t1" TOOL_ROLE "done" None None
     (Some (mkResponse "Get_Time" "12:00"));
   mkMessage "t2" TOOL_ROLE "done" None None
     (Some (mkResponse "manage_simulation" "Simulation aborted."))].

Definition noStringify : Args -> string := fun _ => "{}".

(** *** Views of the loop used in the statements *)

(** A computation that leaves the component [f] of the state as it is. *)
Definition unchanged {X A : Type} (f : AppState -> X) (c : M A) : Prop :=
  forall st, f (snd (c st)) = f st.

(** [call] is a [manage_simulation] call with one of the three actions the
    handler knows: it sets [triggeredSimulationChange]. *)
Definition isSwitch (call : ToolCall) : bool :=
  String.eqb (call_name call) "manage_simulation"
  && (eqStr "start" (action (call_args call))
      || eqStr "commit" (action (call_args call))
      || eqStr "abort" (action (call_args call))).

(** The tool result reports a success of the node manager. *)
Definition succeeded (result : string) : bool := String.prefix "Success. " result.

(** The turn has ended: the backend completed or the turn failed. *)
Definition ended (e : TurnEnd) : bool :=
  match e with
  | EndCompleted => true
  | EndFailed _ => true
  | _ => false
  end.

(** The default project after the backend has moved the root under the
    agent: a parent cycle through the root. *)
Definition cycleProject : ProjectState :=
  withNodes DEFAULT_PROJECT
    (setNode "root"
       (mkNode "root" (Some NodeType.SYSTEM) "Aether_Kernel" (Some "agent_core")
          (Some true) (Some "google") (Some "gemini-2.5-flash") None None None
          None None)
       (nodes DEFAULT_PROJECT)).

(** The locals of a batch that starts on the default project. *)
Definition defaultLocals : Locals := mkLocals DEFAULT_PROJECT [] false false [].

(** A render in which a turn is in flight. *)
Definition loadingState : AppState :=
  mkApp DEFAULT_PROJECT None false (keys (nodes DEFAULT_PROJECT)) [] true
    (Some DEFAULT_PROJECT) 0 0.

(** A node operation and a commit requested in one batch. *)
Definition createAndCommit : list ToolCall :=
  [mkCall "manage_node" createToolArgs; simulationCall "commit"].

(** A render in which the simulation runs on the diverged fork, with no
    turn in flight. *)
Definition simulatingState : AppState := forkedState.

(** *** Endpoint of the universal driver ([executeUniversalRequest], setup) *)

(** [PROVIDERS] of [types.ts]: identifier and base URL. *)
Definition PROVIDERS : list (string * option string) :=
  [ ("google", None);
    ("litellm", Some "http://localhost:4000");
    ("cerebras", Some "https://api.cerebras.ai/v1");
    ("groq", Some "https://api.groq.com/openai/v1");
    ("openai", Some "https://api.openai.com/v1");
    ("deepseek", Some "https://api.deepseek.com");
    ("sambanova", Some "https://api.sambanova.ai/v1");
    ("hyperbolic", Some "https://api.hyperbolic.xyz/v1");
    ("huggingface", None);
    ("anthropic", None);
    ("ollama", Some "http://localhost:11434/v1");
    ("custom", None) ].

(** [PROVIDERS.find(p => p.id === rootNode.provider)?.baseUrl]. *)
Definition providerBaseUrl (provider : option string) : option string :=
  match find (fun pr => eqStr (fst pr) provider) PROVIDERS with
  | Some pr => snd pr
  | None => None
  end.

(** [hay.includes(needle)]. *)
Fixpoint includes (needle hay : string) : bool :=
  String.prefix needle hay
  || match hay with
     | EmptyString => false
     | String _ r => includes needle r
     end.

(** [s.replace(/\/$/, '')]: one slash at the very end is removed. *)
Fixpoint stripTrailingSlash (s : string) : string :=
  match s with
  | EmptyString => EmptyString
  | String c r =>
      match r with
      | EmptyString => if Ascii.eqb c "/"%char then EmptyString else s
      | _ => String c (stripTrailingSlash r)
      end
  end.

Definition resolveBaseUrl (apiBase provider : option string) : string :=
  let baseUrl := orStr (orOpt apiBase (providerBaseUrl provider))
                   "https://api.openai.com/v1" in
  if eqStr "litellm" provider && negb (includes "http" baseUrl)
  then "http://localhost:4000"
  else baseUrl.

Definition endpoint (apiBase provider : option string) : string :=
  stripTrailingSlash (resolveBaseUrl apiBase provider) ^ "/chat/completions".

(** *** The active set ([toggleContextId] and the initial stack) *)

(** The updater of [toggleContextId]. *)
Definition toggle (k : string) (prev : list string) : list string :=
  if existsb (String.eqb k) prev
  then filter (fun x => negb (String.eqb x k)) prev
  else prev ++ [k].

Definition toggleContextId (k : string) : M unit := fun st =>
  setActiveContextIds (toggle k (activeContextIds st)) st.

(** The stack the initialisation effect sets when the active set is
    empty: [Object.keys(activeProject.nodes)]. *)
Definition initialStack (p : ProjectState) : list string := keys (nodes p).

(** ** Chat sessions ([App.tsx]) *)

Module Sessions.

Record ChatSession := mkSession {
  id : string;
  title : string;
  messages : list Message;
  createdAt : nat;
  updatedAt : nat
}.

(** The two pieces of state the session handlers work on. *)
Record State := mkState {
  sessions : list ChatSession;
  activeSessionId : string
}.

(** [sessions.find(s => s.id === activeSessionId) || sessions[0]]. *)
Definition activeSession (r : State) : option ChatSession :=
  match find (fun s => String.eqb (id s) (activeSessionId r)) (sessions r) with
  | Some s => Some s
  | None => hd_error (sessions r)
  end.

(** [updateSessionMessages(sessionId, fn)] at time [t]. *)
Definition updateSessionMessages (sessionId : string)
    (fn : list Message -> list Message) (t : nat) (st : State) : State :=
  mkState
    (map (fun s => if String.eqb (id s) sessionId
                   then mkSession (id s) (title s) (fn (messages s)) (createdAt s) t
                   else s) (sessions st))
    (activeSessionId st).

(** [handleNewSession]; [newId] is what [uuid()] returns, [t1] and [t2]
    the two reads of the clock. *)
Definition handleNewSession (newId : string) (t1 t2 : nat) (st : State) : State :=
  mkState (mkSession newId "New Session" [] t1 t2 :: sessions st) newId.

(** [handleDeleteSession(k)], run on the closures of the render [r]. *)
Definition handleDeleteSession (r : State) (k newId : string) (t1 t2 : nat)
    (st : State) : State :=
  let newSessions := filter (fun s => negb (String.eqb (id s) k)) (sessions r) in
  match newSessions with
  | [] => handleNewSession newId t1 t2 st
  | first :: _ =>
      mkState newSessions
        (if String.eqb (activeSessionId r) k then id first else activeSessionId st)
  end.

Definition handleRenameSession (k newTitle : string) (st : State) : State :=
  mkState
    (map (fun s => if String.eqb (id s) k
                   then mkSession (id s) newTitle (messages s) (createdAt s)
                          (updatedAt s)
                   else s) (sessions st))
    (activeSessionId st).

End Sessions.

(** A project with one conversation. *)
Definition oneSession : Sessions.State :=
  Sessions.mkState
    [Sessions.mkSession "default" "Plans"
       [mkMessage "1" USER "secret plans" None None None] 0 0]
    "default".

Definition twoSessions : Sessions.State :=
  Sessions.mkState
    [Sessions.mkSession "s1" "First" [] 0 0;
     Sessions.mkSession "s2" "Second" [] 1 1]
    "s1".

(** ** Manual node creation ([createNode]) *)

Definition manualCode : string :=
  "// Runtime Tool Logic (JavaScript)" ^ nl
  ^ "print(" ^ dq ^ "Tool invoked with args: " ^ dq ^ " + JSON.stringify(args));" ^ nl
  ^ "return " ^ dq ^ "Execution Complete" ^ dq ^ ";".

(** The node under which [createNode] nests: the selected node when it is
    an agent, a router, a system node or a tool, the root otherwise. *)
Definition nestUnder (p : ProjectState) : string * string :=
  match getNode (selectedNodeId p) (nodes p) with
  | Some selected =>
      if eqStr NodeType.AGENT (type selected) || eqStr NodeType.ROUTER (type selected)
         || eqStr NodeType.SYSTEM (type selected) || eqStr NodeType.TOOL (type selected)
      then (id selected, name selected)
      else (rootNodeId p, "Kernel")
  | None => (rootNodeId p, "Kernel")
  end.

(** The node [createNode] builds ([collapsed], a display flag, is not part
    of the record). *)
Definition manualNode (newId parent ty : string) : AetherNode :=
  mkNode newId (Some ty)
    (if String.eqb ty NodeType.AGENT then "New_Agent"
     else if String.eqb ty NodeType.TOOL then "New_Tool" else "New_Memory")
    (Some parent) None (Some "google") (Some "gemini-2.5-flash") None None
    (if String.eqb ty NodeType.TOOL then Some manualCode else None)
    (if String.eqb ty NodeType.TOOL then Some "javascript" else None)
    None.

(** The updater passed to [setActiveProject]. *)
Definition insertSelected (newId : string) (n : AetherNode) (prev : ProjectState)
    : ProjectState :=
  mkProject (rootNodeId prev) (setNode newId n (nodes prev)) newId.

(** [createNode(type)] on the closures of the render [r].  The updater
    reads [prev.nodes]: when the render is simulating and the fork is null,
    it throws while the state is updated, which is [None]. *)
Definition createNode (uuid : nat -> string) (now : nat -> nat) (r : AppState)
    (ty : string) (st : AppState) : option AppState :=
  let '(newId, st1) := drawUuid uuid st in
  let '(parent, parentName) := nestUnder (activeProject r) in
  let n := manualNode newId parent ty in
  let stored :=
    if isSimulating r then
      match simulatedProject st1 with
      | Some sp => Some (snd (setSimulatedProject (Some (insertSelected newId n sp)) st1))
      | None => None
      end
    else Some (snd (setProject (insertSelected newId n (project st1)) st1)) in
  match stored with
  | Some st2 =>
      let st3 := snd (setActiveContextIds (activeContextIds st2 ++ [newId]) st2) in
      Some (snd (addLog now "SYSTEM"
                   ("Created " ^ ty ^ " nested under " ^ parentName ^ " ("
                    ^ (if isSimulating r then "SIM" else "LIVE") ^ ")") st3))
  | None => None
  end.

(** What one message of the history becomes in the chat-completion
    request. *)
Definition mapsTo (m : Message) (c : ChatMessage) : Prop :=
  match role m, toolCalls m with
  | MODEL, Some tcs =>
      exists text wire,
        c = AssistantToolCalls text wire
        /\ map wc_name wire = map call_name tcs
        /\ (text = None <-> msg_content m = EmptyString)
  | TOOL_ROLE, _ =>
      exists i tr, toolResponse m = Some tr /\ c = ToolMessage i (resp_content tr)
  | USER, _ => c = PlainMessage "user" (msg_content m)
  | _, _ => c = PlainMessage "assistant" (msg_content m)
  end.

(** A log line of the terminal, as [addLog] stores it in the session. *)
Definition logLine : Message :=
  mkMessage "7" SYSTEM_ROLE "[ORCHESTRATOR] Constructed TOOL: Get Time" None None None.

(** [call] goes to the runtime executor: it is none of the two
    administrative tools. *)
Definition isDelegated (call : ToolCall) : bool :=
  negb (String.eqb (call_name call) "manage_simulation")
  && negb (String.eqb (call_name call) "manage_node").

(** A backend that requests the batches of [batches], one per phase, and
    then completes with [final]. *)
Definition phases (batches : list (string * list ToolCall)) (final : string)
    : list Outcome :=
  map (fun b => ToolCalls (fst b) (snd b)) batches ++ [Completed final].

(** The backend creates a tool in one phase and starts a simulation in the
    next one. *)
Definition createThenStart : list Outcome :=
  [ ToolCalls EmptyString [mkCall "manage_node" createToolArgs];
    ToolCalls EmptyString [simulationCall "start"];
    Completed "done" ].

(** The state in which the second phase of [createThenStart] runs when the
    turn was sent from [liveState]: the batch of the first phase has written
    the created tool to the live store. *)
Definition grownState : AppState :=
  snd (onToolCall sampleUuid ticking None noRunner upper liveState "1" EmptyString
         [] DEFAULT_PROJECT (keys (nodes DEFAULT_PROJECT))
         [mkCall "manage_node" createToolArgs] liveState).




(** A call that carries its argument object, and a phase of such calls, as
    the loop of [Module Raw] reads them. *)
Definition rawCall (c : ToolCall) : Raw.Call :=
  Raw.mkRaw (call_name c) (Object (call_args c)).

Definition rawOutcome (o : Outcome) : Raw.Outcome :=
  match o with
  | ToolCalls text calls => Raw.ToolCalls text (map rawCall calls)
  | Completed text => Raw.Completed text
  | Failed text error => Raw.Failed text error
  end.

Definition rawEnd (e : TurnEnd * list Dispatch) : Raw.End * list Dispatch :=
  (Raw.Ended (fst e), snd e).

(** The tool runner on argument objects. *)
Definition onObjects (runJs : string -> CallArgs -> list string * (string + string))
    : string -> Args -> list string * (string + string) :=
  fun code a => runJs code (Object a).

(** The arguments a value of [JSON.parse] stands for: [null], or an object
    read at the properties the loop reads (a property that is no string
    reads as absent here); a value of another kind has none of them. *)
Definition argsOf (j : Driver.json) : CallArgs :=
  match j with
  | Driver.JNull => Null
  | Driver.JObj ms =>
      let get k := Driver.asString (Driver.member k ms) in
      Object (mkArgs (get "action") (get "nodeId") (get "parentId") (get "type")
                (get "name") (get "content") (get "code") (get "language")
                (get "toolType"))
  | _ => Object noArgs
  end.

(** [call] makes the handler throw: a [manage_simulation] call without
    argument object. *)
Definition throws (c : Raw.Call) : bool :=
  String.eqb (Raw.raw_name c) "manage_simulation"
  && match Raw.raw_args c with
     | Object _ => false
     | _ => true
     end.

(** The calls of a batch that the loop body gets through: those before the
    first one that throws. *)
Fixpoint answered (calls : list Raw.Call) : list Raw.Call :=
  match calls with
  | [] => []
  | c :: rest => if throws c then [] else c :: answered rest
  end.

(** The names under which the session log holds tool results, in order. *)
Definition resultNames (st : AppState) : list string :=
  flat_map (fun m =>
              match role m, toolResponse m with
              | TOOL_ROLE, Some response => [resp_name response]
              | _, _ => []
              end) (messages st).

(** [call] goes to one of the two administrative branches. *)
Definition isAdministrative (c : Raw.Call) : bool :=
  String.eqb (Raw.raw_name c) "manage_simulation"
  || String.eqb (Raw.raw_name c) "manage_node".

(** [call] is a [manage_simulation] commit. *)
Definition isRawCommit (c : Raw.Call) : bool :=
  String.eqb (Raw.raw_name c) "manage_simulation"
  && match Raw.raw_args c with
     | Object a => eqStr "commit" (action a)
     | _ => false
     end.

(** A phase that requests administrative calls only, none of them a
    commit. *)
Definition sandboxed (o : Raw.Outcome) : bool :=
  match o with
  | Raw.ToolCalls _ calls =>
      forallb (fun c => isAdministrative c && negb (isRawCommit c)) calls
  | _ => true
  end.

(** The tool runner of the examples, on arguments as delivered. *)
Definition noRawRunner : string -> CallArgs -> list string * (string + string) :=
  fun _ _ => ([], inl "ok").

(** A batch whose second call comes without argument object, as the
    universal driver delivers it for the argument text [null]. *)
Definition nullBatch : list Raw.Call :=
  [ Raw.mkRaw "manage_node" (Object createToolArgs);
    Raw.mkRaw "manage_simulation" Null;
    Raw.mkRaw "Get_Time" (Object noArgs) ].

Definition nullTurn : list Raw.Outcome :=
  [ Raw.ToolCalls EmptyString nullBatch; Raw.Completed "done" ].

(** The stream event of a [manage_simulation] call whose argument text is
    [null]. *)
Definition nullEvent : string :=
  eventLine ("{" ^ quoted "index" ^ ":0,"
             ^ quoted "function" ^ ":{" ^ quoted "name" ^ ":"
             ^ quoted "manage_simulation" ^ ","
             ^ quoted "arguments" ^ ":" ^ quoted "null" ^ "}}").

(** [call] names a tool that [p] does not define: it goes to the runtime
    executor, which finds no node for it and runs nothing. *)
Definition isUnknown (p : ProjectState) (call : ToolCall) : bool :=
  isDelegated call
  && match findTarget p (call_name call) with
     | None => true
     | Some _ => false
     end.

(** ** Facts about the node store *)

Lemma getNode_setNode_same k n ns : getNode k (setNode k n ns) = Some n.
Proof.
  induction ns as [|[k' n'] r IH]; simpl.
  - now rewrite String.eqb_refl.
  - destruct (String.eqb k' k) eqn:E; simpl; rewrite E; auto.
Qed.


Lemma getNode_In k n ns : getNode k ns = Some n -> In (k, n) ns.
Proof.
  induction ns as [|[k' n'] r IH]; simpl; [discriminate|].
  destruct (String.eqb k' k) eqn:E.
  - apply String.eqb_eq in E. intros [= ->]. subst. now left.
  - intros H. right. auto.
Qed.

Lemma truthy_false x : truthy x = false <-> x = None \/ x = Some EmptyString.
Proof.
  destruct x as [[|c s]|]; simpl; split; intros H; auto; try discriminate.
  destruct H as [H|H]; discriminate.
Qed.

(** ** Simulation manager *)

Section SimulationFacts.

Variable uuid : nat -> string.
Variable now : nat -> nat.
Variable stackDepth : nat.
Variable electron : option (string -> string + string).
Variable runJs : string -> Args -> list string * (string + string).
Variable toUpperCase : string -> string.

Lemma addLog_project source text st :
  project (snd (addLog now source text st)) = project st
  /\ simulatedProject (snd (addLog now source text st)) = simulatedProject st
  /\ isSimulating (snd (addLog now source text st)) = isSimulating st
  /\ saved (snd (addLog now source text st)) = saved st.
Proof. repeat split. Qed.

(** When the running render saw no fork ([simulatedProject] is null in
    its closures), [commitSimulation] does nothing at all, and
    [abortSimulation] leaves the live store and its persisted copy as they
    are; the same holds when they are reached through a
    [manage_simulation] tool call, and the save effect that follows writes
    the same live store back. *)
Lemma commit_abort_without_fork (r st : AppState) :
  simulatedProject r = None ->
  commitSimulation now r st = (tt, st)
  /\ project (snd (abortSimulation now st)) = project st
  /\ saved (snd (abortSimulation now st)) = saved st
  /\ (forall a l, a = "commit" \/ a = "abort" ->
        project (snd (manageSimulation now r (call_args (simulationCall a)) l st))
        = project st)
  /\ saved (saveProjectEffect (snd (abortSimulation now st))) = Some (project st).
Proof.
  intros Hr. unfold commitSimulation. rewrite Hr.
  repeat split.
  intros a l [-> | ->]; unfold manageSimulation, commitSimulation; simpl;
    try rewrite Hr; reflexivity.
Qed.



End SimulationFacts.


(** The stale fork as a whole turn: sent from [liveState], the turn
    [createThenStart] ends with the created tool in the live store and a fork
    that does not hold it, while the simulation is marked active. *)
Lemma start_after_create_forks_a_stale_store :
  let out := processChatTurn sampleUuid ticking 64 None noRunner upper liveState
               createThenStart [] None None liveState in
  fst (fst out) = EndCompleted
  /\ getNode "node0" (nodes (project grownState)) <> None
  /\ getNode "node0" (nodes (project (snd out))) <> None
  /\ simulatedProject (snd out) = Some DEFAULT_PROJECT
  /\ getNode "node0" (nodes DEFAULT_PROJECT) = None
  /\ isSimulating (snd out) = true.
Proof. vm_compute. repeat split; discriminate. Qed.

(** ** Orchestration loop *)

Section LoopFacts.

Variable uuid : nat -> string.
Variable now : nat -> nat.
Variable stackDepth : nat.
Variable electron : option (string -> string + string).
Variable runJs : string -> Args -> list string * (string + string).
Variable toUpperCase : string -> string.

(** The update branch on an existing node stores [updatedNode]. *)
Lemma manageNode_update (args : Args) (l : Locals) (st : AppState) (node : AetherNode) :
  action args = Some "update" ->
  getNode (show (nodeId args)) (nodes (nextProject l)) = Some node ->
  let out := manageNode uuid now args l st in
  nodes (nextProject (fst (fst out)))
  = setNode (show (nodeId args)) (updatedNode node args) (nodes (nextProject l))
  /\ snd (fst out) = "Success. Node " ^ show (nodeId args) ^ " updated."
  /\ modified (fst (fst out)) = true.
Proof.
  intros Ha Hn. unfold manageNode. rewrite Ha. simpl. rewrite Hn. simpl.
  repeat split.
Qed.

(** C10.  A [manage_node] update on an existing node: an empty (or absent)
    [code] keeps the node's code, an empty (or absent) [name] keeps its
    name, an empty [content] overwrites both [systemInstruction] and
    [memoryContent]; and whatever the arguments, a non-empty name stays
    non-empty and a non-empty code stays non-empty. *)
Theorem C10_update_fallbacks (args : Args) (l : Locals) (st : AppState)
    (node : AetherNode) :
  action args = Some "update" ->
  getNode (show (nodeId args)) (nodes (nextProject l)) = Some node ->
  exists node',
    getNode (show (nodeId args))
      (nodes (nextProject (fst (fst (manageNode uuid now args l st)))))
    = Some node'
    /\ (a_code args = Some EmptyString \/ a_code args = None ->
        code node' = code node)
    /\ (a_name args = Some EmptyString \/ a_name args = None ->
        name node' = name node)
    /\ (content args = Some EmptyString ->
        systemInstruction node' = Some EmptyString
        /\ memoryContent node' = Some EmptyString)
    /\ (name node <> EmptyString -> name node' <> EmptyString)
    /\ (truthy (code node) = true -> truthy (code node') = true).
Proof.
  intros Ha Hn.
  destruct (manageNode_update args l st node Ha Hn) as (Hnodes & _ & _).
  exists (updatedNode node args). rewrite Hnodes, getNode_setNode_same.
  split; [reflexivity|]. unfold updatedNode; simpl.
  split; [|split; [|split; [|split]]].
  - intros [H | H]; unfold orOpt; rewrite H; reflexivity.
  - intros [H | H]; rewrite H; reflexivity.
  - intros H. rewrite H. split; reflexivity.
  - intros Hne. destruct (a_name args) as [[|c s]|]; simpl; auto; discriminate.
  - intros Ht. unfold orOpt. destruct (truthy (a_code args)) eqn:E; auto.
Qed.

(** *** One result per call, in request order *)

Lemma manageSimulation_history (r : AppState) args l st :
  newHistory (fst (fst (manageSimulation now r args l st))) = newHistory l.
Proof.
  unfold manageSimulation.
  destruct (eqStr "start" (action args)); [reflexivity|].
  destruct (eqStr "commit" (action args)).
  - unfold commitSimulation. destruct (simulatedProject r); reflexivity.
  - destruct (eqStr "abort" (action args)); reflexivity.
Qed.

Lemma manageNode_history args l st :
  newHistory (fst (fst (manageNode uuid now args l st))) = newHistory l.
Proof.
  unfold manageNode.
  destruct (eqStr "create" (action args)).
  { unfold bind; simpl.
    destruct (getNode _ (nodes (nextProject l))); reflexivity. }
  destruct (eqStr "update" (action args)).
  { destruct (getNode _ (nodes (nextProject l))); reflexivity. }
  destruct (eqStr "delete" (action args)).
  { destruct (getNode _ (nodes (nextProject l))); reflexivity. }
  reflexivity.
Qed.

Lemma runtimeExecutor_locals call l st :
  fst (fst (runtimeExecutor now electron runJs toUpperCase call l st)) = l.
Proof.
  unfold runtimeExecutor.
  destruct (findTarget (nextProject l) (call_name call)) as [target|];
    [|reflexivity].
  unfold bind at 1. simpl.
  destruct (eqStr "python" (language target)).
  - destruct electron as [runScript|]; [|reflexivity].
    destruct (runScript _); reflexivity.
  - destruct (runJs _ _) as [printed outcome].
    unfold bind at 1.
    match goal with |- context [fold_right ?f ?a ?b ?c] =>
      destruct (fold_right f a b c) as [u st'] end.
    destruct outcome; reflexivity.
Qed.

Lemma handleCall_history (r : AppState) call l st :
  exists m,
    newHistory (fst (handleCall uuid now electron runJs toUpperCase r call l st))
    = newHistory l ++ [m]
    /\ answers call m.
Proof.
  unfold handleCall. unfold bind at 1.
  match goal with |- context [let '(a, st') := ?c st in _] =>
    assert (Hh : newHistory (fst (fst (c st))) = newHistory l);
    [|destruct (c st) as [[l1 result] st1]] end.
  { destruct (String.eqb (call_name call) "manage_simulation");
      [apply manageSimulation_history|].
    destruct (String.eqb (call_name call) "manage_node");
      [apply manageNode_history|].
    now rewrite runtimeExecutor_locals. }
  simpl in Hh. eexists. split.
  - unfold bind; simpl. rewrite Hh. reflexivity.
  - repeat split. simpl. eauto.
Qed.

Lemma handleCalls_history (r : AppState) calls :
  forall l st,
  exists results,
    newHistory (fst (handleCalls uuid now electron runJs toUpperCase r calls l st))
    = newHistory l ++ results
    /\ Forall2 answers calls results.
Proof.
  induction calls as [|c rest IH]; intros l st; simpl.
  - exists []. split; [now rewrite app_nil_r | constructor].
  - unfold bind.
    destruct (handleCall_history r c l st) as (m & Hm & Ham).
    destruct (handleCall uuid now electron runJs toUpperCase r c l st)
      as [l1 st1]. simpl in Hm.
    destruct (IH l1 st1) as (results & Hr & Hall).
    exists (m :: results). split.
    + rewrite Hr, Hm, <- app_assoc. reflexivity.
    + constructor; assumption.
Qed.

Lemma bind_eq {A B : Type} (c : M A) (k : A -> M B) st :
  bind c k st = k (fst (c st)) (snd (c st)).
Proof. unfold bind. destruct (c st). reflexivity. Qed.

(** The history of the first request of a turn is the history it was
    called with. *)
Lemma processChatTurn_first_dispatch (r : AppState) script history filter override st :
  forall d ds,
  snd (fst (processChatTurn uuid now stackDepth electron runJs toUpperCase
              r script history filter override st)) = d :: ds ->
  snd d = history.
Proof.
  intros d ds.
  destruct script as [|o rest]; cbn [processChatTurn]; rewrite !bind_eq;
  destruct (getNode _ _); try (rewrite !bind_eq; simpl; discriminate);
  destruct (collectContext _ _ _); try (rewrite !bind_eq; simpl; discriminate).
  - simpl. intros [= <- _]. reflexivity.
  - destruct o; rewrite !bind_eq; cbn [ret fst snd]; intros [= <- _]; reflexivity.
Qed.

Lemma answers_names calls results :
  Forall2 answers calls results ->
  List.length results = List.length calls
  /\ map (fun m => option_map resp_name (toolResponse m)) results
     = map (fun c => Some (call_name c)) calls.
Proof.
  induction 1 as [|c m cs ms (_ & _ & res & Hres) _ [IHl IHm]]; simpl.
  - split; reflexivity.
  - rewrite Hres, IHl, IHm. split; reflexivity.
Qed.

Lemma onToolCall_history (r : AppState) aiMsgId text currentHistory
    runtimeProject stack calls st :
  exists modelMsg results,
    newHistory (fst (onToolCall uuid now electron runJs toUpperCase r aiMsgId
                       text currentHistory runtimeProject stack calls st))
    = currentHistory ++ [modelMsg] ++ results
    /\ role modelMsg = MODEL
    /\ toolCalls modelMsg = Some calls
    /\ Forall2 answers calls results.
Proof.
  unfold onToolCall. rewrite !bind_eq.
  match goal with |- context [handleCalls _ _ _ _ _ r calls ?l0 ?s0] =>
    destruct (handleCalls_history r calls l0 s0) as (results & Hr & Hall);
    set (l := fst (handleCalls uuid now electron runJs toUpperCase r calls l0 s0)) in *
  end.
  eexists. exists results. split; [|split; [|split]].
  - destruct (modified l && negb (triggeredSimulationChange l));
      rewrite ?bind_eq; cbn [ret fst]; rewrite Hr; cbn [newHistory];
      rewrite <- app_assoc; reflexivity.
  - reflexivity.
  - reflexivity.
  - exact Hall.
Qed.

(** When every call of a batch carries an argument object, the handler
    appends to the history, after the model message that carries the batch,
    exactly one tool-result message per call, successful or not, the i-th
    one under the name of the i-th call; and the request the loop recurses
    with carries exactly that history. *)
Lemma one_result_per_call_with_arguments (r : AppState) (aiMsgId text : string)
    (currentHistory : list Message) (runtimeProject : ProjectState)
    (stack : list string) (calls : list ToolCall) (st : AppState) :
  (exists modelMsg results,
     newHistory (fst (onToolCall uuid now electron runJs toUpperCase r aiMsgId
                        text currentHistory runtimeProject stack calls st))
     = currentHistory ++ [modelMsg] ++ results
     /\ role modelMsg = MODEL
     /\ toolCalls modelMsg = Some calls
     /\ List.length results = List.length calls
     /\ Forall2 answers calls results
     /\ map (fun m => option_map resp_name (toolResponse m)) results
        = map (fun c => Some (call_name c)) calls)
  /\ (forall rest filter override d0 d1 ds,
        snd (fst (processChatTurn uuid now stackDepth electron runJs toUpperCase
                    r (ToolCalls text calls :: rest) currentHistory filter
                    override st)) = d0 :: d1 :: ds ->
        exists modelMsg results,
          snd d0 = currentHistory
          /\ snd d1 = currentHistory ++ [modelMsg] ++ results
          /\ toolCalls modelMsg = Some calls
          /\ List.length results = List.length calls
          /\ Forall2 answers calls results).
Proof.
  split.
  - destruct (onToolCall_history r aiMsgId text currentHistory runtimeProject
                stack calls st) as (m & results & Hh & Hrole & Hcalls & Hall).
    destruct (answers_names _ _ Hall) as [Hlen Hnames].
    exists m, results. repeat split; assumption.
  - intros rest filter override d0 d1 ds.
    cbn [processChatTurn]. rewrite !bind_eq.
    destruct (getNode _ _); [|rewrite !bind_eq; simpl; discriminate].
    destruct (collectContext _ _ _); [|rewrite !bind_eq; simpl; discriminate].
    rewrite !bind_eq. cbn [ret fst snd].
    intros [= <- Htail].
    match type of Htail with
    | context [onToolCall _ _ _ _ _ r ?a ?t ?h ?p ?s ?c ?s0] =>
        destruct (onToolCall_history r a t h p s c s0)
          as (m & results & Hh & Hrole & Hcalls & Hall)
    end.
    apply processChatTurn_first_dispatch in Htail.
    exists m, results. rewrite Htail, Hh.
    destruct (answers_names _ _ Hall) as [Hlen _].
    repeat split; assumption.
Qed.

(** *** Resolution of delegated tool calls *)




(** *** Fork isolation *)

Lemma keepsLive_ret {A : Type} (a : A) : keepsLive (ret a).
Proof. intros st. reflexivity. Qed.

Lemma keepsLive_bind {A B : Type} (c : M A) (k : A -> M B) :
  keepsLive c -> (forall a, keepsLive (k a)) -> keepsLive (bind c k).
Proof.
  intros Hc Hk st. rewrite bind_eq, Hk. apply Hc.
Qed.

Lemma keepsLive_setSimulatedProject v : keepsLive (setSimulatedProject v).
Proof. intros st. reflexivity. Qed.

Lemma keepsLive_setIsSimulating v : keepsLive (setIsSimulating v).
Proof. intros st. reflexivity. Qed.

Lemma keepsLive_setActiveContextIds v : keepsLive (setActiveContextIds v).
Proof. intros st. reflexivity. Qed.

Lemma keepsLive_setIsLoading v : keepsLive (setIsLoading v).
Proof. intros st. reflexivity. Qed.

Lemma keepsLive_updateSessionMessages fn : keepsLive (updateSessionMessages fn).
Proof. intros st. reflexivity. Qed.

Lemma keepsLive_dateNow : keepsLive (dateNow now).
Proof. intros st. reflexivity. Qed.

Lemma keepsLive_drawUuid : keepsLive (drawUuid uuid).
Proof. intros st. reflexivity. Qed.

Lemma keepsLive_addLog source text : keepsLive (addLog now source text).
Proof. intros st. reflexivity. Qed.

Create HintDb live discriminated.
Hint Resolve keepsLive_ret keepsLive_setSimulatedProject keepsLive_setIsSimulating
  keepsLive_setActiveContextIds keepsLive_setIsLoading
  keepsLive_updateSessionMessages keepsLive_dateNow keepsLive_drawUuid
  keepsLive_addLog : live.

Ltac live := repeat (apply keepsLive_bind; [|intros ?]); auto with live.

Lemma keepsLive_startSimulation r : keepsLive (startSimulation now r).
Proof. unfold startSimulation. live. Qed.

Lemma keepsLive_abortSimulation : keepsLive (abortSimulation now).
Proof. unfold abortSimulation. live. Qed.

Lemma keepsLive_manageNode args l : keepsLive (manageNode uuid now args l).
Proof.
  unfold manageNode, operationFailed.
  repeat match goal with
         | |- keepsLive (if ?b then _ else _) => destruct b
         | |- keepsLive (match ?o with Some _ => _ | None => _ end) => destruct o
         | |- keepsLive (bind _ _) => apply keepsLive_bind; [|intros ?]
         end; auto with live.
Qed.

Lemma keepsLive_logLines source (printed : list string) :
  keepsLive (fold_right (fun line k => addLog now source line ;; k) (ret tt) printed).
Proof.
  induction printed as [|line rest IH]; simpl; [auto with live|].
  apply keepsLive_bind; auto with live.
Qed.

Lemma keepsLive_runtimeExecutor call l :
  keepsLive (runtimeExecutor now electron runJs toUpperCase call l).
Proof.
  unfold runtimeExecutor.
  destruct (findTarget _ _) as [target|]; [|live].
  apply keepsLive_bind; [auto with live|intros _].
  destruct (eqStr "python" (language target)).
  - destruct electron as [runScript|]; [|live].
    destruct (runScript _); live.
  - destruct (runJs _ _) as [printed outcome].
    apply keepsLive_bind; [apply keepsLive_logLines|intros _].
    destruct outcome; live.
Qed.

Lemma keepsLive_handleCall r call l :
  isCommit call = false ->
  keepsLive (handleCall uuid now electron runJs toUpperCase r call l).
Proof.
  intros Hc. unfold handleCall.
  apply keepsLive_bind; [|intros ?; live].
  unfold isCommit in Hc.
  destruct (String.eqb (call_name call) "manage_simulation").
  - simpl in Hc. unfold manageSimulation. rewrite Hc.
    destruct (eqStr "start" _); [apply keepsLive_bind;
      [apply keepsLive_startSimulation|intros ?; live]|].
    destruct (eqStr "abort" _); [|live].
    apply keepsLive_bind; [apply keepsLive_abortSimulation|intros ?; live].
  - destruct (String.eqb (call_name call) "manage_node").
    + apply keepsLive_manageNode.
    + apply keepsLive_runtimeExecutor.
Qed.

Lemma keepsLive_handleCalls r calls :
  existsb isCommit calls = false ->
  forall l, keepsLive (handleCalls uuid now electron runJs toUpperCase r calls l).
Proof.
  induction calls as [|c rest IH]; simpl; intros Hc l; [live|].
  apply orb_false_iff in Hc. destruct Hc as [Hc Hrest].
  apply keepsLive_bind; [now apply keepsLive_handleCall|intros l'; auto].
Qed.

(** Within a turn that was started while the simulation was already
    running, and as long as no commit is requested, the loop never writes
    the live store: every write-back goes to the fork. *)
Lemma processChatTurn_keeps_live_when_simulating (r : AppState) script :
  isSimulating r = true ->
  forallb (fun o => negb (commits o)) script = true ->
  forall history filter override,
  keepsLive (processChatTurn uuid now stackDepth electron runJs toUpperCase
               r script history filter override).
Proof.
  intros Hsim. induction script as [|o rest IH]; intros Hc history filter override;
    cbn [processChatTurn];
    (apply keepsLive_bind; [auto with live|intros t]);
    (apply keepsLive_bind; [auto with live|intros _]);
    destruct (getNode _ _); try (unfold onError; live);
    destruct (collectContext _ _ _); try (unfold onError; live).
  simpl in Hc. apply andb_true_iff in Hc. destruct Hc as [Ho Hrest].
  destruct o as [text calls|text|text error]; unfold onChunk, onError.
  - apply negb_true_iff in Ho. simpl in Ho.
    apply keepsLive_bind; [destruct (truthy _); live|intros _].
    apply keepsLive_bind.
    + unfold onToolCall.
      apply keepsLive_bind; [auto with live|intros _].
      apply keepsLive_bind; [now apply keepsLive_handleCalls|intros l].
      apply keepsLive_bind; [|intros _; live].
      destruct (modified l && negb (triggeredSimulationChange l)); [|live].
      unfold setActiveProject. rewrite Hsim. live.
    + intros l. apply keepsLive_bind; [now apply IH|intros e; live].
  - destruct (truthy _); live.
  - destruct (truthy _); live.
Qed.

End LoopFacts.

(** An update of the agent with empty [name], [content] and [code]. *)
Lemma C10_witness :
  exists node',
    getNode "agent_core"
      (nodes (nextProject (fst (fst
         (manageNode sampleUuid ticking emptyCodeUpdate
            (mkLocals DEFAULT_PROJECT [] false false []) liveState)))))
    = Some node'
    /\ name node' = "Orchestrator"
    /\ systemInstruction node' = Some EmptyString.
Proof.
  destruct (C10_update_fallbacks sampleUuid ticking emptyCodeUpdate
              (mkLocals DEFAULT_PROJECT [] false false []) liveState
              (mkNode "agent_core" (Some NodeType.AGENT) "Orchestrator" (Some "root")
                 None (Some "google") (Some "gemini-2.5-flash")
                 (Some "You are the Aether Orchestrator. You manage the lifecycle of nodes and respond to user intent.")
                 None None None None)
              eq_refl eq_refl)
    as (node' & Hget & _ & Hname & Hcontent & _).
  exists node'. split; [exact Hget|]. split.
  - exact (Hname (or_introl eq_refl)).
  - exact (proj1 (Hcontent eq_refl)).
Defined.


(** C1: the isolation the specification asks for is broken by the turn
    that starts the simulation.  The turn runs on the closures of the
    render in which the message was sent, where [isSimulating] is still
    false; a [manage_node] call in a later phase of that turn is therefore
    written back with [setProject].  Here the user sends a message on the
    default project, the backend requests [manage_simulation] start and, in
    the next phase, [manage_node] delete of the root: no commit was ever
    requested, the simulation is active, the fork still holds the root and
    the LIVE store has lost it; a later abort then persists the damaged
    live store.  Requested in one batch, the same two calls leave the live
    store intact. *)
Theorem C1_live_store_written_during_simulation :
  let run script :=
    snd (handleSend sampleUuid ticking 64 None noRunner upper liveState script
           "go" false liveState) in
  let st := run startThenDeleteRoot in
  existsb commits startThenDeleteRoot = false
  /\ isSimulating st = true
  /\ simulatedProject st = Some DEFAULT_PROJECT
  /\ getNode "root" (nodes DEFAULT_PROJECT) <> None
  /\ getNode "root" (nodes (project st)) = None
  /\ project st = withNodes DEFAULT_PROJECT (deleteNode "root" (nodes DEFAULT_PROJECT))
  /\ saved (saveProjectEffect st) = Some DEFAULT_PROJECT
  /\ saved (saveProjectEffect (snd (abortSimulation ticking st)))
     = Some (withNodes DEFAULT_PROJECT (deleteNode "root" (nodes DEFAULT_PROJECT)))
  /\ project (run startAndDeleteRoot) = DEFAULT_PROJECT
  /\ simulatedProject (run startAndDeleteRoot) = Some DEFAULT_PROJECT.
Proof.
  vm_compute. repeat split; try reflexivity; discriminate.
Qed.

(** ** Universal delta driver: accumulation of tool-call fragments *)

Lemma append_empty_r (s : string) : s ^ EmptyString = s.
Proof. induction s as [|c r IH]; simpl; [reflexivity | now rewrite IH]. Qed.

Lemma append_assoc (a b c : string) : (a ^ b) ^ c = a ^ (b ^ c).
Proof. induction a as [|x r IH]; simpl; [reflexivity | now rewrite IH]. Qed.

Lemma bufGet_bufSet_same i e b : bufGet i (bufSet i e b) = Some e.
Proof.
  induction b as [|[j e'] r IH]; simpl.
  - now rewrite Nat.eqb_refl.
  - destruct (Nat.eqb j i) eqn:E; simpl.
    + now rewrite E.
    + destruct (Nat.ltb i j); simpl.
      * now rewrite Nat.eqb_refl.
      * now rewrite E.
Qed.

Lemma bufGet_bufSet_other i j e b : i <> j -> bufGet j (bufSet i e b) = bufGet j b.
Proof.
  intros Hne. induction b as [|[k e'] r IH]; simpl.
  - destruct (Nat.eqb i j) eqn:E; [apply Nat.eqb_eq in E; contradiction | reflexivity].
  - destruct (Nat.eqb k i) eqn:E; simpl.
    + apply Nat.eqb_eq in E. subst k.
      destruct (Nat.eqb i j) eqn:E'; [apply Nat.eqb_eq in E'; contradiction | reflexivity].
    + destruct (Nat.ltb i k); simpl.
      * destruct (Nat.eqb i j) eqn:E';
          [apply Nat.eqb_eq in E'; contradiction | reflexivity].
      * now rewrite IH.
Qed.



Lemma splitLines_nonempty s : splitLines s <> [].
Proof.
  destruct s as [|c r]; simpl; [discriminate|].
  destruct (Ascii.eqb c (ascii_of_nat 10)); [discriminate|].
  destruct (splitLines r); discriminate.
Qed.

(** Cutting a text in two chunks does not change its lines: the last,
    incomplete line of the first chunk is continued by the second. *)
Lemma splitLines_append s1 s2 :
  splitLines (s1 ^ s2)
  = removelast (splitLines s1) ++ splitLines (last (splitLines s1) EmptyString ^ s2).
Proof.
  induction s1 as [|c r IH]; [reflexivity|].
  cbn [String.append splitLines].
  destruct (Ascii.eqb c (ascii_of_nat 10)) eqn:E.
  - rewrite IH. pose proof (splitLines_nonempty r) as Hne.
    destruct (splitLines r) as [|l ls]; [contradiction|]. reflexivity.
  - rewrite IH. pose proof (splitLines_nonempty r) as Hne.
    destruct (splitLines r) as [|l [|x ls]]; [contradiction| |].
    + cbn [removelast last app String.append splitLines]. rewrite E.
      reflexivity.
    + reflexivity.
Qed.

Lemma last_app_nonempty {A : Type} (l1 l2 : list A) d :
  l2 <> [] -> last (l1 ++ l2) d = last l2 d.
Proof.
  intros Hne. induction l1 as [|a r IH]; [reflexivity|].
  simpl. rewrite IH. destruct (r ++ l2) eqn:E; [|reflexivity].
  apply app_eq_nil in E. destruct E as [_ E]. contradiction.
Qed.

Section StreamFacts.

Variable J : Type.
Variable JSON_parse : string -> option J.
Variable decode : string -> option Delta.

Lemma processLine_effect (out : list (Event J)) (b : Buffer) (line : string) :
  processLine J decode (out, b) line
  = (out ++ lineChunks J decode line,
     fold_left applyFragment (lineFragments decode line) b).
Proof.
  unfold processLine, lineChunks, lineFragments, lineDelta.
  destruct (String.eqb (trim line) EmptyString || String.eqb (trim line) "data: [DONE]");
    [now rewrite app_nil_r|].
  destruct (String.prefix "data: " line); [|now rewrite app_nil_r].
  destruct (decode (slice 6 line)) as [d|]; [|now rewrite app_nil_r].
  unfold applyDelta.
  destruct (truthy (delta_content d)); destruct (delta_tool_calls d);
    now rewrite ?app_nil_r.
Qed.

Lemma processLines_effect (lines : list string) :
  forall out b,
  fold_left (processLine J decode) lines (out, b)
  = (out ++ flat_map (lineChunks J decode) lines,
     fold_left applyFragment (flat_map (lineFragments decode) lines) b).
Proof.
  induction lines as [|line rest IH]; intros out b; simpl.
  - now rewrite app_nil_r.
  - rewrite processLine_effect, IH, fold_left_app, app_assoc. reflexivity.
Qed.

Lemma readStream_from (chunks : list string) :
  forall text init,
  fold_left (processChunk J decode) chunks
    (last (splitLines text) EmptyString,
     fold_left (processLine J decode) (removelast (splitLines text)) init)
  = (last (splitLines (text ^ concatStr chunks)) EmptyString,
     fold_left (processLine J decode)
       (removelast (splitLines (text ^ concatStr chunks))) init).
Proof.
  induction chunks as [|value rest IH]; intros text init; simpl.
  - now rewrite append_empty_r.
  - rewrite <- append_assoc, <- IH. f_equal.
    rewrite (splitLines_append text value).
    rewrite last_app_nonempty by apply splitLines_nonempty.
    rewrite removelast_app by apply splitLines_nonempty.
    now rewrite fold_left_app.
Qed.

(** The stream loop processes the complete lines of the whole stream, in
    order, however the text was cut into chunks. *)
Lemma readStream_lines (chunks : list string) :
  snd (readStream J decode chunks)
  = (flat_map (lineChunks J decode) (streamLines chunks),
     fold_left applyFragment
       (flat_map (lineFragments decode) (streamLines chunks)) []).
Proof.
  unfold readStream, streamLines.
  change (EmptyString, (@nil (Event J), @nil (nat * Pending)))
    with (last (splitLines EmptyString) EmptyString,
          fold_left (processLine J decode) (removelast (splitLines EmptyString))
            (@nil (Event J), @nil (nat * Pending))).
  rewrite readStream_from. simpl. apply processLines_effect.
Qed.



End StreamFacts.



(** ** Structural invariant *)

Lemma nodupb_NoDup (l : list string) : nodupb l = true <-> NoDup l.
Proof.
  induction l as [|x r IH]; simpl.
  - split; [constructor | reflexivity].
  - rewrite andb_true_iff, negb_true_iff, IH. split.
    + intros [Hx Hr]. constructor; [|assumption].
      intros Hin. assert (existsb (String.eqb x) r = true) as E.
      { apply existsb_exists. exists x. split; [assumption | apply String.eqb_refl]. }
      congruence.
    + intros H. inversion H as [|? ? Hx Hr]; subst. split; [|assumption].
      destruct (existsb (String.eqb x) r) eqn:E; [|reflexivity].
      apply existsb_exists in E. destruct E as (y & Hy & Heq).
      apply String.eqb_eq in Heq. subst y. contradiction.
Qed.

Lemma wf_spec (p : ProjectState) : wf p <-> WF p.
Proof.
  unfold wf, wfb. rewrite !andb_true_iff, nodupb_NoDup, !forallb_forall.
  split.
  - intros [[[[[H1 H2] H3] H4] H5] H6]. constructor.
    + exact H1.
    + intros k n Hin. apply String.eqb_eq. exact (H2 (k, n) Hin).
    + destruct (getNode (rootNodeId p) (nodes p)) as [r|]; [|discriminate].
      exists r. split; [reflexivity|]. unfold hasParent in H3.
      destruct (parentId r); [discriminate | reflexivity].
    + intros n Hin Hp. specialize (H4 n Hin). unfold hasParent in H4.
      rewrite Hp in H4. simpl in H4. now apply String.eqb_eq.
    + intros n q Hin Hp. specialize (H5 n Hin). rewrite Hp in H5.
      destruct (getNode q (nodes p)); [discriminate | discriminate].
    + intros k Hin. specialize (H6 k Hin).
      destruct (depthOf _ _ k); [discriminate | discriminate].
  - intros [H1 H2 (r & Hr & Hpr) H4 H5 H6]. repeat split.
    + exact H1.
    + intros [k n] Hin. apply String.eqb_eq. exact (H2 k n Hin).
    + rewrite Hr. unfold hasParent. now rewrite Hpr.
    + intros n Hin. unfold hasParent.
      destruct (parentId n) eqn:E; [reflexivity|]. simpl.
      apply String.eqb_eq. now apply H4.
    + intros n Hin. destruct (parentId n) as [q|] eqn:E; [|reflexivity].
      specialize (H5 n q Hin E). destruct (getNode q (nodes p)); congruence.
    + intros k Hin. specialize (H6 k Hin).
      destruct (depthOf _ _ k); congruence.
Qed.

Lemma getNode_None_keys k ns : getNode k ns = None <-> ~ In k (keys ns).
Proof.
  induction ns as [|[k' n'] r IH]; simpl.
  - tauto.
  - destruct (String.eqb k' k) eqn:E.
    + apply String.eqb_eq in E. split; [discriminate|]. intros H. exfalso. auto.
    + apply String.eqb_neq in E. rewrite IH. tauto.
Qed.

Lemma In_getNode k n ns : NoDup (keys ns) -> In (k, n) ns -> getNode k ns = Some n.
Proof.
  induction ns as [|[k' n'] r IH]; simpl; [tauto|].
  intros Hnd [Heq | Hin].
  - injection Heq as -> ->. now rewrite String.eqb_refl.
  - inversion Hnd as [|? ? Hk Hr]; subst.
    destruct (String.eqb k' k) eqn:E.
    + apply String.eqb_eq in E. subst k'. exfalso. apply Hk.
      change (In (fst (k, n)) (map fst r)). now apply in_map.
    + auto.
Qed.

Lemma getNode_app_l k ns extra n :
  getNode k ns = Some n -> getNode k (ns ++ extra) = Some n.
Proof.
  induction ns as [|[k' n'] r IH]; simpl; [discriminate|].
  destruct (String.eqb k' k); auto.
Qed.

Lemma setNode_fresh k n ns : getNode k ns = None -> setNode k n ns = ns ++ [(k, n)].
Proof.
  induction ns as [|[k' n'] r IH]; simpl; [reflexivity|].
  destruct (String.eqb k' k); [discriminate|]. intros H. now rewrite IH.
Qed.

Lemma depthOf_bound fuel ns : forall k d, depthOf fuel ns k = Some d -> d < fuel.
Proof.
  induction fuel as [|f IH]; simpl; intros k d; [discriminate|].
  destruct (getNode k ns) as [n|]; [|discriminate].
  destruct (parentId n) as [q|].
  - destruct (depthOf f ns q) as [d'|] eqn:E; [|discriminate].
    intros [= <-]. apply IH in E. lia.
  - intros [= <-]. lia.
Qed.

Lemma depthOf_mono fuel ns :
  forall k d fuel', depthOf fuel ns k = Some d -> fuel <= fuel' ->
                    depthOf fuel' ns k = Some d.
Proof.
  induction fuel as [|f IH]; simpl; intros k d fuel'; [discriminate|].
  intros H Hle. destruct fuel' as [|f']; [lia|]. simpl.
  destruct (getNode k ns) as [n|]; [|discriminate].
  destruct (parentId n) as [q|]; [|assumption].
  destruct (depthOf f ns q) as [d'|] eqn:E; [|discriminate].
  rewrite (IH q d' f' E) by lia. assumption.
Qed.

Lemma depthOf_extend fuel ns extra :
  forall k d, depthOf fuel ns k = Some d -> depthOf fuel (ns ++ extra) k = Some d.
Proof.
  induction fuel as [|f IH]; simpl; intros k d; [discriminate|].
  destruct (getNode k ns) as [n|] eqn:En; [|discriminate].
  rewrite (getNode_app_l _ _ extra _ En).
  destruct (parentId n) as [q|]; [|auto].
  destruct (depthOf f ns q) as [d'|] eqn:E; [|discriminate].
  now rewrite (IH q d' E).
Qed.

(** Adding a node under an existing parent, with a fresh identifier, keeps
    the invariant. *)
Lemma WF_add_child (p : ProjectState) (k parent : string) (n : AetherNode) :
  WF p -> getNode k (nodes p) = None -> getNode parent (nodes p) <> None ->
  id n = k -> parentId n = Some parent ->
  WF (withNodes p (setNode k n (nodes p))).
Proof.
  intros [H1 H2 (r & Hr & Hpr) H4 H5 H6] Hfresh Hparent Hid Hpar.
  rewrite setNode_fresh by assumption.
  assert (Hk : ~ In k (keys (nodes p))) by now apply getNode_None_keys.
  constructor; simpl.
  - unfold keys. rewrite map_app. simpl.
    apply NoDup_app; [assumption | repeat constructor; simpl; tauto |].
    intros x Hx [<- | []]. contradiction.
  - intros k0 n0 Hin. apply in_app_or in Hin.
    destruct Hin as [Hin | [[= <- <-] | []]]; auto.
  - exists r. split; [now apply getNode_app_l | assumption].
  - intros n0 Hin Hp0. unfold values in Hin. rewrite map_app in Hin.
    apply in_app_or in Hin. destruct Hin as [Hin | [<- | []]];
      [auto | simpl in *; congruence].
  - intros n0 q Hin Hp0. unfold values in Hin. rewrite map_app in Hin.
    apply in_app_or in Hin. destruct Hin as [Hin | [<- | []]].
    + specialize (H5 n0 q Hin Hp0).
      destruct (getNode q (nodes p)) as [x|] eqn:E; [|congruence].
      now rewrite (getNode_app_l _ _ _ _ E).
    + assert (q = parent) by (simpl in *; congruence). subst q.
      destruct (getNode parent (nodes p)) as [x|] eqn:E; [|congruence].
      now rewrite (getNode_app_l _ _ _ _ E).
  - rewrite length_app. simpl. intros k0 Hin.
    unfold keys in Hin. rewrite map_app in Hin. apply in_app_or in Hin.
    assert (Hold : forall k1, In k1 (keys (nodes p)) ->
              exists d, depthOf (List.length (nodes p)) (nodes p ++ [(k, n)]) k1 = Some d).
    { intros k1 Hk1. specialize (H6 k1 Hk1).
      destruct (depthOf (List.length (nodes p)) (nodes p) k1) as [d|] eqn:E;
        [|congruence].
      exists d. now apply depthOf_extend. }
    destruct Hin as [Hin | [<- | []]].
    + destruct (Hold k0 Hin) as (d & Hd).
      rewrite (depthOf_mono _ _ _ _ (List.length (nodes p) + 1) Hd); [discriminate | lia].
    + replace (List.length (nodes p) + 1) with (S (List.length (nodes p))) by lia.
      simpl.
      assert (Hget : getNode k (nodes p ++ [(k, n)]) = Some n).
      { rewrite <- (setNode_fresh k n (nodes p) Hfresh). apply getNode_setNode_same. }
      rewrite Hget, Hpar.
      assert (Hpk : In parent (keys (nodes p))).
      { destruct (getNode parent (nodes p)) as [x|] eqn:E; [|congruence].
        apply getNode_In in E. change (In (fst (parent, x)) (map fst (nodes p))).
        now apply in_map. }
      destruct (Hold parent Hpk) as (d & Hd). rewrite Hd. discriminate.
Qed.

(** ** Context assembler *)

Section AssemblerFacts.

Variable p : ProjectState.
Variable activeNodeIds : option (list string).

Lemma fold_traverse_None fuel (cs : list AetherNode) :
  fold_left
    (fun r c => match r with
                | Some a => traverse fuel p activeNodeIds (id c) a
                | None => None
                end) cs None = None.
Proof. induction cs as [|c rest IH]; simpl; auto. Qed.

Lemma fold_visit_None fuel (cs : list AetherNode) :
  fold_left
    (fun r c => match r, visitOrder fuel p (id c) with
                | Some l, Some l' => Some (l ++ l')
                | _, _ => None
                end) cs None = None.
Proof. induction cs as [|c rest IH]; simpl; auto. Qed.

(** [traverse] is the fold of [visitStep] over the visit order. *)
Lemma traverse_visitOrder fuel :
  forall k acc,
  traverse fuel p activeNodeIds k acc
  = match visitOrder fuel p k with
    | Some l => Some (fold_left (visitStep p activeNodeIds) l acc)
    | None => None
    end.
Proof.
  induction fuel as [|f IH]; intros k acc; [reflexivity|].
  simpl. destruct (getNode k (nodes p)) as [node|]; [|reflexivity].
  change (if shouldInclude p activeNodeIds k then describe node acc else acc)
    with (fold_left (visitStep p activeNodeIds) [(k, node)] acc).
  generalize [(k, node)] as l0. generalize (childrenOf p k) as cs.
  induction cs as [|c rest IHcs]; intros l0; simpl; [reflexivity|].
  rewrite IH. destruct (visitOrder f p (id c)) as [l'|].
  - rewrite <- fold_left_app. apply IHcs.
  - now rewrite fold_traverse_None, fold_visit_None.
Qed.

Lemma describe_effect (n : AetherNode) (i : string) (t : list Tool) :
  describe n (i, t) = (i ^ concatStr (blocksOf n), t ++ entriesOf n).
Proof.
  unfold describe, blocksOf, entriesOf.
  destruct (isAgentOrRouter n); simpl;
    [now rewrite append_empty_r, app_nil_r|].
  destruct (isTool n); simpl.
  - destruct (isSearch n); now rewrite append_empty_r.
  - destruct (isMemory n); simpl; now rewrite ?append_empty_r, app_nil_r.
Qed.

Lemma concatStr_app (l1 l2 : list string) :
  concatStr (l1 ++ l2) = concatStr l1 ^ concatStr l2.
Proof.
  induction l1 as [|x r IH]; simpl; [reflexivity|].
  now rewrite IH, append_assoc.
Qed.

(** The fold appends, per included node, its block to the instruction and
    its entry to the catalog. *)
Lemma visitSteps_effect (l : list (string * AetherNode)) :
  forall i t,
  fold_left (visitStep p activeNodeIds) l (i, t)
  = (i ^ concatStr (flat_map blocksOf (included p activeNodeIds l)),
     t ++ flat_map entriesOf (included p activeNodeIds l)).
Proof.
  induction l as [|[k n] rest IH]; intros i t; simpl.
  - now rewrite append_empty_r, app_nil_r.
  - cbn [fold_left]. unfold visitStep at 2, included. cbn [fst snd filter].
    destruct (shouldInclude p activeNodeIds k).
    + rewrite describe_effect, IH. unfold included. cbn [map snd flat_map].
      now rewrite concatStr_app, append_assoc, <- app_assoc.
    + apply IH.
Qed.

(** The context is the header and the administrative tools followed by the
    contributions of the visited nodes of the active set. *)
Lemma collectContext_visitOrder fuel (ctx : Context) :
  getNode (rootNodeId p) (nodes p) <> None ->
  collectContext fuel p activeNodeIds = Some ctx <->
  exists l,
    visitOrder fuel p (rootNodeId p) = Some l
    /\ instruction ctx
       = header ^ concatStr (flat_map blocksOf (included p activeNodeIds l))
    /\ tools ctx = systemTools ++ flat_map entriesOf (included p activeNodeIds l).
Proof.
  intros Hroot. unfold collectContext.
  destruct (getNode (rootNodeId p) (nodes p)); [|congruence].
  rewrite traverse_visitOrder.
  destruct (visitOrder fuel p (rootNodeId p)) as [l|].
  - rewrite visitSteps_effect. split.
    + intros [= <-]. exists l. repeat split.
    + intros (l' & [= <-] & Hi & Ht). destruct ctx as [i t]. simpl in *.
      now subst.
  - split; [discriminate|]. intros (l' & H & _). discriminate.
Qed.

Lemma isTool_not_agent (n : AetherNode) : isTool n = true -> isAgentOrRouter n = false.
Proof.
  unfold isTool, isAgentOrRouter, eqStr.
  destruct (type n) as [ty|]; [|discriminate].
  intros H. apply String.eqb_eq in H. subst ty. reflexivity.
Qed.

Lemma declarations_entries (l : list AetherNode) :
  declarations (flat_map entriesOf l) = map customDecl (filter isCustomTool l).
Proof.
  induction l as [|n rest IH]; [reflexivity|].
  simpl. unfold declarations in *. rewrite flat_map_app, IH.
  unfold entriesOf, isCustomTool.
  destruct (isTool n) eqn:Et.
  - rewrite (isTool_not_agent n Et). destruct (isSearch n); reflexivity.
  - simpl. destruct (isAgentOrRouter n); reflexivity.
Qed.

Lemma searchEntries_entries (l : list AetherNode) :
  searchEntries (flat_map entriesOf l) = countIf isSearchTool l.
Proof.
  induction l as [|n rest IH]; [reflexivity|].
  unfold searchEntries, countIf in *. simpl. rewrite filter_app, length_app, IH.
  unfold entriesOf, isSearchTool.
  destruct (isTool n) eqn:Et.
  - rewrite (isTool_not_agent n Et). destruct (isSearch n); reflexivity.
  - simpl. destruct (isAgentOrRouter n); reflexivity.
Qed.

Lemma length_entries (l : list AetherNode) :
  List.length (flat_map entriesOf l) = countIf isTool l.
Proof.
  induction l as [|n rest IH]; [reflexivity|].
  unfold countIf in *. simpl. rewrite length_app, IH. unfold entriesOf.
  destruct (isTool n) eqn:Et.
  - rewrite (isTool_not_agent n Et). destruct (isSearch n); reflexivity.
  - simpl. destruct (isAgentOrRouter n); reflexivity.
Qed.

Lemma length_blocks (l : list AetherNode) :
  List.length (flat_map blocksOf l) = countIf isLabeled l.
Proof.
  induction l as [|n rest IH]; [reflexivity|].
  unfold countIf in *. simpl. rewrite length_app, IH. unfold blocksOf, isLabeled.
  destruct (isAgentOrRouter n); [reflexivity|].
  destruct (isTool n); [reflexivity|].
  destruct (isMemory n); reflexivity.
Qed.

End AssemblerFacts.

(** ** The traversal visits every node of a well-formed tree once *)

Lemma map_flat_map {A B C : Type} (f : B -> C) (g : A -> list B) (l : list A) :
  map f (flat_map g l) = flat_map (fun x => map f (g x)) l.
Proof.
  induction l as [|a r IH]; simpl; [reflexivity|].
  now rewrite map_app, IH.
Qed.

(** Lists that are duplicate-free and pairwise disjoint concatenate into a
    duplicate-free list. *)
Lemma NoDup_flat_map {A B : Type} (g : A -> list B) (l : list A) :
  NoDup l ->
  (forall a, In a l -> NoDup (g a)) ->
  (forall a1 a2 x, In a1 l -> In a2 l -> In x (g a1) -> In x (g a2) -> a1 = a2) ->
  NoDup (flat_map g l).
Proof.
  induction l as [|a r IH]; simpl; intros Hnd Heach Hdisj; [constructor|].
  inversion Hnd as [|? ? Ha Hr]; subst.
  apply NoDup_app.
  - apply Heach. now left.
  - apply IH; [assumption | intros; apply Heach; now right |].
    intros a1 a2 x H1 H2. apply Hdisj; now right.
  - intros x Hx Hy. apply in_flat_map in Hy. destruct Hy as (a' & Ha' & Hxa').
    assert (a = a') by (apply (Hdisj a a' x); auto). subst a'. contradiction.
Qed.

Lemma Permutation_filter {A : Type} (f : A -> bool) (l l' : list A) :
  Permutation l l' -> Permutation (filter f l) (filter f l').
Proof.
  induction 1 as [|x l l' _ IH|x y l|l l' l'' _ IH1 _ IH2]; simpl.
  - constructor.
  - destruct (f x); [now constructor | assumption].
  - destruct (f x); destruct (f y); try apply Permutation_refl.
    apply perm_swap.
  - now transitivity (filter f l').
Qed.

Section TreeFacts.

Variable p : ProjectState.
Hypothesis HWF : WF p.

Lemma depthOf_step fuel k n q d :
  depthOf fuel (nodes p) k = Some d ->
  getNode k (nodes p) = Some n -> parentId n = Some q ->
  exists d0, depthOf fuel (nodes p) q = Some d0 /\ d = S d0.
Proof.
  intros H Hn Hq. destruct fuel as [|f]; [discriminate|].
  cbn [depthOf] in H. rewrite Hn, Hq in H.
  destruct (depthOf f (nodes p) q) as [d0|] eqn:E; [|discriminate].
  injection H as <-. exists d0. split; [|reflexivity].
  apply (depthOf_mono f); [assumption | lia].
Qed.

Lemma climb_depth j :
  forall k k' d,
  climb (nodes p) j k = Some k' ->
  depthOf (List.length (nodes p)) (nodes p) k = Some d ->
  exists d', depthOf (List.length (nodes p)) (nodes p) k' = Some d' /\ d = d' + j.
Proof.
  induction j as [|j IH]; simpl; intros k k' d Hc Hd.
  - injection Hc as <-. exists d. split; [assumption | lia].
  - destruct (getNode k (nodes p)) as [n|] eqn:Hn; [|discriminate].
    destruct (parentId n) as [q|] eqn:Hq; [|discriminate].
    destruct (depthOf_step _ _ _ _ _ Hd Hn Hq) as (d0 & Hd0 & ->).
    destruct (IH q k' d0 Hc Hd0) as (d' & Hd' & ->).
    exists d'. split; [assumption | lia].
Qed.

(** One more parent link, taken at the top of the path. *)
Lemma climb_top j :
  forall k k'',
  climb (nodes p) (S j) k = Some k'' <->
  exists k' n', climb (nodes p) j k = Some k'
                /\ getNode k' (nodes p) = Some n' /\ parentId n' = Some k''.
Proof.
  induction j as [|j IH]; intros k k''.
  - simpl. split.
    + destruct (getNode k (nodes p)) as [n|] eqn:Hn; [|discriminate].
      destruct (parentId n) as [q|] eqn:Hq; [|discriminate].
      intros [= <-]. exists k, n. auto.
    + intros (k' & n' & [= <-] & Hn & Hq). now rewrite Hn, Hq.
  - change (climb (nodes p) (S (S j)) k)
      with (match getNode k (nodes p) with
            | Some n => match parentId n with
                        | Some q => climb (nodes p) (S j) q
                        | None => None
                        end
            | None => None
            end).
    change (climb (nodes p) (S j) k)
      with (match getNode k (nodes p) with
            | Some n => match parentId n with
                        | Some q => climb (nodes p) j q
                        | None => None
                        end
            | None => None
            end).
    destruct (getNode k (nodes p)) as [n|].
    + destruct (parentId n) as [q|].
      * apply IH.
      * split; [discriminate|]. intros (k' & n' & H & _). discriminate.
    + split; [discriminate|]. intros (k' & n' & H & _). discriminate.
Qed.

(** Every node climbs to the root. *)
Lemma climb_to_root fuel :
  forall k d, depthOf fuel (nodes p) k = Some d ->
              climb (nodes p) d k = Some (rootNodeId p).
Proof.
  induction fuel as [|f IH]; simpl; intros k d; [discriminate|].
  destruct (getNode k (nodes p)) as [n|] eqn:Hn; [|discriminate].
  destruct (parentId n) as [q|] eqn:Hq.
  - destruct (depthOf f (nodes p) q) as [d0|] eqn:E; [|discriminate].
    intros [= <-]. simpl. rewrite Hn, Hq. now apply IH.
  - intros [= <-]. simpl. f_equal.
    apply getNode_In in Hn.
    rewrite <- (wf_ids p HWF k n Hn).
    apply (wf_one_root p HWF); [|assumption].
    change n with (snd (k, n)). now apply in_map.
Qed.

Lemma values_NoDup : NoDup (values (nodes p)).
Proof.
  apply (NoDup_map_inv id). unfold values. rewrite map_map.
  rewrite (map_ext_in _ fst).
  - exact (wf_keys p HWF).
  - intros [k n] Hin. simpl. exact (wf_ids p HWF k n Hin).
Qed.

Lemma child_facts k c :
  In c (childrenOf p k) ->
  getNode (id c) (nodes p) = Some c /\ parentId c = Some k.
Proof.
  unfold childrenOf. rewrite filter_In. intros [Hin Hpar].
  split.
  - unfold values in Hin. apply in_map_iff in Hin.
    destruct Hin as ([kc c'] & Hsnd & Hin). simpl in Hsnd. subst c'.
    rewrite (wf_ids p HWF kc c Hin).
    apply In_getNode; [exact (wf_keys p HWF) | assumption].
  - unfold eqStr in Hpar. destruct (parentId c) as [q|]; [|discriminate].
    apply String.eqb_eq in Hpar. now subst.
Qed.

Lemma child_intro k c kc :
  getNode kc (nodes p) = Some c -> parentId c = Some k -> In c (childrenOf p k).
Proof.
  intros Hn Hpar. unfold childrenOf. apply filter_In. split.
  - apply getNode_In in Hn. change c with (snd (kc, c)). now apply in_map.
  - unfold eqStr. rewrite Hpar. apply String.eqb_refl.
Qed.

Lemma fold_visit_Some fuel (cs : list AetherNode) :
  (forall c, In c cs -> visitOrder fuel p (id c) <> None) ->
  forall l0,
  fold_left
    (fun r c => match r, visitOrder fuel p (id c) with
                | Some l, Some l' => Some (l ++ l')
                | _, _ => None
                end) cs (Some l0)
  = Some (l0 ++ flat_map (fun c => match visitOrder fuel p (id c) with
                                   | Some l => l
                                   | None => []
                                   end) cs).
Proof.
  induction cs as [|c rest IH]; intros Hall l0; simpl.
  - now rewrite app_nil_r.
  - destruct (visitOrder fuel p (id c)) as [l'|] eqn:E.
    + rewrite IH by (intros; apply Hall; now right). now rewrite app_assoc.
    + exfalso. apply (Hall c); [now left | assumption].
Qed.

Lemma key_of_node k n : getNode k (nodes p) = Some n -> In k (keys (nodes p)).
Proof.
  intros H. apply getNode_In in H. change k with (fst (k, n)). now apply in_map.
Qed.

Lemma child_depth k c d :
  In c (childrenOf p k) ->
  depthOf (List.length (nodes p)) (nodes p) k = Some d ->
  depthOf (List.length (nodes p)) (nodes p) (id c) = Some (S d).
Proof.
  intros Hc Hd. destruct (child_facts k c Hc) as [Hgc Hpc].
  destruct (depthOf (List.length (nodes p)) (nodes p) (id c)) as [dc|] eqn:E.
  - destruct (depthOf_step _ _ _ _ _ E Hgc Hpc) as (d0 & Hd0 & ->).
    congruence.
  - exfalso. apply (wf_acyclic p HWF (id c)); [|assumption].
    now apply key_of_node with c.
Qed.

(** With enough stack for the levels below [k], the traversal from [k]
    returns, without repetition, exactly the nodes that climb to [k]. *)
Lemma visitOrder_spec fuel :
  forall k n d,
  getNode k (nodes p) = Some n ->
  depthOf (List.length (nodes p)) (nodes p) k = Some d ->
  List.length (nodes p) <= fuel + d ->
  exists l,
    visitOrder fuel p k = Some l
    /\ NoDup (map fst l)
    /\ forall k' n',
         In (k', n') l <->
         getNode k' (nodes p) = Some n'
         /\ exists j, climb (nodes p) j k' = Some k.
Proof.
  induction fuel as [|f IH]; intros k n d Hn Hd Hlen.
  - apply depthOf_bound in Hd. lia.
  - set (g := fun c => match visitOrder f p (id c) with
                       | Some l => l
                       | None => []
                       end).
    assert (Hchild : forall c, In c (childrenOf p k) ->
              visitOrder f p (id c) = Some (g c)
              /\ NoDup (map fst (g c))
              /\ forall k' n',
                   In (k', n') (g c) <->
                   getNode k' (nodes p) = Some n'
                   /\ exists j, climb (nodes p) j k' = Some (id c)).
    { intros c Hc. destruct (child_facts k c Hc) as [Hgc Hpc].
      pose proof (child_depth k c d Hc Hd) as Hdc.
      destruct (IH (id c) c (S d) Hgc Hdc) as (l & Hl & Hnd & Hmem); [lia|].
      unfold g. rewrite Hl. auto. }
    exists ((k, n) :: flat_map g (childrenOf p k)).
    split; [|split].
    + cbn [visitOrder]. rewrite Hn. rewrite fold_visit_Some; [reflexivity|].
      intros c Hc. destruct (Hchild c Hc) as (Hl & _). congruence.
    + cbn [map fst]. constructor.
      * intros Hin. rewrite map_flat_map in Hin. apply in_flat_map in Hin.
        destruct Hin as (c & Hc & Hin). apply in_map_iff in Hin.
        destruct Hin as ([k0 n0] & Hfst & Hin0). simpl in Hfst. subst k0.
        destruct (Hchild c Hc) as (_ & _ & Hmem).
        apply Hmem in Hin0. destruct Hin0 as [_ (j & Hj)].
        destruct (child_facts k c Hc) as [Hgc Hpc].
        assert (Hcycle : climb (nodes p) (S j) k = Some k).
        { apply climb_top. exists (id c), c. auto. }
        destruct (climb_depth _ _ _ _ Hcycle Hd) as (d' & Hd' & Heq).
        rewrite Hd in Hd'. injection Hd' as <-. lia.
      * rewrite map_flat_map. apply NoDup_flat_map.
        -- apply NoDup_filter, values_NoDup.
        -- intros c Hc. now destruct (Hchild c Hc) as (_ & Hnd & _).
        -- intros c1 c2 x Hc1 Hc2 Hx1 Hx2.
           destruct (Hchild c1 Hc1) as (_ & _ & Hm1).
           destruct (Hchild c2 Hc2) as (_ & _ & Hm2).
           apply in_map_iff in Hx1. destruct Hx1 as ([x1 n1] & E1 & Hin1).
           apply in_map_iff in Hx2. destruct Hx2 as ([x2 n2] & E2 & Hin2).
           simpl in E1, E2. subst x1 x2.
           apply Hm1 in Hin1. destruct Hin1 as [Hgx (j1 & Hj1)].
           apply Hm2 in Hin2. destruct Hin2 as [_ (j2 & Hj2)].
           destruct (depthOf (List.length (nodes p)) (nodes p) x) as [dx|] eqn:Ex;
             [|exfalso; apply (wf_acyclic p HWF x); [now apply key_of_node with n1 | assumption]].
           destruct (climb_depth _ _ _ _ Hj1 Ex) as (d1 & Hd1 & Heq1).
           destruct (climb_depth _ _ _ _ Hj2 Ex) as (d2 & Hd2 & Heq2).
           rewrite (child_depth k c1 d Hc1 Hd) in Hd1.
           rewrite (child_depth k c2 d Hc2 Hd) in Hd2.
           injection Hd1 as <-. injection Hd2 as <-.
           assert (j1 = j2) by lia. subst j2.
           assert (Hid : id c1 = id c2) by congruence.
           destruct (child_facts k c1 Hc1) as [Hg1 _].
           destruct (child_facts k c2 Hc2) as [Hg2 _].
           rewrite Hid in Hg1. congruence.
    + intros k' n'. split.
      * intros [Heq | Hin].
        -- injection Heq as <- <-. split; [assumption | now exists 0].
        -- apply in_flat_map in Hin. destruct Hin as (c & Hc & Hin).
           destruct (Hchild c Hc) as (_ & _ & Hmem).
           apply Hmem in Hin. destruct Hin as [Hg (j & Hj)].
           split; [assumption|]. exists (S j). apply climb_top.
           destruct (child_facts k c Hc) as [Hgc Hpc]. exists (id c), c. auto.
      * intros [Hg (j & Hj)]. destruct j as [|j].
        -- simpl in Hj. injection Hj as ->. left. congruence.
        -- right. apply climb_top in Hj.
           destruct Hj as (kc & nc & Hj & Hgc & Hpc).
           assert (Hc : In nc (childrenOf p k)) by (now apply child_intro with kc).
           assert (Hid : id nc = kc).
           { apply (wf_ids p HWF). now apply getNode_In. }
           apply in_flat_map. exists nc. split; [assumption|].
           destruct (Hchild nc Hc) as (_ & _ & Hmem).
           apply Hmem. split; [assumption|]. exists j. now rewrite Hid.
Qed.

(** From the root, with a stack as deep as the store is large, the
    traversal visits every node of the store exactly once. *)
Lemma visitOrder_root fuel :
  List.length (nodes p) <= fuel ->
  exists l,
    visitOrder fuel p (rootNodeId p) = Some l /\ Permutation l (nodes p).
Proof.
  intros Hfuel. destruct (wf_root p HWF) as (r & Hr & Hpr).
  assert (Hd : depthOf (List.length (nodes p)) (nodes p) (rootNodeId p) = Some 0).
  { destruct (nodes p) as [|x rest] eqn:E; [discriminate|].
    cbn [List.length depthOf]. now rewrite Hr, Hpr. }
  destruct (visitOrder_spec fuel (rootNodeId p) r 0 Hr Hd) as (l & Hl & Hnd & Hmem);
    [lia|].
  exists l. split; [assumption|].
  apply NoDup_Permutation.
  - now apply NoDup_map_inv with (f := fst).
  - apply NoDup_map_inv with (f := fst). exact (wf_keys p HWF).
  - intros [k n]. rewrite Hmem. split.
    + intros [Hg _]. now apply getNode_In.
    + intros Hin. split.
      * apply In_getNode; [exact (wf_keys p HWF) | assumption].
      * assert (Hk : In k (keys (nodes p))).
        { change k with (fst (k, n)). now apply in_map. }
        destruct (depthOf (List.length (nodes p)) (nodes p) k) as [d|] eqn:E;
          [|exfalso; now apply (wf_acyclic p HWF k)].
        exists d. now apply climb_to_root with (List.length (nodes p)).
Qed.

End TreeFacts.

Lemma countIf_Permutation (f : AetherNode -> bool) (l l' : list AetherNode) :
  Permutation l l' -> countIf f l = countIf f l'.
Proof.
  intros H. unfold countIf. apply Permutation_length. now apply Permutation_filter.
Qed.

Lemma included_Permutation p a (l l' : list (string * AetherNode)) :
  Permutation l l' -> Permutation (included p a l) (included p a l').
Proof.
  intros H. unfold included. apply Permutation_map. now apply Permutation_filter.
Qed.

Lemma sanitizeName_length (s : string) :
  String.length (sanitizeName s) = String.length s.
Proof. induction s as [|c r IH]; simpl; [reflexivity | now rewrite <- IH]. Qed.

Lemma sanitizeName_word (s : string) : allChars isWordChar (sanitizeName s) = true.
Proof.
  induction s as [|c r IH]; simpl; [reflexivity|].
  unfold sanitizeName in IH. rewrite IH.
  destruct (isWordChar c) eqn:E; [now rewrite E | reflexivity].
Qed.

Lemma sanitizeName_get (s : string) :
  forall i,
  String.get i (sanitizeName s)
  = option_map (fun c => if isWordChar c then c else "_"%char) (String.get i s).
Proof.
  induction s as [|c r IH]; intros i; simpl; [reflexivity|].
  destruct i as [|i]; [reflexivity | apply IH].
Qed.

(** On a well-formed tree the assembler returns, and what it returns is
    built from a visit order that enumerates the store. *)
Lemma collectContext_wf (p : ProjectState) (activeNodeIds : option (list string))
    (fuel : nat) :
  wf p ->
  List.length (nodes p) <= fuel ->
  exists ctx l,
    collectContext fuel p activeNodeIds = Some ctx
    /\ visitOrder fuel p (rootNodeId p) = Some l
    /\ Permutation l (nodes p).
Proof.
  intros Hwf Hfuel. apply wf_spec in Hwf.
  destruct (visitOrder_root p Hwf fuel Hfuel) as (l & Hl & Hperm).
  exists (mkContext
            (header ^ concatStr (flat_map blocksOf (included p activeNodeIds l)))
            (systemTools ++ flat_map entriesOf (included p activeNodeIds l))), l.
  split; [|split; assumption].
  apply collectContext_visitOrder.
  - destruct (wf_root p Hwf) as (r & Hr & _). congruence.
  - exists l. repeat split. assumption.
Qed.

(** C3 as it stands in the specification fails.  With three search tools
    under a System root and no filter, the catalog has one entry per search
    tool, not one for all of them, next to ONE built-in entry that groups
    the two administrative declarations; and the System root, although in
    the active set, gets no block. *)
Lemma C3_counts_differ :
  exists ctx,
    collectContext 8 searchProject None = Some ctx
    /\ statedCatalogSize searchProject None = 3
    /\ List.length (tools ctx) = 4
    /\ List.length (declarations (tools ctx)) + searchEntries (tools ctx) = 5
    /\ List.length (activeNodes searchProject None) = 4
    /\ instruction ctx
       = header ^ toolBlock (toolNode "s1" "Web" "googleSearch")
         ^ toolBlock (toolNode "s2" "News" "googleSearch")
         ^ toolBlock (toolNode "s3" "Maps" "googleSearch").
Proof. eexists. repeat split. Qed.

(** C3, amended.  On every well-formed node tree, with a call stack at
    least as deep as the store is large, the assembler returns a context
    whose instruction text is the header followed by exactly one labeled
    block per node of the active set of type Agent, Router, Tool or Memory
    (nodes of other types, such as the System root, get none), and whose
    catalog is the single built-in entry, which declares [manage_node] and
    [manage_simulation], followed by one entry per Tool node of the active
    set: a search entry for every search tool and a function declaration
    for every other tool. *)
Theorem C3_catalog_and_blocks (p : ProjectState) (activeNodeIds : option (list string))
    (fuel : nat) :
  wf p ->
  List.length (nodes p) <= fuel ->
  exists ctx blocks,
    collectContext fuel p activeNodeIds = Some ctx
    /\ instruction ctx = header ^ concatStr blocks
    /\ Permutation blocks (flat_map blocksOf (activeNodes p activeNodeIds))
    /\ List.length blocks = countIf isLabeled (activeNodes p activeNodeIds)
    /\ firstn 1 (tools ctx) = systemTools
    /\ List.length (tools ctx) = 1 + countIf isTool (activeNodes p activeNodeIds)
    /\ List.length (declarations (tools ctx))
       = 2 + countIf isCustomTool (activeNodes p activeNodeIds)
    /\ searchEntries (tools ctx) = countIf isSearchTool (activeNodes p activeNodeIds).
Proof.
  intros Hwf Hfuel. apply wf_spec in Hwf.
  destruct (visitOrder_root p Hwf fuel Hfuel) as (l & Hl & Hperm).
  pose proof (included_Permutation p activeNodeIds _ _ Hperm) as Hinc.
  fold (activeNodes p activeNodeIds) in Hinc.
  set (inc := included p activeNodeIds l) in *.
  exists (mkContext (header ^ concatStr (flat_map blocksOf inc))
            (systemTools ++ flat_map entriesOf inc)),
         (flat_map blocksOf inc).
  split; [|split; [|split; [|split; [|split; [|split; [|split]]]]]].
  - apply collectContext_visitOrder.
    + destruct (wf_root p Hwf) as (r & Hr & _). congruence.
    + exists l. repeat split. assumption.
  - reflexivity.
  - now apply Permutation_flat_map.
  - rewrite length_blocks. now apply countIf_Permutation.
  - reflexivity.
  - cbn [tools]. rewrite length_app, length_entries. simpl.
    f_equal. now apply countIf_Permutation.
  - cbn [tools]. unfold declarations. rewrite flat_map_app.
    fold (declarations (flat_map entriesOf inc)).
    rewrite declarations_entries, length_app, length_map. simpl.
    do 2 f_equal. now apply countIf_Permutation.
  - cbn [tools]. unfold searchEntries. rewrite filter_app, length_app. simpl.
    fold (searchEntries (flat_map entriesOf inc)).
    rewrite searchEntries_entries. now apply countIf_Permutation.
Qed.

(** The context of the project with three search tools. *)
Lemma C3_witness :
  wf searchProject
  /\ exists ctx blocks,
       collectContext 4 searchProject None = Some ctx
       /\ instruction ctx = header ^ concatStr blocks
       /\ List.length blocks = 3
       /\ List.length (tools ctx) = 4.
Proof.
  assert (H : wf searchProject) by reflexivity.
  split; [exact H|].
  destruct (C3_catalog_and_blocks searchProject None 4 H (le_n 4))
    as (ctx & blocks & H1 & H2 & _ & H4 & _ & H6 & _).
  exists ctx, blocks. repeat split; assumption.
Defined.

(** C4 as it stands in the specification fails: the characters outside
    the class are not stripped, each is replaced by an underscore.  The
    tool named [Get Time] is offered as [Get_Time], next to the tool that
    is really named [Get_Time]: the two entries collide and both stay. *)
Lemma C4_characters_are_replaced :
  exists ctx,
    collectContext 8 toolsProject None = Some ctx
    /\ map fd_name (declarations (tools ctx))
       = ["manage_node"; "manage_simulation"; "Get_Time"; "Get_Time"]
    /\ stripName "Get Time" = "GetTime"
    /\ sanitizeName "Get Time" <> stripName "Get Time".
Proof. eexists. repeat split. discriminate. Qed.

(** C4, amended.  The function declarations of the catalog are the two
    administrative ones followed by one declaration per visited Tool node
    of the active set that is not a search tool, in visit order and
    without de-duplication; each is named by the node's display name in
    which every character outside [[a-zA-Z0-9_]] is REPLACED by an
    underscore, the others being kept in place.  On a well-formed tree
    every non-search Tool node of the active set has its entry. *)
Theorem C4_catalog_names (p : ProjectState) (activeNodeIds : option (list string)) :
  (forall fuel ctx,
     getNode (rootNodeId p) (nodes p) <> None ->
     collectContext fuel p activeNodeIds = Some ctx ->
     exists l,
       visitOrder fuel p (rootNodeId p) = Some l
       /\ declarations (tools ctx)
          = [manage_node_decl; manage_simulation_decl]
            ++ map customDecl (filter isCustomTool (included p activeNodeIds l)))
  /\ (forall fuel, wf p -> List.length (nodes p) <= fuel ->
      exists ctx custom,
        collectContext fuel p activeNodeIds = Some ctx
        /\ declarations (tools ctx)
           = [manage_node_decl; manage_simulation_decl] ++ custom
        /\ Permutation custom
             (map customDecl (filter isCustomTool (activeNodes p activeNodeIds))))
  /\ (forall n, fd_name (customDecl n) = sanitizeName (name n))
  /\ (forall s,
        String.length (sanitizeName s) = String.length s
        /\ allChars isWordChar (sanitizeName s) = true
        /\ forall i, String.get i (sanitizeName s)
                     = option_map (fun c => if isWordChar c then c else "_"%char)
                         (String.get i s)).
Proof.
  assert (Hdecl : forall fuel ctx,
            getNode (rootNodeId p) (nodes p) <> None ->
            collectContext fuel p activeNodeIds = Some ctx ->
            exists l,
              visitOrder fuel p (rootNodeId p) = Some l
              /\ declarations (tools ctx)
                 = [manage_node_decl; manage_simulation_decl]
                   ++ map customDecl (filter isCustomTool (included p activeNodeIds l))).
  { intros fuel ctx Hroot Hctx.
    apply (collectContext_visitOrder p activeNodeIds fuel ctx Hroot) in Hctx.
    destruct Hctx as (l & Hl & _ & Ht). exists l. split; [assumption|].
    rewrite Ht. unfold declarations. rewrite flat_map_app.
    fold (declarations (flat_map entriesOf (included p activeNodeIds l))).
    now rewrite declarations_entries. }
  split; [exact Hdecl|]. split; [|split].
  - intros fuel Hwf Hfuel.
    destruct (collectContext_wf p activeNodeIds fuel Hwf Hfuel)
      as (ctx & l & Hctx & Hl & Hperm).
    destruct (Hdecl fuel ctx) as (l' & Hl' & Hd); [|assumption|].
    { apply wf_spec in Hwf. destruct (wf_root p Hwf) as (r & Hr & _). congruence. }
    assert (l' = l) by congruence. subst l'.
    exists ctx, (map customDecl (filter isCustomTool (included p activeNodeIds l))).
    split; [assumption|]. split; [assumption|].
    apply Permutation_map, Permutation_filter.
    now apply included_Permutation.
  - reflexivity.
  - intros s. split; [apply sanitizeName_length|].
    split; [apply sanitizeName_word | apply sanitizeName_get].
Qed.

(** The catalog of the project with two function tools. *)
Lemma C4_witness :
  wf toolsProject
  /\ exists ctx custom,
       collectContext 3 toolsProject None = Some ctx
       /\ declarations (tools ctx)
          = [manage_node_decl; manage_simulation_decl] ++ custom
       /\ List.length custom = 2.
Proof.
  assert (H : wf toolsProject) by reflexivity.
  split; [exact H|].
  destruct (proj1 (proj2 (C4_catalog_names toolsProject None)) 3 H (le_n 3))
    as (ctx & custom & H1 & H2 & H3).
  exists ctx, custom. split; [exact H1|]. split; [exact H2|].
  exact (Permutation_length H3).
Defined.

(** C9: a commit with no fork active is not always a no-op.  The guard of
    [commitSimulation] reads [simulatedProject] from the closures of the
    render in which the turn was started.  Here a message is sent while a
    simulation runs whose fork has diverged from the live store; the
    backend requests an abort and, in the next phase, a commit.  After the
    abort no fork is active; the commit nevertheless finds the fork of the
    stale render and writes it over the live store.  Abort itself never
    touches the live store. *)
Theorem C9_commit_after_abort_overwrites_live :
  let run script :=
    snd (handleSend sampleUuid ticking 64 None noRunner upper forkedState script
           "go" false forkedState) in
  let aborted := run [ToolCalls EmptyString [simulationCall "abort"]] in
  simulatedProject aborted = None
  /\ isSimulating aborted = false
  /\ project aborted = DEFAULT_PROJECT
  /\ project (snd (commitSimulation ticking forkedState aborted)) = forkedProject
  /\ project (run abortThenCommit) = forkedProject
  /\ forkedProject <> DEFAULT_PROJECT
  /\ project (snd (abortSimulation ticking aborted)) = project aborted.
Proof.
  vm_compute. repeat split; try reflexivity. discriminate.
Qed.

(** ** Requests built by the engine *)

Lemma mapHistory_app stringify h1 h2 :
  forall st,
  mapHistory stringify st (h1 ++ h2)
  = match mapHistory stringify st h1 with
    | Some st' => mapHistory stringify st' h2
    | None => None
    end.
Proof.
  induction h1 as [|m r IH]; intros st; simpl; [reflexivity|].
  destruct (mapMessage stringify st m); [apply IH | reflexivity].
Qed.

(** Tool results are attached to the last assistant message by name. *)
Lemma mapHistory_results stringify (cs : list ToolCall) (results : list Message) :
  Forall2 answers cs results ->
  forall st,
  exists toolMsgs,
    mapHistory stringify st results
    = Some (mkMapping (mapped st ++ toolMsgs) (lastModelToolCalls st)
              (lastModelMsgId st))
    /\ map toolCallId toolMsgs
       = map (fun c => Some (callId (lastModelMsgId st)
                               (answeredIndex (call_name c) (lastModelToolCalls st))))
           cs.
Proof.
  induction 1 as [|c m cs ms (Hrole & _ & res & Hres) _ IH]; intros st.
  - exists []. simpl. rewrite app_nil_r. destruct st; auto.
  - cbn [mapHistory]. unfold mapMessage. rewrite Hrole, Hres. cbn beta iota.
    match goal with |- context [mapHistory stringify ?s ms] =>
      destruct (IH s) as (toolMsgs & Hm & Hids); rewrite Hm end.
    cbn [mapped lastModelToolCalls lastModelMsgId] in *.
    eexists (_ :: toolMsgs). split.
    + rewrite <- app_assoc. reflexivity.
    + cbn [map toolCallId]. rewrite Hids. reflexivity.
Qed.

Lemma findIndex_bound {A : Type} (f : A -> bool) (l : list A) i x :
  nth_error l i = Some x -> f x = true ->
  exists j, findIndex f l = Some j /\ j <= i.
Proof.
  revert i. induction l as [|a r IH]; intros i Hn Hf; [destruct i; discriminate|].
  simpl. destruct (f a) eqn:E; [exists 0; split; [reflexivity | lia]|].
  destruct i as [|i]; simpl in Hn; [congruence|].
  destruct (IH i Hn Hf) as (j & Hj & Hle). rewrite Hj. exists (S j). simpl.
  split; [reflexivity | lia].
Qed.

Lemma findIndex_nth {A : Type} (f : A -> bool) (l : list A) j :
  findIndex f l = Some j -> exists x, nth_error l j = Some x /\ f x = true.
Proof.
  revert j. induction l as [|a r IH]; intros j; simpl; [discriminate|].
  destruct (f a) eqn:E.
  - intros [= <-]. exists a. auto.
  - destruct (findIndex f r) as [k|]; [|discriminate].
    intros [= <-]. destruct (IH k eq_refl) as (x & Hx & Hf). exists x. auto.
Qed.

Lemma answeredIndex_le (calls : list ToolCall) i c :
  nth_error calls i = Some c -> answeredIndex (call_name c) calls <= i.
Proof.
  intros Hn. unfold answeredIndex.
  destruct (findIndex_bound (fun tc => String.eqb (call_name tc) (call_name c))
              calls i c Hn (String.eqb_refl _)) as (j & Hj & Hle).
  now rewrite Hj.
Qed.

Lemma answeredIndex_first (calls : list ToolCall) i j ci cj :
  i < j -> nth_error calls i = Some ci -> nth_error calls j = Some cj ->
  call_name ci = call_name cj ->
  answeredIndex (call_name cj) calls < j.
Proof.
  intros Hlt Hi Hj Heq. rewrite <- Heq.
  pose proof (answeredIndex_le calls i ci Hi). lia.
Qed.

Lemma answeredIndex_NoDup (calls : list ToolCall) i c :
  NoDup (map call_name calls) -> nth_error calls i = Some c ->
  answeredIndex (call_name c) calls = i.
Proof.
  intros Hnd Hn. unfold answeredIndex.
  destruct (findIndex_bound (fun tc => String.eqb (call_name tc) (call_name c))
              calls i c Hn (String.eqb_refl _)) as (j & Hj & Hle).
  rewrite Hj. destruct (findIndex_nth _ _ _ Hj) as (x & Hx & Hf).
  apply String.eqb_eq in Hf.
  apply (proj1 (NoDup_nth_error (map call_name calls)) Hnd).
  - apply nth_error_Some. rewrite nth_error_map, Hx. discriminate.
  - rewrite !nth_error_map, Hx, Hn. simpl. now rewrite Hf.
Qed.

Lemma mapi_ids (mid : string) (stringify : Args -> string) (calls : list ToolCall) :
  forall k,
  map (fun w => Some (wc_id w))
    (mapi (fun tc i => mkWireCall (callId mid i) (call_name tc)
                         (stringify (call_args tc))) k calls)
  = map (fun i => Some (callId mid i)) (seq k (List.length calls)).
Proof.
  induction calls as [|c r IH]; intros k; simpl; [reflexivity|].
  now rewrite IH.
Qed.

Lemma map_nth_seq {A B : Type} (f : A -> nat -> B) (g : nat -> B) (l : list A) :
  forall k, (forall i x, nth_error l i = Some x -> f x (k + i) = g (k + i)) ->
  mapi f k l = map g (seq k (List.length l)).
Proof.
  induction l as [|a r IH]; intros k H; simpl; [reflexivity|].
  f_equal.
  - specialize (H 0 a eq_refl). now rewrite Nat.add_0_r in H.
  - apply IH. intros i x Hx. specialize (H (S i) x Hx).
    now rewrite Nat.add_succ_r in H.
Qed.

Lemma mapi_map {A B : Type} (f : A -> B) (l : list A) k :
  mapi (fun x _ => f x) k l = map f l.
Proof. revert k. induction l as [|a r IH]; intros k; simpl; [|rewrite IH]; reflexivity. Qed.

(** X1.  In the chat-completion request, the results of a batch are tied to
    the calls of the assistant message by NAME: the result of a call gets
    the identifier of the first call of the batch that has its name.  When
    the names of the batch are pairwise distinct, the i-th result carries
    the identifier of the i-th call; when a name repeats, the result of the
    later call carries the identifier of an earlier one. *)
Theorem universal_results_are_matched_by_name (stringify : Args -> string)
    (systemInstruction : string) (pre : list Message) (modelMsg : Message)
    (calls : list ToolCall) (results : list Message) (prefix : list ChatMessage) :
  universalMessages stringify systemInstruction pre = Some prefix ->
  role modelMsg = MODEL ->
  toolCalls modelMsg = Some calls ->
  Forall2 answers calls results ->
  exists text wire toolMsgs,
    universalMessages stringify systemInstruction (pre ++ modelMsg :: results)
    = Some (prefix ++ AssistantToolCalls text wire :: toolMsgs)
    /\ map (fun w => Some (wc_id w)) wire
       = map (fun i => Some (callId (msg_id modelMsg) i)) (seq 0 (List.length calls))
    /\ map toolCallId toolMsgs
       = map (fun c => Some (callId (msg_id modelMsg)
                               (answeredIndex (call_name c) calls))) calls
    /\ (NoDup (map call_name calls) ->
        map toolCallId toolMsgs = map (fun w => Some (wc_id w)) wire)
    /\ (forall i j ci cj,
          i < j -> nth_error calls i = Some ci -> nth_error calls j = Some cj ->
          call_name ci = call_name cj ->
          answeredIndex (call_name cj) calls < j).
Proof.
  intros Hpre Hrole Hcalls Hans.
  unfold universalMessages in *.
  destruct (mapHistory stringify _ pre) as [st|] eqn:Est; [|discriminate].
  simpl in Hpre. injection Hpre as <-.
  change (pre ++ modelMsg :: results) with (pre ++ ([modelMsg] ++ results)).
  rewrite mapHistory_app, Est. cbn [app mapHistory]. unfold mapMessage at 1.
  rewrite Hrole, Hcalls. cbn beta iota.
  match goal with |- context [mapHistory stringify ?s results] =>
    destruct (mapHistory_results stringify calls results Hans s)
      as (toolMsgs & Hm & Hids); rewrite Hm end.
  cbn [mapped lastModelToolCalls lastModelMsgId option_map] in *.
  eexists _, _, toolMsgs. split; [rewrite <- app_assoc; reflexivity|].
  split; [apply mapi_ids|]. split; [exact Hids|]. split.
  - intros Hnd. rewrite Hids, mapi_ids.
    rewrite <- (mapi_map (fun c => Some (callId (msg_id modelMsg)
                                           (answeredIndex (call_name c) calls))) calls 0).
    apply map_nth_seq.
    intros i c Hn. simpl. now rewrite (answeredIndex_NoDup calls i c Hnd Hn).
  - intros i j ci cj. apply answeredIndex_first.
Qed.

Lemma allSome_map_Some {A B : Type} (f : A -> option B) (l : list A) (r : list B) :
  allSome (map f l) = Some r -> Forall2 (fun x y => f x = Some y) l r.
Proof.
  revert r. induction l as [|a t IH]; intros r; simpl.
  - intros [= <-]. constructor.
  - destruct (f a) as [b|] eqn:E; [|discriminate].
    destruct (allSome (map f t)) as [r'|]; [|discriminate].
    intros [= <-]. constructor; auto.
Qed.

Lemma allSome_map_None {A B : Type} (f : A -> option B) (l : list A) :
  allSome (map f l) = None <-> exists x, In x l /\ f x = None.
Proof.
  induction l as [|a t IH]; simpl.
  - split; [discriminate | intros (x & [] & _)].
  - destruct (f a) as [b|] eqn:E.
    + destruct (allSome (map f t)) as [r'|].
      * split; [discriminate|]. intros (x & [<- | Hin] & Hx); [congruence|].
        assert (Hn : Some r' = None) by (apply IH; eauto). discriminate.
      * split; [|reflexivity]. intros _.
        destruct (proj1 IH eq_refl) as (x & Hin & Hx). eauto.
    + split; [|reflexivity]. intros _. exists a. auto.
Qed.

Lemma allSome_app {A : Type} (l1 l2 : list (option A)) :
  allSome (l1 ++ l2)
  = match allSome l1, allSome l2 with
    | Some a, Some b => Some (a ++ b)
    | _, _ => None
    end.
Proof.
  induction l1 as [|[x|] r IH]; simpl.
  - destruct (allSome l2); reflexivity.
  - rewrite IH. destruct (allSome r); [destruct (allSome l2)|]; reflexivity.
  - reflexivity.
Qed.

Lemma Forall2_In_r {A B : Type} (R : A -> B -> Prop) (l : list A) (r : list B) y :
  Forall2 R l r -> In y r -> exists x, In x l /\ R x y.
Proof.
  induction 1 as [|a b l r Hab _ IH]; simpl; [tauto|].
  intros [<- | Hin]; [eauto|]. destruct (IH Hin) as (x & Hx & Hr). eauto.
Qed.

Lemma googleContent_no_blank_text (m : Message) (c : Content) :
  googleContent m = Some c ->
  existsb isFunctionCallPart (contentParts c) = true ->
  existsb isBlankText (contentParts c) = false.
Proof.
  unfold googleContent.
  assert (Hcalls : forall tcs,
            existsb isBlankText
              (map (fun tc => FunctionCallPart (call_name tc) (call_args tc)) tcs)
            = false).
  { induction tcs as [|tc r IH]; simpl; auto. }
  assert (Hmain : forall o : option Content,
            o = match toolCalls m with
                | Some tcs =>
                    Some (mkContent "model"
                      ((if truthy (Some (msg_content m))
                           && negb (String.eqb (trim (msg_content m)) EmptyString)
                        then [TextPart (msg_content m)] else [])
                       ++ map (fun tc => FunctionCallPart (call_name tc) (call_args tc)) tcs))
                | None =>
                    Some (mkContent (match role m with USER => "user" | _ => "model" end)
                            [TextPart (msg_content m)])
                end ->
            o = Some c ->
            existsb isFunctionCallPart (contentParts c) = true ->
            existsb isBlankText (contentParts c) = false).
  { intros o -> . destruct (toolCalls m) as [tcs|].
    - intros [= <-] _. cbn [contentParts].
      rewrite existsb_app, Hcalls, orb_false_r.
      destruct (String.eqb (trim (msg_content m)) EmptyString) eqn:E;
        destruct (msg_content m); simpl; try reflexivity.
      now rewrite E.
    - intros [= <-]. simpl. discriminate. }
  destruct (role m); try (apply Hmain; reflexivity).
  destruct (toolResponse m); [|discriminate].
  intros [= <-]. simpl. discriminate.
Qed.

(** X2.  Contents of the native request.  The history maps message by
    message and the current turn adds one user entry when there is a
    prompt or an image; the mapping fails exactly when a tool message has
    no response; and an entry that carries function calls never carries a
    blank text part beside them. *)
Theorem googleContents_shape (history : list Message)
    (currentPrompt currentImage : option string) :
  (googleContents history currentPrompt currentImage = None <->
   exists m, In m history /\ role m = TOOL_ROLE /\ toolResponse m = None)
  /\ forall cs,
       googleContents history currentPrompt currentImage = Some cs ->
       List.length cs
       = List.length history
         + (if truthy currentPrompt || truthy currentImage then 1 else 0)
       /\ forall c, In c cs ->
            existsb isFunctionCallPart (contentParts c) = true ->
            existsb isBlankText (contentParts c) = false.
Proof.
  unfold googleContents. split.
  - destruct (allSome (map googleContent history)) as [cs|] eqn:E.
    + split; [discriminate|]. intros (m & Hin & Hr & Ht).
      assert (allSome (map googleContent history) = None) as Hn.
      { apply allSome_map_None. exists m. split; [assumption|].
        unfold googleContent. now rewrite Hr, Ht. }
      congruence.
    + split; [|reflexivity]. intros _.
      apply allSome_map_None in E. destruct E as (m & Hin & Hm).
      exists m. split; [assumption|]. unfold googleContent in Hm.
      destruct (role m); try (destruct (toolCalls m); discriminate).
      destruct (toolResponse m); [discriminate | auto].
  - intros cs. destruct (allSome (map googleContent history)) as [hs|] eqn:E;
      [|discriminate].
    intros [= <-]. apply allSome_map_Some in E. split.
    + rewrite length_app, <- (Forall2_length E). f_equal.
      unfold currentParts.
      destruct (truthy currentPrompt); destruct (truthy currentImage); reflexivity.
    + intros c Hin. apply in_app_or in Hin. destruct Hin as [Hin | Hin].
      * destruct (Forall2_In_r _ _ _ c E Hin) as (m & _ & Hm).
        now apply googleContent_no_blank_text with m.
      * unfold currentParts in Hin.
        destruct (truthy currentPrompt); destruct (truthy currentImage);
          simpl in Hin; try contradiction;
          destruct Hin as [<- | []]; simpl; discriminate.
Qed.

(** X3.  [handleSend] puts the user message into the history AND passes
    its text as the current prompt, so the first request of a turn states
    the prompt twice, on either driver; the recursive requests, whose
    prompt is null, repeat nothing. *)
Theorem first_request_repeats_the_prompt (stringify : Args -> string)
    (systemInstruction : string) (messages0 : list Message) (i input : string)
    (cs : list Content) (ms : list ChatMessage) :
  String.eqb (trim input) EmptyString = false ->
  googleContents messages0 None None = Some cs ->
  universalMessages stringify systemInstruction messages0 = Some ms ->
  let userMsg := mkMessage i USER input None None None in
  googleContents (messages0 ++ [userMsg]) (Some input) None
  = Some (cs ++ [mkContent "user" [TextPart input]; mkContent "user" [TextPart input]])
  /\ universalMessages stringify systemInstruction
       (effectiveHistory (messages0 ++ [userMsg]) (Some input))
     = Some (ms ++ [PlainMessage "user" input; PlainMessage "user" input])
  /\ googleContents (messages0 ++ [userMsg]) None None
     = Some (cs ++ [mkContent "user" [TextPart input]])
  /\ effectiveHistory (messages0 ++ [userMsg]) None = messages0 ++ [userMsg].
Proof.
  intros Hinput Hg Hu userMsg.
  assert (Ht : truthy (Some input) = true).
  { destruct input; [discriminate | reflexivity]. }
  unfold googleContents in *.
  destruct (allSome (map googleContent messages0)) as [hs|] eqn:E; [|discriminate].
  simpl in Hg. rewrite app_nil_r in Hg. injection Hg as <-.
  unfold universalMessages in *.
  destruct (mapHistory stringify _ messages0) as [st|] eqn:Est; [|discriminate].
  simpl in Hu. injection Hu as <-.
  split; [|split; [|split]].
  - rewrite map_app, allSome_app, E. unfold currentParts. rewrite Ht. simpl.
    now rewrite <- app_assoc.
  - unfold effectiveHistory. rewrite Ht.
    rewrite <- app_assoc, mapHistory_app, Est. simpl.
    now rewrite <- app_assoc.
  - rewrite map_app, allSome_app, E. simpl. now rewrite app_nil_r.
  - reflexivity.
Qed.

(** X4.  The native driver forwards every text part at once, in arrival
    order, and holds the function calls back: whatever the interleaving,
    the stream ends in exactly one terminal callback, which is the batch
    of all calls of the stream in arrival order, or completion when there
    was none. *)
Theorem native_stream_demultiplexing (chunks : list Native.StreamChunk) :
  Native.executeGoogleRequest chunks
  = flat_map Native.chunkEvents chunks
    ++ [match flat_map Native.chunkCalls chunks with
        | [] => Native.Complete
        | calls => Native.ToolCallBatch calls
        end]
  /\ existsb Native.isTerminal (flat_map Native.chunkEvents chunks) = false.
Proof.
  assert (Hpart : forall ps out calls,
            fold_left Native.processPart ps (out, calls)
            = (out ++ flat_map Native.partEvents ps,
               calls ++ flat_map (fun part => match Native.part_functionCall part with
                                              | Some fc => [fc]
                                              | None => []
                                              end) ps)).
  { assert (Hone : forall part out calls,
              Native.processPart (out, calls) part
              = (out ++ Native.partEvents part,
                 calls ++ match Native.part_functionCall part with
                          | Some fc => [fc]
                          | None => []
                          end)).
    { intros part out calls. unfold Native.processPart, Native.partEvents.
      destruct (truthy (Native.part_text part));
        destruct (Native.part_functionCall part); now rewrite ?app_nil_r. }
    induction ps as [|part r IH]; intros out calls.
    - simpl. now rewrite !app_nil_r.
    - cbn [fold_left flat_map]. now rewrite Hone, IH, <- !app_assoc. }
  assert (Hchunk : forall c out calls,
            Native.processChunk (out, calls) c
            = (out ++ Native.chunkEvents c, calls ++ Native.chunkCalls c)).
  { intros c out calls. unfold Native.processChunk, Native.chunkEvents, Native.chunkCalls.
    destruct (Native.chunk_parts c) as [|part ps] eqn:E.
    - simpl. destruct (truthy (Native.chunk_text c));
        destruct (Native.chunk_grounding c); simpl;
        now rewrite <- ?app_assoc, ?app_nil_r.
    - rewrite Hpart. destruct (Native.chunk_grounding c); simpl;
        now rewrite <- ?app_assoc, ?app_nil_r. }
  assert (Hall : forall cs out calls,
            fold_left Native.processChunk cs (out, calls)
            = (out ++ flat_map Native.chunkEvents cs,
               calls ++ flat_map Native.chunkCalls cs)).
  { induction cs as [|c r IH]; intros out calls; simpl.
    - now rewrite !app_nil_r.
    - now rewrite Hchunk, IH, <- !app_assoc. }
  split.
  - unfold Native.executeGoogleRequest. rewrite Hall. cbn [app].
    destruct (flat_map Native.chunkCalls chunks); reflexivity.
  - induction chunks as [|c r IH]; [reflexivity|].
    simpl. rewrite existsb_app, IH, orb_false_r.
    unfold Native.chunkEvents. rewrite existsb_app.
    assert (Hp : forall ps, existsb Native.isTerminal (flat_map Native.partEvents ps) = false).
    { induction ps as [|part ps IHp]; [reflexivity|].
      simpl. rewrite existsb_app, IHp. unfold Native.partEvents.
      destruct (truthy (Native.part_text part)); reflexivity. }
    destruct (Native.chunk_parts c); [|rewrite Hp];
      destruct (truthy (Native.chunk_text c));
      destruct (Native.chunk_grounding c); reflexivity.
Qed.

(** X5.  Credentials.  A request is only dispatched with a non-empty
    key; the key of the root node wins over the keys of the environment;
    the local proxy always gets a key; and dispatch is refused, before any
    driver runs, exactly when no source has a key and the provider is not
    the local proxy. *)
Theorem requests_carry_a_credential (nodeKey viteKey processKey provider : option string) :
  (forall route k,
     prepare nodeKey viteKey processKey provider = Dispatched route k ->
     k <> EmptyString /\ route = routeOf provider)
  /\ (truthy nodeKey = true ->
      prepare nodeKey viteKey processKey provider
      = Dispatched (routeOf provider) (show nodeKey))
  /\ (provider = Some "litellm" ->
      exists k, prepare nodeKey viteKey processKey provider
                = Dispatched UniversalDriver k)
  /\ ((exists message,
         prepare nodeKey viteKey processKey provider = MissingKey message) <->
      truthy nodeKey = false /\ truthy viteKey = false
      /\ truthy processKey = false /\ provider <> Some "litellm").
Proof.
  unfold prepare, safeApiKey, orOpt.
  assert (Hlit : eqStr "litellm" provider = true <-> provider = Some "litellm").
  { unfold eqStr. destruct provider as [s|]; [|split; discriminate].
    rewrite String.eqb_eq. split; [now intros -> | now intros [= ->]]. }
  split; [|split; [|split]].
  - intros route k.
    destruct nodeKey as [[|a s]|]; destruct viteKey as [[|b t]|];
      destruct processKey as [[|c u]|]; simpl;
      try (intros [= <- <-]; split; [discriminate | reflexivity]);
      destruct (eqStr "litellm" provider); simpl;
      try discriminate; intros [= <- <-]; split; (discriminate || reflexivity).
  - intros Ht. rewrite Ht. simpl. rewrite Ht. destruct nodeKey; [reflexivity | discriminate].
  - intros ->.
    destruct nodeKey as [[|a s]|]; destruct viteKey as [[|b t]|];
      destruct processKey as [[|c u]|]; simpl; eexists; reflexivity.
  - split.
    + intros (message & H).
      destruct nodeKey as [[|a s]|]; destruct viteKey as [[|b t]|];
        destruct processKey as [[|c u]|]; simpl in *; try discriminate;
        destruct (eqStr "litellm" provider) eqn:E; try discriminate;
        (repeat split; try reflexivity);
        intros ->; discriminate.
    + intros (H1 & H2 & H3 & H4).
      rewrite H1. simpl.
      assert (E : eqStr "litellm" provider = false).
      { apply not_true_is_false. intros E. apply Hlit in E. contradiction. }
      rewrite H2.
      destruct viteKey as [[|b t]|]; destruct processKey as [[|c u]|];
        simpl in *; try discriminate; rewrite E; eexists; reflexivity.
Qed.

(** ** The universal stream as a whole *)

Lemma executeUniversalRequest_lines (J : Type) (JSON_parse : string -> option J)
    (decode : string -> option Delta) (baseUrl : string) (chunks : list string) :
  executeUniversalRequest J JSON_parse decode baseUrl (Body chunks)
  = flat_map (lineChunks J decode) (streamLines chunks)
    ++ [finish J JSON_parse
          (fold_left applyFragment (streamFragments decode chunks) [])].
Proof.
  unfold executeUniversalRequest, streamFragments.
  pose proof (readStream_lines J decode chunks) as H.
  destruct (readStream J decode chunks) as [rest [out b]].
  simpl in H. injection H as -> ->. reflexivity.
Qed.

(** X6.  The events of the universal driver depend on the text of the
    stream only, not on how the network cut it into chunks. *)
Theorem universal_stream_ignores_chunking (J : Type) (JSON_parse : string -> option J)
    (decode : string -> option Delta) (baseUrl : string)
    (chunks chunks' : list string) :
  concatStr chunks = concatStr chunks' ->
  executeUniversalRequest J JSON_parse decode baseUrl (Body chunks)
  = executeUniversalRequest J JSON_parse decode baseUrl (Body chunks').
Proof.
  intros H. rewrite !executeUniversalRequest_lines.
  unfold streamFragments, streamLines. now rewrite H.
Qed.

Lemma splitLines_single (s : string) : noNewline s = true -> splitLines s = [s].
Proof.
  induction s as [|c r IH]; [reflexivity|].
  unfold noNewline. simpl. intros H. apply andb_true_iff in H.
  destruct H as [Hc Hr]. apply negb_true_iff in Hc. rewrite Hc.
  now rewrite (IH Hr).
Qed.

Lemma splitLines_noNewline (s : string) :
  forall l, In l (splitLines s) -> noNewline l = true.
Proof.
  induction s as [|c r IH]; simpl.
  - intros l [<- | []]. reflexivity.
  - destruct (Ascii.eqb c (ascii_of_nat 10)) eqn:E.
    + intros l [<- | Hin]; [reflexivity | auto].
    + pose proof (splitLines_nonempty r) as Hne.
      destruct (splitLines r) as [|x xs]; [contradiction|].
      intros l [<- | Hin].
      * unfold noNewline. simpl. rewrite E. simpl. apply IH. now left.
      * apply IH. now right.
Qed.

Lemma noNewline_append (a b : string) :
  noNewline (a ^ b) = noNewline a && noNewline b.
Proof.
  unfold noNewline. induction a as [|c r IH]; simpl; [reflexivity|].
  now rewrite IH, andb_assoc.
Qed.

Lemma last_In {A : Type} (l : list A) d : l <> [] -> In (last l d) l.
Proof.
  induction l as [|a r IH]; [congruence|]. intros _.
  destruct r as [|b r']; [now left|]. right. apply IH. discriminate.
Qed.

(** A line break ends the line before it. *)
Lemma splitLines_break (a rest : string) :
  splitLines (a ^ nl ^ rest) = splitLines a ++ splitLines rest.
Proof.
  induction a as [|c r IH].
  - reflexivity.
  - cbn [String.append splitLines]. rewrite IH.
    destruct (Ascii.eqb c (ascii_of_nat 10)); [reflexivity|].
    pose proof (splitLines_nonempty r) as Hne.
    destruct (splitLines r) as [|x xs]; [contradiction | reflexivity].
Qed.

(** X7.  Text after the last line break is never processed: a final event
    that is not terminated by a line break is lost, silently. *)
Theorem universal_stream_drops_unterminated_line (J : Type)
    (JSON_parse : string -> option J) (decode : string -> option Delta)
    (baseUrl : string) (chunks : list string) (tail : string) :
  noNewline tail = true ->
  executeUniversalRequest J JSON_parse decode baseUrl (Body (chunks ++ [tail]))
  = executeUniversalRequest J JSON_parse decode baseUrl (Body chunks).
Proof.
  intros Htail. rewrite !executeUniversalRequest_lines.
  assert (Hlines : streamLines (chunks ++ [tail]) = streamLines chunks).
  { unfold streamLines. rewrite concatStr_app. simpl. rewrite append_empty_r.
    rewrite splitLines_append.
    rewrite (splitLines_single (_ ^ tail)).
    - apply removelast_last.
    - rewrite noNewline_append, Htail, andb_true_r.
      apply splitLines_noNewline with (concatStr chunks).
      apply last_In, splitLines_nonempty. }
  unfold streamFragments. now rewrite Hlines.
Qed.

(** X8.  Lines that are no events: a line that is blank, the end
    sentinel, or that does not start with [data: ] (a comment or
    keep-alive line of the event stream) is dropped alone, wherever it
    stands; the events are those of the stream without it.  The payload
    of such a line is never read. *)
Theorem universal_stream_skips_bad_lines (J : Type)
    (JSON_parse : string -> option J) (decode : string -> option Delta)
    (baseUrl : string) (before junk after : string) :
  noNewline junk = true ->
  String.eqb (trim junk) EmptyString = true
  \/ trim junk = "data: [DONE]"
  \/ String.prefix "data: " junk = false ->
  executeUniversalRequest J JSON_parse decode baseUrl
    (Body [before ^ nl; junk ^ nl; after])
  = executeUniversalRequest J JSON_parse decode baseUrl
      (Body [before ^ nl; after]).
Proof.
  intros Hnl Hjunk. rewrite !executeUniversalRequest_lines.
  assert (Hdelta : lineDelta decode junk = None).
  { unfold lineDelta.
    destruct Hjunk as [H | [H | H]].
    - now rewrite H.
    - rewrite H. simpl. reflexivity.
    - destruct (_ || _); [reflexivity|]. now rewrite H. }
  assert (Hlines : streamLines [before ^ nl; junk ^ nl; after]
                   = splitLines before ++ [junk] ++ removelast (splitLines after)
                   /\ streamLines [before ^ nl; after]
                      = splitLines before ++ removelast (splitLines after)).
  { unfold streamLines. simpl. rewrite !append_empty_r.
    rewrite !append_assoc. rewrite !splitLines_break.
    rewrite (splitLines_single junk Hnl).
    pose proof (splitLines_nonempty after) as Hne. split.
    - rewrite app_assoc. rewrite removelast_app by assumption.
      now rewrite <- app_assoc.
    - now rewrite removelast_app by assumption. }
  destruct Hlines as [H1 H2]. unfold streamFragments. rewrite H1, H2.
  rewrite !flat_map_app. simpl.
  unfold lineChunks at 2, lineFragments at 2. rewrite Hdelta. reflexivity.
Qed.

Lemma bufSet_keys i e b :
  forall j, In j (map fst (bufSet i e b)) <-> j = i \/ In j (map fst b).
Proof.
  induction b as [|[k e'] r IH]; intros j; simpl.
  - intuition.
  - destruct (Nat.eqb k i) eqn:E; simpl.
    + apply Nat.eqb_eq in E. subst k. intuition.
    + destruct (Nat.ltb i k); simpl; [intuition|].
      rewrite IH. intuition.
Qed.

Lemma ascending_cons x l :
  ascending (x :: l) = true <->
  (forall y, In y l -> x < y) /\ ascending l = true.
Proof.
  revert x. induction l as [|y r IH]; intros x.
  - simpl. intuition.
  - change (ascending (x :: y :: r)) with (Nat.ltb x y && ascending (y :: r)).
    rewrite andb_true_iff, Nat.ltb_lt. split.
    + intros [Hxy Hr]. split; [|assumption].
      intros z [<- | Hz]; [assumption|].
      apply IH in Hr. destruct Hr as [Hall _]. specialize (Hall z Hz). lia.
    + intros [Hall Hr]. split; [apply Hall; now left | assumption].
Qed.

Lemma bufSet_ascending i e b :
  ascending (map fst b) = true -> ascending (map fst (bufSet i e b)) = true.
Proof.
  induction b as [|[k e'] r IH]; intros H; [reflexivity|].
  simpl in H. apply ascending_cons in H. destruct H as [Hall Hr].
  simpl. destruct (Nat.eqb k i) eqn:E.
  - simpl. apply ascending_cons. auto.
  - destruct (Nat.ltb i k) eqn:L.
    + apply Nat.ltb_lt in L. cbn [map fst]. apply ascending_cons. split.
      * intros y [<- | Hy]; [assumption|]. specialize (Hall y Hy). lia.
      * apply ascending_cons. auto.
    + apply Nat.ltb_ge in L. apply Nat.eqb_neq in E.
      cbn [map fst]. apply ascending_cons. split; [|auto].
      intros y Hy. apply bufSet_keys in Hy. destruct Hy as [-> | Hy]; [lia | auto].
Qed.

Lemma applyFragments_keys (tcs : list ToolCallDelta) :
  forall b,
  ascending (map fst b) = true ->
  ascending (map fst (fold_left applyFragment tcs b)) = true
  /\ forall j, In j (map fst (fold_left applyFragment tcs b)) <->
               In j (map fst b) \/ In j (map tc_index tcs).
Proof.
  induction tcs as [|tc r IH]; intros b Hb; simpl.
  - split; [assumption | intuition].
  - destruct (IH (applyFragment b tc)) as [Hs Hk].
    { unfold applyFragment. now apply bufSet_ascending. }
    split; [assumption|]. intros j. rewrite Hk.
    unfold applyFragment. rewrite bufSet_keys. intuition.
Qed.

Lemma lastTruthy_from (l : list (option string)) :
  forall acc,
  fold_left (fun a x => if truthy x then x else a) l acc
  = match lastTruthy l with
    | Some v => Some v
    | None => acc
    end.
Proof.
  unfold lastTruthy. induction l as [|x r IH]; intros acc; simpl; [reflexivity|].
  rewrite IH. rewrite (IH (if truthy x then x else None)).
  destruct (fold_left _ r None); [reflexivity|].
  destruct (truthy x) eqn:E; [|reflexivity].
  destruct x; [reflexivity | discriminate].
Qed.

Lemma pendingName_applyFragment i b tc :
  pendingName i (applyFragment b tc)
  = if Nat.eqb (tc_index tc) i
    then (if truthy (fragmentName tc) then fragmentName tc else pendingName i b)
    else pendingName i b.
Proof.
  unfold pendingName, applyFragment.
  destruct (Nat.eqb (tc_index tc) i) eqn:E.
  - apply Nat.eqb_eq in E. subst i. rewrite bufGet_bufSet_same.
    unfold fragmentName.
    destruct (bufGet (tc_index tc) b) as [e|];
      destruct (tc_function tc) as [[[[|? ?]|] [[|? ?]|]]|];
      destruct (tc_id tc) as [[|? ?]|]; reflexivity.
  - apply Nat.eqb_neq in E. now rewrite bufGet_bufSet_other.
Qed.

Lemma pendingName_fragments i tcs :
  forall b,
  pendingName i (fold_left applyFragment tcs b)
  = match lastTruthy (map fragmentName (fragmentsOf i tcs)) with
    | Some v => Some v
    | None => pendingName i b
    end.
Proof.
  induction tcs as [|tc r IH]; intros b; simpl; [reflexivity|].
  rewrite IH, pendingName_applyFragment.
  destruct (Nat.eqb (tc_index tc) i); [|reflexivity].
  simpl. unfold lastTruthy at 2. simpl. rewrite lastTruthy_from.
  destruct (lastTruthy (map fragmentName (fragmentsOf i r))); [reflexivity|].
  destruct (truthy (fragmentName tc)) eqn:E; [|reflexivity].
  destruct (fragmentName tc); [reflexivity | discriminate].
Qed.

Lemma flat_map_ext_In {A B : Type} (f g : A -> list B) (l : list A) :
  (forall a, In a l -> f a = g a) -> flat_map f l = flat_map g l.
Proof.
  induction l as [|a r IH]; intros H; simpl; [reflexivity|].
  rewrite (H a (or_introl eq_refl)), IH; [reflexivity|].
  intros x Hx. apply H. now right.
Qed.

(** X9.  The batch of the universal driver has one entry per index that
    occurred in the stream, in ascending order of index whatever the order
    of arrival, and each entry is named by the last non-empty name its
    index received. *)
Theorem universal_batch_is_ordered_by_index (decode : string -> option Delta)
    (chunks : list string) :
  let frags := streamFragments decode chunks in
  let buffer := fold_left applyFragment frags [] in
  ascending (map fst buffer) = true
  /\ (forall i, In i (map fst buffer) <-> In i (map tc_index frags))
  /\ (forall i, pendingName i buffer
                = lastTruthy (map fragmentName (fragmentsOf i frags)))
  /\ forall (J : Type) (JSON_parse : string -> option J),
       finalToolCalls J JSON_parse buffer
       = flat_map (fun ie => match JSON_parse (p_arguments (snd ie)) with
                             | Some args => [(pendingName (fst ie) buffer, args)]
                             | None => []
                             end) buffer.
Proof.
  intros frags buffer.
  destruct (applyFragments_keys frags [] eq_refl) as [Hs Hk].
  fold buffer in Hs, Hk. split; [assumption|]. split; [|split].
  - intros i. rewrite Hk. simpl. intuition.
  - intros i. subst buffer. rewrite pendingName_fragments.
    destruct (lastTruthy _); reflexivity.
  - intros J JSON_parse. unfold finalToolCalls.
    apply flat_map_ext_In. intros [i e] Hin. simpl.
    enough (Hn : pendingName i buffer = p_name e) by now rewrite Hn.
    unfold pendingName.
    assert (Hget : forall b, ascending (map fst b) = true -> In (i, e) b ->
                             bufGet i b = Some e).
    { clear. induction b as [|[k e'] r IH]; [intros _ []|].
      intros Ha [Heq | Hin].
      - injection Heq as -> ->. simpl. now rewrite Nat.eqb_refl.
      - simpl in Ha. apply ascending_cons in Ha. destruct Ha as [Hall Hr].
        simpl. destruct (Nat.eqb k i) eqn:E.
        + apply Nat.eqb_eq in E. subst k. exfalso.
          assert (i < i); [|lia]. apply Hall.
          change i with (fst (i, e)). now apply in_map.
        + auto. }
    now rewrite (Hget buffer Hs Hin).
Qed.

(** A batch of two calls with distinct names, after an empty history. *)
Lemma universal_results_witness :
  exists text wire toolMsgs,
    universalMessages noStringify "sys" ([] ++ batchMessage :: batchResults)
    = Some ([SystemMessage "sys"] ++ AssistantToolCalls text wire :: toolMsgs)
    /\ map toolCallId toolMsgs = map (fun w => Some (wc_id w)) wire.
Proof.
  assert (Hans : Forall2 answers twoCalls batchResults).
  { repeat constructor; eexists; reflexivity. }
  assert (Hnd : NoDup (map call_name twoCalls)).
  { repeat constructor; simpl; intuition discriminate. }
  destruct (universal_results_are_matched_by_name noStringify "sys" [] batchMessage
              twoCalls batchResults [SystemMessage "sys"]
              eq_refl eq_refl eq_refl Hans)
    as (text & wire & toolMsgs & H1 & _ & _ & H4 & _).
  exists text, wire, toolMsgs. split; [exact H1 | exact (H4 Hnd)].
Defined.

(** A history whose tool message has lost its response. *)
Lemma googleContents_witness :
  googleContents [mkMessage "t1" TOOL_ROLE "done" None None None] (Some "go") None
  = None
  /\ forall cs,
       googleContents [batchMessage] (Some "go") None = Some cs ->
       List.length cs = 2.
Proof.
  split.
  - apply (googleContents_shape [mkMessage "t1" TOOL_ROLE "done" None None None]
             (Some "go") None).
    eexists. split; [left; reflexivity|]. split; reflexivity.
  - intros cs H.
    exact (proj1 (proj2 (googleContents_shape [batchMessage] (Some "go") None) cs H)).
Defined.

(** The first request of a conversation. *)
Lemma first_request_witness :
  googleContents ([] ++ [mkMessage "u1" USER "go" None None None]) (Some "go") None
  = Some ([] ++ [mkContent "user" [TextPart "go"]; mkContent "user" [TextPart "go"]])
  /\ universalMessages noStringify "sys"
       (effectiveHistory ([] ++ [mkMessage "u1" USER "go" None None None]) (Some "go"))
     = Some ([SystemMessage "sys"]
             ++ [PlainMessage "user" "go"; PlainMessage "user" "go"]).
Proof.
  destruct (first_request_repeats_the_prompt noStringify "sys" [] "u1" "go" []
              [SystemMessage "sys"] eq_refl eq_refl eq_refl)
    as (H1 & H2 & _).
  split; [exact H1 | exact H2].
Defined.

(** A node key on the local proxy; no key at all on another provider. *)
Lemma requests_carry_a_credential_witness :
  prepare (Some "k") None None (Some "litellm") = Dispatched UniversalDriver "k"
  /\ exists message, prepare None None None (Some "openai") = MissingKey message.
Proof.
  split.
  - exact (proj1 (proj2 (requests_carry_a_credential (Some "k") None None
                           (Some "litellm"))) eq_refl).
  - apply (proj2 (proj2 (proj2 (requests_carry_a_credential None None None
                                  (Some "openai"))))).
    repeat split. discriminate.
Defined.

(** The same text cut in two places. *)
Lemma universal_stream_ignores_chunking_witness :
  executeUniversalRequest nat (fun _ => None) (fun _ => None) "http://h"
    (Body ["data: x" ^ nl; "data: y" ^ nl])
  = executeUniversalRequest nat (fun _ => None) (fun _ => None) "http://h"
      (Body ["da"; "ta: x" ^ nl ^ "data: "; "y" ^ nl]).
Proof.
  apply (universal_stream_ignores_chunking nat (fun _ => None) (fun _ => None)
           "http://h"). reflexivity.
Defined.

(** A stream that ends without a line break. *)
Lemma universal_stream_drops_unterminated_line_witness :
  executeUniversalRequest nat (fun _ => None) (fun _ => None) "http://h"
    (Body (["data: x" ^ nl] ++ ["data: y"]))
  = executeUniversalRequest nat (fun _ => None) (fun _ => None) "http://h"
      (Body ["data: x" ^ nl]).
Proof.
  apply (universal_stream_drops_unterminated_line nat (fun _ => None)
           (fun _ => None) "http://h" ["data: x" ^ nl] "data: y").
  reflexivity.
Defined.

(** A comment line between two events. *)
Lemma universal_stream_skips_bad_lines_witness :
  executeUniversalRequest nat (fun _ => None) (fun _ => None) "http://h"
    (Body ["data: x" ^ nl; ": keep-alive" ^ nl; "data: y"])
  = executeUniversalRequest nat (fun _ => None) (fun _ => None) "http://h"
      (Body ["data: x" ^ nl; "data: y"]).
Proof.
  apply (universal_stream_skips_bad_lines nat (fun _ => None) (fun _ => None)
           "http://h" "data: x" ": keep-alive" "data: y").
  - reflexivity.
  - right. right. reflexivity.
Defined.

(** ** The tool-call handler, branch by branch *)

Lemma unchanged_ret {X A : Type} (f : AppState -> X) (a : A) : unchanged f (ret a).
Proof. intros st. reflexivity. Qed.

Lemma unchanged_bind {X A B : Type} (f : AppState -> X) (c : M A) (k : A -> M B) :
  unchanged f c -> (forall a, unchanged f (k a)) -> unchanged f (bind c k).
Proof. intros Hc Hk st. rewrite bind_eq, Hk. apply Hc. Qed.

Section Unchanged.

Variable uuid : nat -> string.
Variable now : nat -> nat.
Variable electron : option (string -> string + string).
Variable runJs : string -> Args -> list string * (string + string).
Variable toUpperCase : string -> string.

(** A component of the state that the session log and the two counters do
    not touch. *)
Variable X : Type.
Variable f : AppState -> X.
Hypothesis f_messages : forall fn, unchanged f (updateSessionMessages fn).
Hypothesis f_now : unchanged f (dateNow now).
Hypothesis f_uuid : unchanged f (drawUuid uuid).

Lemma unchanged_addLog source text : unchanged f (addLog now source text).
Proof. unfold addLog. apply unchanged_bind; [exact f_now | intros i; apply f_messages]. Qed.

Ltac still :=
  repeat match goal with
         | |- unchanged _ (if ?b then _ else _) => destruct b
         | |- unchanged _ (match ?o with Some _ => _ | None => _ end) => destruct o
         | |- unchanged _ (match ?o with inl _ => _ | inr _ => _ end) => destruct o
         | |- unchanged _ (bind _ _) => apply unchanged_bind; [|intros ?]
         | |- unchanged _ (ret _) => apply unchanged_ret
         | |- unchanged _ (addLog _ _ _) => apply unchanged_addLog
         | |- unchanged _ (drawUuid _) => exact f_uuid
         | |- unchanged _ (dateNow _) => exact f_now
         | |- unchanged _ (updateSessionMessages _) => apply f_messages
         end.

Lemma unchanged_manageNode args l : unchanged f (manageNode uuid now args l).
Proof. unfold manageNode, operationFailed. still. Qed.

Lemma unchanged_logLines source (printed : list string) :
  unchanged f (fold_right (fun line k => addLog now source line ;; k) (ret tt) printed).
Proof.
  induction printed as [|line rest IH]; simpl; [apply unchanged_ret|].
  apply unchanged_bind; [apply unchanged_addLog | intros _; exact IH].
Qed.

Lemma unchanged_runtimeExecutor call l :
  unchanged f (runtimeExecutor now electron runJs toUpperCase call l).
Proof.
  unfold runtimeExecutor.
  destruct (findTarget _ _) as [target|]; [|still].
  apply unchanged_bind; [apply unchanged_addLog | intros _].
  destruct (eqStr "python" (language target)); [still|].
  destruct (runJs _ _) as [printed outcome].
  apply unchanged_bind; [apply unchanged_logLines | intros _]. still.
Qed.

Lemma unchanged_manageSimulation (r : AppState) args l :
  (forall v, unchanged f (setProject v)) ->
  (forall v, unchanged f (setSimulatedProject v)) ->
  (forall v, unchanged f (setIsSimulating v)) ->
  unchanged f (manageSimulation now r args l).
Proof.
  intros Hp Hs Hi.
  unfold manageSimulation, startSimulation, commitSimulation, abortSimulation.
  repeat match goal with
         | |- unchanged _ (if ?b then _ else _) => destruct b
         | |- unchanged _ (match ?o with Some _ => _ | None => _ end) => destruct o
         | |- unchanged _ (bind _ _) => apply unchanged_bind; [|intros ?]
         | |- unchanged _ (ret _) => apply unchanged_ret
         | |- unchanged _ (addLog _ _ _) => apply unchanged_addLog
         | |- unchanged _ (setProject _) => apply Hp
         | |- unchanged _ (setSimulatedProject _) => apply Hs
         | |- unchanged _ (setIsSimulating _) => apply Hi
         end.
Qed.

(** A call that is no simulation switch goes through the handler without
    touching [f]. *)
Lemma unchanged_handleCall_plain (r : AppState) call l :
  isSwitch call = false ->
  unchanged f (handleCall uuid now electron runJs toUpperCase r call l).
Proof.
  intros Hc. unfold handleCall.
  apply unchanged_bind; [|intros ?; still].
  unfold isSwitch in Hc.
  destruct (String.eqb (call_name call) "manage_simulation").
  - simpl in Hc. apply orb_false_iff in Hc. destruct Hc as [Hc Habort].
    apply orb_false_iff in Hc. destruct Hc as [Hstart Hcommit].
    unfold manageSimulation. rewrite Hstart, Hcommit, Habort. apply unchanged_ret.
  - destruct (String.eqb (call_name call) "manage_node");
      [apply unchanged_manageNode | apply unchanged_runtimeExecutor].
Qed.

Lemma unchanged_handleCalls_plain (r : AppState) calls :
  existsb isSwitch calls = false ->
  forall l, unchanged f (handleCalls uuid now electron runJs toUpperCase r calls l).
Proof.
  induction calls as [|c rest IH]; simpl; intros Hc l; [apply unchanged_ret|].
  apply orb_false_iff in Hc. destruct Hc as [Hc Hrest].
  apply unchanged_bind; [now apply unchanged_handleCall_plain | intros l'; auto].
Qed.

Lemma unchanged_handleCalls (r : AppState) calls :
  (forall v, unchanged f (setProject v)) ->
  (forall v, unchanged f (setSimulatedProject v)) ->
  (forall v, unchanged f (setIsSimulating v)) ->
  forall l, unchanged f (handleCalls uuid now electron runJs toUpperCase r calls l).
Proof.
  intros Hp Hs Hi.
  induction calls as [|c rest IH]; simpl; intros l; [apply unchanged_ret|].
  apply unchanged_bind; [|intros l'; auto].
  unfold handleCall. apply unchanged_bind; [|intros ?; still].
  destruct (String.eqb (call_name c) "manage_simulation");
    [now apply unchanged_manageSimulation|].
  destruct (String.eqb (call_name c) "manage_node");
    [apply unchanged_manageNode | apply unchanged_runtimeExecutor].
Qed.

End Unchanged.

Lemma deleteNode_absent k ns : getNode k ns = None -> deleteNode k ns = ns.
Proof.
  unfold deleteNode. induction ns as [|[k' n'] r IH]; simpl; [reflexivity|].
  destruct (String.eqb k' k) eqn:E; [discriminate|].
  intros H. simpl. now rewrite IH.
Qed.

Lemma deleteNode_setNode_fresh k n ns :
  getNode k ns = None -> deleteNode k (setNode k n ns) = ns.
Proof.
  intros H. rewrite setNode_fresh by assumption.
  unfold deleteNode. rewrite filter_app. simpl. rewrite String.eqb_refl. simpl.
  rewrite app_nil_r. now apply deleteNode_absent.
Qed.

Lemma getNode_deleteNode k ns : getNode k (deleteNode k ns) = None.
Proof.
  unfold deleteNode. induction ns as [|[k' n'] r IH]; simpl; [reflexivity|].
  destruct (String.eqb k' k) eqn:E; simpl; [assumption|]. now rewrite E.
Qed.

Lemma filter_absent (k : string) (l : list string) :
  ~ In k l -> filter (fun i => negb (eqStr i (Some k))) l = l.
Proof.
  induction l as [|x r IH]; [reflexivity|]. intros H. cbn [filter].
  destruct (eqStr x (Some k)) eqn:E.
  - unfold eqStr in E. apply String.eqb_eq in E. subst x. exfalso. apply H. now left.
  - cbn [negb]. rewrite IH; [reflexivity|]. intros Hin. apply H. now right.
Qed.

Section HandlerFacts.

Variable uuid : nat -> string.
Variable now : nat -> nat.
Variable stackDepth : nat.
Variable electron : option (string -> string + string).
Variable runJs : string -> Args -> list string * (string + string).
Variable toUpperCase : string -> string.

(** X10.  The node manager is all or nothing.  It never touches the stores
    of the application itself; when its result is not a success (a missing
    node, a missing parent, an unknown action) the in-flight store, the
    stack and the [modified] flag are exactly as before, and the result is
    an error text; when it is a success, [modified] is set. *)
Theorem manageNode_is_all_or_nothing (args : Args) (l : Locals) (st : AppState) :
  let out := manageNode uuid now args l st in
  project (snd out) = project st
  /\ simulatedProject (snd out) = simulatedProject st
  /\ isSimulating (snd out) = isSimulating st
  /\ activeContextIds (snd out) = activeContextIds st
  /\ (succeeded (snd (fst out)) = true -> modified (fst (fst out)) = true)
  /\ (succeeded (snd (fst out)) = false ->
      fst (fst out) = l
      /\ (snd (fst out) = "Action failed"
          \/ String.prefix "Error: " (snd (fst out)) = true)).
Proof.
  intros out. subst out.
  split; [|split; [|split; [|split]]].
  1: apply (unchanged_manageNode uuid now _ project); unfold unchanged; reflexivity.
  1: apply (unchanged_manageNode uuid now _ simulatedProject); unfold unchanged;
       reflexivity.
  1: apply (unchanged_manageNode uuid now _ isSimulating); unfold unchanged;
       reflexivity.
  1: apply (unchanged_manageNode uuid now _ activeContextIds); unfold unchanged;
       reflexivity.
  unfold manageNode, operationFailed, succeeded.
  destruct (eqStr "create" (action args)).
  { unfold bind at 1. cbn [drawUuid].
    destruct (getNode _ (nodes (nextProject l))); unfold bind, addLog, dateNow,
      updateSessionMessages, ret; cbn [fst snd].
    - split; [intros _; reflexivity | intros H; discriminate H].
    - split; [intros H; discriminate H
             | intros _; split; [reflexivity | right; reflexivity]]. }
  destruct (eqStr "update" (action args)).
  { destruct (getNode _ (nodes (nextProject l))); unfold bind, addLog, dateNow,
      updateSessionMessages, ret; cbn [fst snd].
    - split; [intros _; reflexivity | intros H; discriminate H].
    - split; [intros H; discriminate H
             | intros _; split; [reflexivity | right; reflexivity]]. }
  destruct (eqStr "delete" (action args)).
  { destruct (getNode _ (nodes (nextProject l))); unfold bind, addLog, dateNow,
      updateSessionMessages, ret; cbn [fst snd].
    - split; [intros _; reflexivity | intros H; discriminate H].
    - split; [intros H; discriminate H
             | intros _; split; [reflexivity | right; reflexivity]]. }
  unfold ret; cbn [fst snd].
  split; [intros H; discriminate H | intros _; split; [reflexivity | left; reflexivity]].
Qed.

Lemma manageNode_create (args : Args) (l : Locals) (st : AppState)
    (parentNode : AetherNode) :
  action args = Some "create" ->
  getNode (orStr (a_parentId args) (rootNodeId (nextProject l)))
    (nodes (nextProject l)) = Some parentNode ->
  fst (manageNode uuid now args l st)
  = (mkLocals
       (withNodes (nextProject l)
          (setNode (uuid (drawn st))
             (newNode (uuid (drawn st))
                (orStr (a_parentId args) (rootNodeId (nextProject l))) args)
             (nodes (nextProject l))))
       (nextStack l ++ [uuid (drawn st)]) true (triggeredSimulationChange l)
       (newHistory l),
     "Success. Node created with ID: " ^ uuid (drawn st)).
Proof.
  intros Ha Hparent. unfold manageNode. rewrite Ha.
  change (eqStr "create" (Some "create")) with true. cbn iota.
  rewrite bind_eq. cbn [drawUuid fst snd]. rewrite Hparent.
  rewrite !bind_eq. reflexivity.
Qed.

Lemma manageNode_delete (args : Args) (l : Locals) (st : AppState)
    (node : AetherNode) :
  action args = Some "delete" ->
  getNode (show (nodeId args)) (nodes (nextProject l)) = Some node ->
  fst (manageNode uuid now args l st)
  = (mkLocals
       (withNodes (nextProject l)
          (deleteNode (show (nodeId args)) (nodes (nextProject l))))
       (filter (fun i => negb (eqStr i (nodeId args))) (nextStack l))
       true (triggeredSimulationChange l) (newHistory l),
     "Success. Node " ^ show (nodeId args) ^ " deleted.").
Proof.
  intros Ha Hn. unfold manageNode. rewrite Ha.
  change (eqStr "create" (Some "delete")) with false.
  change (eqStr "update" (Some "delete")) with false.
  change (eqStr "delete" (Some "delete")) with true. cbn iota.
  rewrite Hn. rewrite !bind_eq. reflexivity.
Qed.

(** X11.  Round trip.  Deleting the node a create has just made, under the
    identifier the create reported, gives back the in-flight store and the
    stack as they were before the create (the identifier being new). *)
Theorem create_then_delete_restores (args : Args) (l : Locals) (st : AppState)
    (parentNode : AetherNode) :
  action args = Some "create" ->
  getNode (orStr (a_parentId args) (rootNodeId (nextProject l)))
    (nodes (nextProject l)) = Some parentNode ->
  getNode (uuid (drawn st)) (nodes (nextProject l)) = None ->
  ~ In (uuid (drawn st)) (nextStack l) ->
  let created := manageNode uuid now args l st in
  let deleted := manageNode uuid now (call_args (deleteCall (uuid (drawn st))))
                   (fst (fst created)) (snd created) in
  snd (fst created) = "Success. Node created with ID: " ^ uuid (drawn st)
  /\ In (uuid (drawn st)) (nextStack (fst (fst created)))
  /\ snd (fst deleted) = "Success. Node " ^ uuid (drawn st) ^ " deleted."
  /\ nextProject (fst (fst deleted)) = nextProject l
  /\ nextStack (fst (fst deleted)) = nextStack l.
Proof.
  intros Ha Hparent Hfresh Hstack created deleted.
  pose proof (manageNode_create args l st parentNode Ha Hparent) as Hc.
  fold created in Hc.
  assert (Hd := manageNode_delete (call_args (deleteCall (uuid (drawn st))))
                  (fst (fst created)) (snd created)
                  (newNode (uuid (drawn st))
                     (orStr (a_parentId args) (rootNodeId (nextProject l))) args)
                  eq_refl).
  fold deleted in Hd. rewrite Hc in Hd. cbn [fst snd nextProject nextStack
    withNodes nodes deleteCall call_args nodeId show triggeredSimulationChange
    newHistory] in Hd.
  rewrite getNode_setNode_same in Hd. specialize (Hd eq_refl).
  rewrite Hd, Hc. cbn [fst snd nextProject nextStack].
  split; [reflexivity|]. split; [apply in_or_app; right; now left|].
  split; [reflexivity|].
  rewrite deleteNode_setNode_fresh by assumption. split.
  - unfold withNodes. cbn [rootNodeId selectedNodeId].
    destruct (nextProject l); reflexivity.
  - rewrite filter_app. cbn [filter eqStr]. rewrite String.eqb_refl. cbn [negb].
    rewrite app_nil_r. now apply filter_absent.
Qed.

Lemma processChatTurn_unlocks (r : AppState) (script : list Outcome) :
  forall history filter override st,
  let out := processChatTurn uuid now stackDepth electron runJs toUpperCase
               r script history filter override st in
  ended (fst (fst out)) = true -> isLoading (snd out) = false.
Proof.
  induction script as [|o rest IH]; intros history filter override st;
    cbn [processChatTurn]; rewrite !bind_eq;
    (destruct (getNode _ _); [|unfold onError; rewrite !bind_eq; reflexivity]);
    (destruct (collectContext _ _ _); [|unfold onError; rewrite !bind_eq; reflexivity]).
  - cbn [ret fst snd ended]. discriminate.
  - destruct o as [text calls|text|text error]; rewrite !bind_eq.
    + cbn [ret fst snd]. apply IH.
    + reflexivity.
    + unfold onError. rewrite !bind_eq. reflexivity.
Qed.

Lemma handleCall_triggered (r : AppState) call l st :
  triggeredSimulationChange
    (fst (handleCall uuid now electron runJs toUpperCase r call l st))
  = triggeredSimulationChange l || isSwitch call.
Proof.
  unfold handleCall, isSwitch. rewrite !bind_eq. cbn [ret fst snd pushHistory
    triggeredSimulationChange].
  destruct (String.eqb (call_name call) "manage_simulation").
  - unfold manageSimulation. simpl.
    destruct (eqStr "start" _); [rewrite !bind_eq; simpl; now rewrite orb_true_r|].
    destruct (eqStr "commit" _); [rewrite !bind_eq; simpl; now rewrite orb_true_r|].
    destruct (eqStr "abort" _); [rewrite !bind_eq; simpl; now rewrite orb_true_r|].
    simpl. now rewrite orb_false_r.
  - simpl. rewrite orb_false_r.
    destruct (String.eqb (call_name call) "manage_node").
    + unfold manageNode, operationFailed.
      destruct (eqStr "create" _).
      { rewrite bind_eq. cbn [drawUuid fst snd].
        destruct (getNode _ _); rewrite !bind_eq; reflexivity. }
      destruct (eqStr "update" _).
      { destruct (getNode _ _); rewrite !bind_eq; reflexivity. }
      destruct (eqStr "delete" _).
      { destruct (getNode _ _); rewrite !bind_eq; reflexivity. }
      reflexivity.
    + now rewrite runtimeExecutor_locals.
Qed.

Lemma handleCalls_triggered (r : AppState) calls :
  forall l st,
  triggeredSimulationChange
    (fst (handleCalls uuid now electron runJs toUpperCase r calls l st))
  = triggeredSimulationChange l || existsb isSwitch calls.
Proof.
  induction calls as [|c rest IH]; intros l st; simpl.
  - now rewrite orb_false_r.
  - rewrite bind_eq, IH, handleCall_triggered. now rewrite orb_assoc.
Qed.

(** X14.  Write-back of a batch.  [triggeredSimulationChange] is set
    exactly when the batch holds a start, commit or abort.  Such a batch
    never stores its node changes nor its stack.  A batch without one
    stores them when a node was changed, in the store the running render
    considers active, and stores nothing otherwise. *)
Theorem write_back_is_gated (r : AppState) (aiMsgId text : string)
    (currentHistory : list Message) (runtimeProject : ProjectState)
    (stack : list string) (calls : list ToolCall) (st : AppState) :
  let out := onToolCall uuid now electron runJs toUpperCase r aiMsgId text
               currentHistory runtimeProject stack calls st in
  let l := fst out in
  triggeredSimulationChange l = existsb isSwitch calls
  /\ (existsb isSwitch calls = true ->
      activeContextIds (snd out) = activeContextIds st)
  /\ (existsb isSwitch calls = false -> modified l = true ->
      activeContextIds (snd out) = nextStack l
      /\ if isSimulating r
         then simulatedProject (snd out) = Some (nextProject l)
              /\ project (snd out) = project st
         else project (snd out) = nextProject l
              /\ simulatedProject (snd out) = simulatedProject st)
  /\ (existsb isSwitch calls = false -> modified l = false ->
      activeContextIds (snd out) = activeContextIds st
      /\ project (snd out) = project st
      /\ simulatedProject (snd out) = simulatedProject st).
Proof.
  intros out l. subst l out. unfold onToolCall. rewrite !bind_eq.
  cbn [ret fst snd].
  match goal with |- context [handleCalls _ _ _ _ _ r calls ?l0 ?s0] =>
    set (l0' := l0); set (s0' := s0) end.
  pose proof (handleCalls_triggered r calls l0' s0') as Ht.
  change (triggeredSimulationChange l0') with false in Ht. simpl in Ht.
  set (res := handleCalls uuid now electron runJs toUpperCase r calls l0' s0') in *.
  assert (Hany : forall (X : Type) (f : AppState -> X),
            (forall fn, unchanged f (updateSessionMessages fn)) ->
            unchanged f (dateNow now) -> unchanged f (drawUuid uuid) ->
            (forall v, unchanged f (setProject v)) ->
            (forall v, unchanged f (setSimulatedProject v)) ->
            (forall v, unchanged f (setIsSimulating v)) ->
            f (snd res) = f st).
  { intros X f H1 H2 H3 H4 H5 H6. subst res.
    rewrite (unchanged_handleCalls uuid now electron runJs toUpperCase X f
               H1 H2 H3 r calls H4 H5 H6). apply H1. }
  assert (Hplain : forall (X : Type) (f : AppState -> X),
            (forall fn, unchanged f (updateSessionMessages fn)) ->
            unchanged f (dateNow now) -> unchanged f (drawUuid uuid) ->
            existsb isSwitch calls = false ->
            f (snd res) = f st).
  { intros X f H1 H2 H3 Hc. subst res.
    rewrite (unchanged_handleCalls_plain uuid now electron runJs toUpperCase X f
               H1 H2 H3 r calls Hc). apply H1. }
  split; [exact Ht|]. split; [|split].
  - intros Hs. rewrite Ht, Hs, andb_false_r. cbn [ret snd].
    apply Hany; unfold unchanged; reflexivity.
  - intros Hs Hm. rewrite Ht, Hs, Hm. cbn [andb negb]. rewrite !bind_eq.
    split; [reflexivity|]. unfold setActiveProject.
    destruct (isSimulating r); cbn [setActiveContextIds setSimulatedProject setProject
      snd fst project simulatedProject]; (split; [reflexivity|]);
      apply Hplain; trivial; unfold unchanged; reflexivity.
  - intros Hs Hm. rewrite Hm. cbn [andb ret snd].
    repeat split; apply Hplain; trivial; unfold unchanged; reflexivity.
Qed.

End HandlerFacts.


Lemma find_In_Some {A : Type} (f : A -> bool) (l : list A) (x : A) :
  In x l -> f x = true -> exists y, find f l = Some y /\ f y = true.
Proof.
  intros Hin Hx. destruct (find f l) as [y|] eqn:E.
  - exists y. split; [reflexivity|]. now apply find_some in E.
  - pose proof (find_none f l E x Hin). congruence.
Qed.

Section TurnFacts.

Variable uuid : nat -> string.
Variable now : nat -> nat.
Variable stackDepth : nat.
Variable electron : option (string -> string + string).
Variable runJs : string -> Args -> list string * (string + string).
Variable toUpperCase : string -> string.


Lemma processChatTurn_root_missing (r : AppState) (script : list Outcome)
    (history : list Message) (filter : option (list string))
    (override : option ProjectState) (st : AppState) :
  (let p := match override with
            | Some p => p
            | None => activeProject r
            end in
   getNode (rootNodeId p) (nodes p) = None) ->
  let out := processChatTurn uuid now stackDepth electron runJs toUpperCase
               r script history filter override st in
  fst out = (EndFailed rootMissing, [])
  /\ isLoading (snd out) = false
  /\ project (snd out) = project st.
Proof.
  intros Hroot.
  destruct script as [|o rest]; cbn [processChatTurn]; rewrite !bind_eq;
    cbv zeta in Hroot; rewrite Hroot; unfold onError; rewrite !bind_eq;
    repeat split.
Qed.

Lemma handleCall_manage_node (r : AppState) args l st :
  let out := handleCall uuid now electron runJs toUpperCase r
               (mkCall "manage_node" args) l st in
  nextProject (fst out) = nextProject (fst (fst (manageNode uuid now args l st)))
  /\ nextStack (fst out) = nextStack (fst (fst (manageNode uuid now args l st)))
  /\ modified (fst out) = modified (fst (fst (manageNode uuid now args l st)))
  /\ triggeredSimulationChange (fst out)
     = triggeredSimulationChange (fst (fst (manageNode uuid now args l st)))
  /\ project (snd out) = project st.
Proof.
  unfold handleCall. cbn [call_name call_args].
  change (String.eqb "manage_node" "manage_simulation") with false.
  change (String.eqb "manage_node" "manage_node") with true. cbn iota.
  rewrite !bind_eq. repeat split.
  apply (unchanged_manageNode uuid now _ project); unfold unchanged; reflexivity.
Qed.

(** X15.  Deleting the root is not refused.  On the live store the batch
    reports success, the store without root is written back, the next
    request of the turn fails before anything is sent, and so does every
    later turn on that store. *)
Theorem deleting_the_root_ends_the_turn (r st : AppState) (text : string)
    (rest : list Outcome) (history : list Message)
    (filter : option (list string)) (rootNode : AetherNode) :
  isSimulating r = false ->
  getNode (rootNodeId (project r)) (nodes (project r)) = Some rootNode ->
  collectContext stackDepth (project r)
    (Some (match filter with Some s => s | None => activeContextIds r end))
  <> None ->
  let out := processChatTurn uuid now stackDepth electron runJs toUpperCase r
               (ToolCalls text [deleteCall (rootNodeId (project r))] :: rest)
               history filter None st in
  ended (fst (fst out)) = true
  /\ fst (fst out) = EndFailed rootMissing
  /\ List.length (snd (fst out)) = 1
  /\ project (snd out)
     = withNodes (project r) (deleteNode (rootNodeId (project r)) (nodes (project r)))
  /\ forall r' script' history' filter' st',
       isSimulating r' = false -> project r' = project (snd out) ->
       fst (processChatTurn uuid now stackDepth electron runJs toUpperCase r'
              script' history' filter' None st')
       = (EndFailed rootMissing, []).
Proof.
  intros Hsim Hroot Hctx out.
  assert (Hactive : activeProject r = project r).
  { unfold activeProject. now rewrite Hsim. }
  set (p' := withNodes (project r)
               (deleteNode (rootNodeId (project r)) (nodes (project r)))).
  assert (Hgone : getNode (rootNodeId p') (nodes p') = None).
  { unfold p'. cbn [withNodes rootNodeId nodes]. apply getNode_deleteNode. }
  assert (Hout : fst out = (EndFailed rootMissing,
                            [(match collectContext stackDepth (project r)
                                      (Some (match filter with
                                             | Some s => s
                                             | None => activeContextIds r
                                             end)) with
                              | Some ctx => ctx
                              | None => mkContext EmptyString []
                              end, history)])
                 /\ project (snd out) = p').
  { subst out. cbn [processChatTurn]. rewrite !bind_eq. rewrite Hactive, Hroot.
    destruct (collectContext stackDepth (project r) _) as [ctx|]; [|congruence].
    rewrite !bind_eq. cbn [ret fst snd].
    match goal with |- context [onToolCall _ _ _ _ _ r ?a ?t ?h ?rp ?s ?c ?s0] =>
      set (batch := onToolCall uuid now electron runJs toUpperCase r a t h rp s c s0)
    end.
    assert (Hbatch : nextProject (fst batch) = p' /\ project (snd batch) = p').
    { subst batch. unfold onToolCall. rewrite !bind_eq. cbn [handleCalls].
      rewrite !bind_eq. cbn [ret fst snd]. unfold deleteCall.
      match goal with |- context [handleCall _ _ _ _ _ r (mkCall _ ?a) ?l0 ?s0] =>
        pose proof (handleCall_manage_node r a l0 s0) as Hh;
        pose proof (manageNode_delete uuid now a l0 s0 rootNode eq_refl) as Hd;
        set (one := handleCall uuid now electron runJs toUpperCase r
                      (mkCall "manage_node" a) l0 s0) in *
      end.
      cbv zeta in Hh. destruct Hh as (H1 & H2 & H3 & H4 & H5).
      cbn [nodeId show nextProject withNodes nodes] in Hd.
      specialize (Hd Hroot). rewrite Hd in H1, H2, H3, H4.
      cbn [fst nextProject modified triggeredSimulationChange withNodes
           rootNodeId selectedNodeId nodes] in H1, H3, H4.
      rewrite H3, H4. cbn [andb negb]. rewrite !bind_eq.
      unfold setActiveProject. rewrite Hsim.
      cbn [setActiveContextIds setProject fst snd project]. rewrite H1. split; reflexivity. }
    destruct Hbatch as [Hnext Hlive].
    match goal with |- context [processChatTurn _ _ _ _ _ _ r rest ?h ?f ?o ?s0] =>
      destruct (processChatTurn_root_missing r rest h f o s0) as (He & _ & Hp)
    end.
    { cbv zeta. rewrite Hnext. exact Hgone. }
    cbv zeta in He, Hp. rewrite He, Hp. cbn [fst snd]. split; [reflexivity | exact Hlive]. }
  destruct Hout as [Hfst Hproject]. rewrite Hfst. cbn [fst snd ended List.length].
  split; [reflexivity|]. split; [reflexivity|]. split; [reflexivity|].
  split; [exact Hproject|].
  intros r' script' history' filter' st' Hsim' Hr'.
  apply (processChatTurn_root_missing r' script' history' filter' None st').
  cbv zeta. unfold activeProject. rewrite Hsim', Hr', Hproject. exact Hgone.
Qed.

End TurnFacts.

(** ** Stores that are not trees *)

Lemma climb_app ns i :
  forall m k,
  climb ns (i + m) k
  = match climb ns i k with
    | Some x => climb ns m x
    | None => None
    end.
Proof.
  induction i as [|i IH]; intros m k; [reflexivity|].
  cbn [Nat.add climb].
  destruct (getNode k ns) as [n|]; [|reflexivity].
  destruct (parentId n) as [q|]; [apply IH | reflexivity].
Qed.

Lemma climb_step ns k n q :
  getNode k ns = Some n -> parentId n = Some q -> climb ns 1 k = Some q.
Proof. intros Hn Hq. simpl. now rewrite Hn, Hq. Qed.

Lemma childrenOf_In (p : ProjectState) (k : string) (c : AetherNode) :
  In c (childrenOf p k) <-> In c (values (nodes p)) /\ parentId c = Some k.
Proof.
  unfold childrenOf. rewrite filter_In. unfold eqStr.
  destruct (parentId c) as [q|].
  - rewrite String.eqb_eq. split; intros [H1 H2]; split; congruence.
  - split; intros [H1 H2]; discriminate.
Qed.

Lemma fold_traverse_hits (p : ProjectState) (a : option (list string)) (fuel : nat)
    (c : AetherNode) (cs : list AetherNode) :
  In c cs ->
  (forall acc, traverse fuel p a (id c) acc = None) ->
  forall init,
  fold_left (fun r c => match r with
                        | Some acc => traverse fuel p a (id c) acc
                        | None => None
                        end) cs init = None.
Proof.
  intros Hin Hc. induction cs as [|x rest IH]; [contradiction|].
  intros init. simpl. destruct Hin as [-> | Hin].
  - destruct init as [acc|]; [rewrite Hc|]; apply fold_traverse_None.
  - now apply IH.
Qed.

(** A set of stored nodes in which every member has a child in the set:
    the traversal from a member does not return. *)
Lemma traverse_descent (p : ProjectState) (a : option (list string))
    (S' : string -> Prop) :
  (forall x, S' x -> exists n c, getNode x (nodes p) = Some n
                                 /\ In c (childrenOf p x) /\ S' (id c)) ->
  forall fuel x acc, S' x -> traverse fuel p a x acc = None.
Proof.
  intros Hclosed. induction fuel as [|f IH]; intros x acc Hx; [reflexivity|].
  destruct (Hclosed x Hx) as (n & c & Hn & Hc & Hs).
  cbn [traverse]. rewrite Hn.
  apply fold_traverse_hits with (c := c); [assumption|].
  intros acc'. now apply IH.
Qed.

Lemma fold_visit_inv (p : ProjectState) (fuel : nat) (cs : list AetherNode) :
  forall l0 order,
  fold_left
    (fun r c => match r, visitOrder fuel p (id c) with
                | Some l, Some l' => Some (l ++ l')
                | _, _ => None
                end) cs (Some l0) = Some order ->
  forall x, In x order ->
  In x l0 \/ exists c l', In c cs /\ visitOrder fuel p (id c) = Some l' /\ In x l'.
Proof.
  induction cs as [|c rest IH]; intros l0 order; simpl.
  - intros [= <-] x Hx. now left.
  - destruct (visitOrder fuel p (id c)) as [l'|] eqn:E.
    + intros H x Hx. destruct (IH _ _ H x Hx) as [Hin | (c' & l'' & Hc & Hv & Hin)].
      * apply in_app_or in Hin. destruct Hin as [Hin | Hin]; [now left|].
        right. exists c, l'. auto.
      * right. exists c', l''. auto.
    + rewrite fold_visit_None. discriminate.
Qed.

(** Whatever the shape of the store, a visited node is stored under its
    key and climbs to the node the traversal started from. *)
Lemma visitOrder_climbs (p : ProjectState) :
  NoDup (keys (nodes p)) ->
  (forall k n, In (k, n) (nodes p) -> id n = k) ->
  forall fuel k0 order,
  visitOrder fuel p k0 = Some order ->
  forall k' n', In (k', n') order ->
  getNode k' (nodes p) = Some n' /\ exists i, climb (nodes p) i k' = Some k0.
Proof.
  intros Hkeys Hids. induction fuel as [|f IH]; intros k0 order; [discriminate|].
  cbn [visitOrder]. destruct (getNode k0 (nodes p)) as [node|] eqn:Hn.
  - intros H k' n' Hin.
    destruct (fold_visit_inv p f _ _ _ H _ Hin) as [Hin0 | (c & l' & Hc & Hv & Hin')].
    + destruct Hin0 as [[= <- <-] | []]. split; [assumption|]. now exists 0.
    + destruct (IH _ _ Hv _ _ Hin') as (Hstored & i & Hi).
      split; [assumption|]. exists (i + 1). rewrite climb_app, Hi.
      apply childrenOf_In in Hc. destruct Hc as [Hval Hpar].
      unfold values in Hval. apply in_map_iff in Hval.
      destruct Hval as ([kc c'] & Heq & Hinc). simpl in Heq. subst c'.
      assert (kc = id c) by (symmetry; now apply Hids). subst kc.
      apply climb_step with (n := c); [now apply In_getNode | assumption].
  - intros [= <-] k' n' [].
Qed.

Lemma getNode_deleteNode_other k k' ns :
  k' <> k -> getNode k' (deleteNode k ns) = getNode k' ns.
Proof.
  intros Hne. unfold deleteNode. induction ns as [|[k0 n0] r IH]; [reflexivity|].
  cbn [filter fst getNode]. destruct (String.eqb k0 k) eqn:E; cbn [negb getNode].
  - apply String.eqb_eq in E. subst k0.
    destruct (String.eqb k k') eqn:E'; [|exact IH].
    apply String.eqb_eq in E'. congruence.
  - now rewrite IH.
Qed.

Lemma getNode_deleteNode_Some k k' n ns :
  getNode k' (deleteNode k ns) = Some n -> getNode k' ns = Some n /\ k' <> k.
Proof.
  intros H. assert (Hne : k' <> k).
  { intros ->. now rewrite getNode_deleteNode in H. }
  split; [|assumption]. now rewrite getNode_deleteNode_other in H.
Qed.

Lemma climb_deleteNode k ns i :
  forall x y, climb (deleteNode k ns) i x = Some y -> climb ns i x = Some y.
Proof.
  induction i as [|i IH]; intros x y; [auto|]. cbn [climb].
  destruct (getNode x (deleteNode k ns)) as [n|] eqn:Hn; [|discriminate].
  apply getNode_deleteNode_Some in Hn. destruct Hn as [Hn _]. rewrite Hn.
  destruct (parentId n); [apply IH | discriminate].
Qed.

Lemma climb_from_deleted k ns i y :
  climb (deleteNode k ns) (S i) k = Some y -> False.
Proof. cbn [climb]. now rewrite getNode_deleteNode. Qed.

Lemma NoDup_keys_filter (f : string * AetherNode -> bool) (ns : Nodes) :
  NoDup (keys ns) -> NoDup (keys (filter f ns)).
Proof.
  unfold keys. induction ns as [|x r IH]; simpl; intros H; [constructor|].
  inversion H as [|? ? Hx Hr]; subst.
  destruct (f x); simpl; [|auto]. constructor; [|auto].
  intros Hin. apply Hx. apply in_map_iff in Hin.
  destruct Hin as (y & Hy & Hin). apply filter_In in Hin.
  apply in_map_iff. exists y. tauto.
Qed.

Section CycleFacts.

Variable uuid : nat -> string.
Variable now : nat -> nat.
Variable stackDepth : nat.
Variable electron : option (string -> string + string).
Variable runJs : string -> Args -> list string * (string + string).
Variable toUpperCase : string -> string.

(** X16.  When the parent links from the root lead back to the root, the
    traversal of [collectContext] never returns, whatever the depth of
    stack: the context cannot be assembled, and a turn on such a store
    fails with the stack overflow before any request is made. *)
Theorem parent_cycle_through_root_overflows (p : ProjectState) (j : nat) :
  (forall k n, In (k, n) (nodes p) -> id n = k) ->
  climb (nodes p) (S j) (rootNodeId p) = Some (rootNodeId p) ->
  (forall fuel a, collectContext fuel p a = None)
  /\ forall r script history filter st,
       fst (processChatTurn uuid now stackDepth electron runJs toUpperCase r
              script history filter (Some p) st)
       = (EndFailed stackOverflow, []).
Proof.
  intros Hids Hcycle.
  set (S' := fun x => exists i, i <= j /\ climb (nodes p) i (rootNodeId p) = Some x).
  assert (Hclosed : forall x, S' x ->
            exists n c, getNode x (nodes p) = Some n
                        /\ In c (childrenOf p x) /\ S' (id c)).
  { assert (Hchild : forall i y x ny,
              i <= j -> climb (nodes p) i (rootNodeId p) = Some y ->
              getNode y (nodes p) = Some ny -> parentId ny = Some x ->
              In ny (childrenOf p x) /\ S' (id ny)).
    { intros i y x ny Hi Hy Hny Hpar. split.
      - apply childrenOf_In. split; [|assumption].
        apply getNode_In in Hny. change ny with (snd (y, ny)). now apply in_map.
      - exists i. split; [assumption|].
        rewrite (Hids y ny); [assumption | now apply getNode_In]. }
    assert (Hstored : forall i x, i <= j ->
              climb (nodes p) i (rootNodeId p) = Some x ->
              exists n, getNode x (nodes p) = Some n).
    { intros i x Hi Hx.
      assert (Hsplit := climb_app (nodes p) i (S j - i) (rootNodeId p)).
      replace (i + (S j - i)) with (S j) in Hsplit by lia.
      rewrite Hcycle, Hx in Hsplit.
      destruct (S j - i) as [|m] eqn:Em; [lia|].
      cbn [climb] in Hsplit.
      destruct (getNode x (nodes p)) as [n|]; [eauto | discriminate]. }
    intros x (i & Hi & Hx). destruct (Hstored i x Hi Hx) as (n & Hn).
    exists n. destruct i as [|i].
    - simpl in Hx. injection Hx as <-.
      apply climb_top in Hcycle. destruct Hcycle as (y & ny & Hy & Hny & Hpar).
      exists ny. split; [assumption|]. apply (Hchild j y); auto.
    - apply climb_top in Hx. destruct Hx as (y & ny & Hy & Hny & Hpar).
      exists ny. split; [assumption|]. apply (Hchild i y); auto; lia. }
  assert (Hroot : S' (rootNodeId p)) by (exists 0; split; [lia | reflexivity]).
  assert (Hctx : forall fuel a, collectContext fuel p a = None).
  { intros fuel a. unfold collectContext.
    destruct (Hclosed _ Hroot) as (n & _ & Hn & _). rewrite Hn.
    now rewrite (traverse_descent p a S' Hclosed fuel). }
  split; [exact Hctx|].
  intros r script history filter st.
  destruct (Hclosed _ Hroot) as (n & _ & Hn & _).
  destruct script as [|o rest]; cbn [processChatTurn]; rewrite !bind_eq;
    rewrite Hn, Hctx; unfold onError; rewrite !bind_eq; reflexivity.
Qed.

(** X17.  Delete does not cascade.  After the deletion of a node that is
    not the root, each of its descendants is still stored and still
    answers to a call under its sanitized name, but the traversal never
    reaches it: it has no block in the instruction and no entry in the
    catalog of any later request. *)
Theorem deleted_subtree_is_orphaned (l : Locals) (st : AppState) (k kc : string)
    (c : AetherNode) (i : nat) :
  wf (nextProject l) ->
  k <> rootNodeId (nextProject l) ->
  getNode kc (nodes (nextProject l)) = Some c ->
  climb (nodes (nextProject l)) (S i) kc = Some k ->
  let out := manageNode uuid now (call_args (deleteCall k)) l st in
  let p' := nextProject (fst (fst out)) in
  snd (fst out) = "Success. Node " ^ k ^ " deleted."
  /\ getNode kc (nodes p') = Some c
  /\ (exists target, findTarget p' (sanitizeName (name c)) = Some target)
  /\ forall fuel a ctx,
       collectContext fuel p' a = Some ctx ->
       exists order,
         visitOrder fuel p' (rootNodeId p') = Some order
         /\ ~ In kc (map fst order)
         /\ instruction ctx
            = header ^ concatStr (flat_map blocksOf (included p' a order))
         /\ tools ctx = systemTools ++ flat_map entriesOf (included p' a order).
Proof.
  clear stackDepth electron runJs toUpperCase.
  intros Hwf Hroot Hc Hclimb out p'. apply wf_spec in Hwf.
  set (p := nextProject l) in *.
  assert (Hk : exists nk, getNode k (nodes p) = Some nk).
  { apply climb_top in Hclimb. destruct Hclimb as (y & ny & _ & Hny & Hpar).
    assert (Hin : In ny (values (nodes p))).
    { apply getNode_In in Hny. change ny with (snd (y, ny)). now apply in_map. }
    pose proof (wf_parents p Hwf ny k Hin Hpar) as Hne.
    destruct (getNode k (nodes p)) as [nk|]; [eauto | congruence]. }
  destruct Hk as (nk & Hnk).
  pose proof (manageNode_delete uuid now (call_args (deleteCall k)) l st nk
                eq_refl Hnk) as Hd.
  fold out in Hd. cbn [deleteCall call_args nodeId show] in Hd.
  subst p'. rewrite Hd. cbn [fst snd nextProject]. fold p.
  set (p' := withNodes p (deleteNode k (nodes p))).
  assert (Hdepth : forall x, In x (keys (nodes p)) ->
            exists d, depthOf (List.length (nodes p)) (nodes p) x = Some d).
  { intros x Hx. pose proof (wf_acyclic p Hwf x Hx) as Hne.
    destruct (depthOf _ _ x) as [d|]; [eauto | congruence]. }
  assert (Hkc : kc <> k).
  { intros ->. destruct (Hdepth k) as (d & Hd0).
    { apply getNode_In in Hnk. change k with (fst (k, nk)). now apply in_map. }
    destruct (climb_depth p _ _ _ _ Hclimb Hd0) as (d' & Hd' & Heq).
    rewrite Hd0 in Hd'. injection Hd' as <-. lia. }
  assert (Hstill : getNode kc (nodes p') = Some c).
  { unfold p'. cbn [withNodes nodes]. now rewrite getNode_deleteNode_other. }
  split; [reflexivity|]. split; [exact Hstill|]. split.
  { destruct (find_In_Some (fun n => String.eqb (sanitizeName (name n))
                                       (sanitizeName (name c)))
                (values (nodes p')) c) as (target & Ht & _).
    - apply getNode_In in Hstill. change c with (snd (kc, c)). now apply in_map.
    - apply String.eqb_refl.
    - exists target. exact Ht. }
  intros fuel a ctx Hctx.
  destruct (wf_root p Hwf) as (rn & Hrn & Hrpar).
  assert (Hroot' : getNode (rootNodeId p') (nodes p') <> None).
  { unfold p'. cbn [withNodes rootNodeId nodes].
    rewrite getNode_deleteNode_other by congruence. congruence. }
  destruct (proj1 (collectContext_visitOrder p' a fuel ctx Hroot') Hctx)
    as (order & Horder & Hi & Ht).
  exists order. split; [exact Horder|]. split; [|split; assumption].
  intros Hin. apply in_map_iff in Hin. destruct Hin as ([kc' n'] & Heq & Hin).
  simpl in Heq. subst kc'.
  assert (Hkeys' : NoDup (keys (nodes p'))).
  { unfold p', deleteNode, keys. cbn [withNodes nodes].
    apply NoDup_keys_filter. exact (wf_keys p Hwf). }
  assert (Hids' : forall x n, In (x, n) (nodes p') -> id n = x).
  { intros x n Hx. unfold p', deleteNode in Hx. cbn [withNodes nodes] in Hx.
    apply filter_In in Hx. apply (wf_ids p Hwf). tauto. }
  destruct (visitOrder_climbs p' Hkeys' Hids' fuel _ _ Horder _ _ Hin)
    as (_ & m & Hm).
  unfold p' in Hm. cbn [withNodes nodes rootNodeId] in Hm.
  destruct (Nat.le_gt_cases m (S i)) as [Hle | Hgt].
  - apply climb_deleteNode in Hm.
    assert (Hsplit := climb_app (nodes p) m (S i - m) kc).
    replace (m + (S i - m)) with (S i) in Hsplit by lia.
    rewrite Hclimb, Hm in Hsplit.
    destruct (S i - m) as [|m'] eqn:Em.
    + simpl in Hsplit. congruence.
    + cbn [climb] in Hsplit. rewrite Hrn, Hrpar in Hsplit. discriminate.
  - assert (Hsplit := climb_app (deleteNode k (nodes p)) (S i) (m - S i) kc).
    replace (S i + (m - S i)) with m in Hsplit by lia.
    rewrite Hm in Hsplit.
    destruct (climb (deleteNode k (nodes p)) (S i) kc) as [y|] eqn:Ey;
      [|discriminate].
    apply climb_deleteNode in Ey. assert (y = k) by congruence. subst y.
    destruct (m - S i) as [|m'] eqn:Em; [lia|].
    symmetry in Hsplit. now apply climb_from_deleted in Hsplit.
Qed.

End CycleFacts.

(** ** The handler on the default project *)

(** A delete of a node that does not exist. *)
Lemma manageNode_is_all_or_nothing_witness :
  fst (fst (manageNode sampleUuid ticking (call_args (deleteCall "nope"))
              defaultLocals liveState)) = defaultLocals.
Proof.
  exact (proj1 (proj2 (proj2 (proj2 (proj2 (proj2
           (manageNode_is_all_or_nothing sampleUuid ticking
              (call_args (deleteCall "nope")) defaultLocals liveState))))) eq_refl)).
Defined.

(** A tool created under the agent, then deleted. *)
Lemma create_then_delete_restores_witness :
  nextProject
    (fst (fst (manageNode sampleUuid ticking (call_args (deleteCall "node0"))
                 (fst (fst (manageNode sampleUuid ticking createToolArgs
                              defaultLocals liveState)))
                 (snd (manageNode sampleUuid ticking createToolArgs
                         defaultLocals liveState)))))
  = DEFAULT_PROJECT.
Proof.
  assert (Hstack : ~ In (sampleUuid (drawn liveState)) (nextStack defaultLocals))
    by (simpl; tauto).
  exact (proj1 (proj2 (proj2 (proj2
           (create_then_delete_restores sampleUuid ticking createToolArgs
              defaultLocals liveState
              (mkNode "agent_core" (Some NodeType.AGENT) "Orchestrator" (Some "root")
                 None (Some "google") (Some "gemini-2.5-flash")
                 (Some "You are the Aether Orchestrator. You manage the lifecycle of nodes and respond to user intent.")
                 None None None None)
              eq_refl eq_refl eq_refl Hstack))))).
Defined.


(** A batch with a delegated call and an abort. *)
Lemma write_back_is_gated_witness :
  activeContextIds
    (snd (onToolCall sampleUuid ticking None noRunner upper liveState "1"
            EmptyString [] DEFAULT_PROJECT ["root"] twoCalls liveState))
  = activeContextIds liveState.
Proof.
  exact (proj1 (proj2
           (write_back_is_gated sampleUuid ticking None noRunner upper liveState "1"
              EmptyString [] DEFAULT_PROJECT ["root"] twoCalls liveState)) eq_refl).
Defined.

(** The backend deletes the root of the default project. *)
Lemma deleting_the_root_witness :
  fst (fst (processChatTurn sampleUuid ticking 64 None noRunner upper liveState
              (ToolCalls EmptyString [deleteCall (rootNodeId (project liveState))]
               :: [Completed "done"]) [] None None liveState))
  = EndFailed rootMissing.
Proof.
  assert (Hctx : collectContext 64 (project liveState)
                   (Some (match @None (list string) with
                          | Some s => s
                          | None => activeContextIds liveState
                          end)) <> None)
    by (vm_compute; discriminate).
  exact (proj1 (proj2
           (deleting_the_root_ends_the_turn sampleUuid ticking 64 None noRunner upper
              liveState liveState EmptyString [Completed "done"] [] None
              (mkNode "root" (Some NodeType.SYSTEM) "Aether_Kernel" None (Some true)
                 (Some "google") (Some "gemini-2.5-flash") None None None None None)
              eq_refl eq_refl Hctx))).
Defined.

(** The store the node manager produces when the backend moves the root
    under the agent. *)
Lemma parent_cycle_witness :
  nextProject (fst (fst (manageNode sampleUuid ticking
                           (call_args (updateParentCall "root" "agent_core"))
                           defaultLocals liveState))) = cycleProject
  /\ collectContext 1000 cycleProject None = None.
Proof.
  split; [reflexivity|].
  assert (Hids : forall k n, In (k, n) (nodes cycleProject) -> id n = k).
  { intros k n H. simpl in H.
    repeat (destruct H as [H | H]; [injection H as <- <-; reflexivity|]).
    contradiction. }
  exact (proj1 (parent_cycle_through_root_overflows sampleUuid ticking 64 None
                  noRunner upper cycleProject 1 Hids eq_refl) 1000 None).
Defined.

(** The chain [root > a > b > c] after the deletion of [a]. *)
Lemma deleted_subtree_witness :
  getNode "c"
    (nodes (nextProject (fst (fst (manageNode sampleUuid ticking
                                     (call_args (deleteCall "a"))
                                     (mkLocals chainProject [] false false [])
                                     liveState)))))
  = Some (plainNode "c" NodeType.TOOL "C" (Some "b")).
Proof.
  assert (Hwf : wf (nextProject (mkLocals chainProject [] false false [])))
    by reflexivity.
  assert (Hroot : "a" <> rootNodeId (nextProject (mkLocals chainProject [] false false [])))
    by discriminate.
  exact (proj1 (proj2
           (deleted_subtree_is_orphaned sampleUuid ticking
              (mkLocals chainProject [] false false []) liveState "a" "c"
              (plainNode "c" NodeType.TOOL "C" (Some "b")) 1
              Hwf Hroot eq_refl eq_refl))).
Defined.

(** ** Simulation and the live store *)

Section SimulationTurns.

Variable uuid : nat -> string.
Variable now : nat -> nat.
Variable stackDepth : nat.
Variable electron : option (string -> string + string).
Variable runJs : string -> Args -> list string * (string + string).
Variable toUpperCase : string -> string.

Lemma handleCall_commit_without_fork (r : AppState) call l :
  simulatedProject r = None ->
  isCommit call = true ->
  forall (X : Type) (f : AppState -> X),
  (forall fn, unchanged f (updateSessionMessages fn)) ->
  unchanged f (dateNow now) ->
  unchanged f (handleCall uuid now electron runJs toUpperCase r call l).
Proof.
  intros Hr Hc X f Hm Hn. unfold isCommit in Hc.
  apply andb_true_iff in Hc. destruct Hc as [Hname Hcommit].
  unfold handleCall. rewrite Hname. unfold manageSimulation.
  destruct (eqStr "start" (action (call_args call))) eqn:Es.
  - unfold eqStr in Es, Hcommit. destruct (action (call_args call)); [|discriminate].
    apply String.eqb_eq in Es. apply String.eqb_eq in Hcommit. congruence.
  - rewrite Hcommit. unfold commitSimulation. rewrite Hr.
    repeat (apply unchanged_bind; [|intros ?]);
      try apply unchanged_ret; try apply Hm; exact Hn.
Qed.

(** X19.  A commit without a fork is no commit, and it cancels its batch.
    When the running render has no fork, a batch whose only simulation
    switches are commits reports [Simulation Committed to Live.] for each
    of them, yet changes neither store, nor the simulation flag, nor the
    active set: the node operations of the batch, although reported as
    successful, are written nowhere. *)
Theorem commit_without_fork_cancels_the_batch (r : AppState) (aiMsgId text : string)
    (currentHistory : list Message) (runtimeProject : ProjectState)
    (stack : list string) (calls : list ToolCall) (st : AppState) :
  simulatedProject r = None ->
  existsb isCommit calls = true ->
  forallb (fun c => negb (isSwitch c) || isCommit c) calls = true ->
  let out := onToolCall uuid now electron runJs toUpperCase r aiMsgId text
               currentHistory runtimeProject stack calls st in
  project (snd out) = project st
  /\ simulatedProject (snd out) = simulatedProject st
  /\ isSimulating (snd out) = isSimulating st
  /\ activeContextIds (snd out) = activeContextIds st
  /\ forall c l' st', isCommit c = true ->
       snd (fst (manageSimulation now r (call_args c) l' st'))
       = "Simulation Committed to Live.".
Proof.
  intros Hr Hcommit Honly out.
  assert (Hswitch : existsb isSwitch calls = true).
  { apply existsb_exists in Hcommit. destruct Hcommit as (c & Hin & Hc).
    apply existsb_exists. exists c. split; [assumption|].
    unfold isCommit in Hc. unfold isSwitch.
    apply andb_true_iff in Hc. destruct Hc as [-> ->].
    now rewrite orb_true_r. }
  assert (Hcalls : forall (X : Type) (f : AppState -> X),
            (forall fn, unchanged f (updateSessionMessages fn)) ->
            unchanged f (dateNow now) -> unchanged f (drawUuid uuid) ->
            forall l, unchanged f (handleCalls uuid now electron runJs toUpperCase
                                     r calls l)).
  { intros X f Hm Hn Hu. clear Hcommit Hswitch out.
    induction calls as [|c rest IH]; intros l; [apply unchanged_ret|].
    simpl in Honly. apply andb_true_iff in Honly. destruct Honly as [Hc Hrest].
    cbn [handleCalls]. apply unchanged_bind; [|intros l'; now apply IH].
    apply orb_true_iff in Hc. destruct Hc as [Hc | Hc].
    - apply negb_true_iff in Hc.
      now apply (unchanged_handleCall_plain uuid now electron runJs toUpperCase X f).
    - now apply handleCall_commit_without_fork. }
  assert (Hout : forall (X : Type) (f : AppState -> X),
            (forall fn, unchanged f (updateSessionMessages fn)) ->
            unchanged f (dateNow now) -> unchanged f (drawUuid uuid) ->
            f (snd out) = f st).
  { intros X f Hm Hn Hu. subst out. unfold onToolCall. rewrite !bind_eq.
    rewrite handleCalls_triggered, Hswitch. cbn [triggeredSimulationChange orb negb].
    rewrite andb_false_r. cbn [ret snd].
    rewrite (Hcalls X f Hm Hn Hu). apply Hm. }
  split; [|split; [|split; [|split]]];
    try (apply Hout; unfold unchanged; reflexivity).
  intros c l' st' Hc. unfold isCommit in Hc.
  apply andb_true_iff in Hc. destruct Hc as [_ Hc].
  unfold manageSimulation.
  destruct (eqStr "start" (action (call_args c))) eqn:Es.
  - unfold eqStr in Es, Hc. destruct (action (call_args c)); [|discriminate].
    apply String.eqb_eq in Es. apply String.eqb_eq in Hc. congruence.
  - rewrite Hc, bind_eq. reflexivity.
Qed.

End SimulationTurns.

(** A tool is created and a commit requested in one batch, on the live
    store. *)
Lemma commit_without_fork_witness :
  project (snd (onToolCall sampleUuid ticking None noRunner upper liveState "1"
                  EmptyString [] DEFAULT_PROJECT ["root"] createAndCommit liveState))
  = project liveState.
Proof.
  exact (proj1 (commit_without_fork_cancels_the_batch sampleUuid ticking None
                  noRunner upper liveState "1" EmptyString [] DEFAULT_PROJECT
                  ["root"] createAndCommit liveState eq_refl eq_refl eq_refl)).
Defined.

(** ** Endpoint of the universal driver *)

(** X20.  Where the chat-completion request goes.  The base URL of the
    node wins over the provider table; the local proxy always gets an
    [http] address; a provider without base URL in the table (among the
    listed ones: huggingface, anthropic and custom) whose node has no base
    URL is sent, with its key, to the OpenAI endpoint; and the endpoint is
    the base URL, less one trailing slash, followed by
    [/chat/completions]. *)
Theorem endpoint_resolution (apiBase provider : option string) :
  (truthy apiBase = true -> eqStr "litellm" provider = false ->
   resolveBaseUrl apiBase provider = show apiBase)
  /\ includes "http" (resolveBaseUrl apiBase (Some "litellm")) = true
  /\ (truthy apiBase = false -> providerBaseUrl provider = None ->
      eqStr "litellm" provider = false ->
      endpoint apiBase provider = "https://api.openai.com/v1/chat/completions")
  /\ map (fun pr => fst pr)
       (filter (fun pr => negb (truthy (snd pr)) && negb (String.eqb (fst pr) "google"))
          PROVIDERS)
     = ["huggingface"; "anthropic"; "custom"]
  /\ exists base,
       endpoint apiBase provider = base ^ "/chat/completions"
       /\ (resolveBaseUrl apiBase provider = base
           \/ resolveBaseUrl apiBase provider = base ^ "/").
Proof.
  split; [|split; [|split; [|split]]].
  - intros Ht Hl. unfold resolveBaseUrl, orOpt. rewrite Ht, Hl. cbn [andb].
    destruct apiBase as [[|c s]|]; try discriminate. reflexivity.
  - unfold resolveBaseUrl. cbn [eqStr]. rewrite String.eqb_refl. cbn [andb].
    destruct (includes "http" (orStr _ _)) eqn:E; [exact E | reflexivity].
  - intros Ht Hp Hl. unfold endpoint, resolveBaseUrl, orOpt. rewrite Ht, Hp, Hl.
    reflexivity.
  - reflexivity.
  - unfold endpoint. exists (stripTrailingSlash (resolveBaseUrl apiBase provider)).
    split; [reflexivity|].
    generalize (resolveBaseUrl apiBase provider) as s.
    induction s as [|c r IH]; [now left|].
    cbn [stripTrailingSlash]. destruct r as [|c' r'].
    + destruct (Ascii.eqb c "/"%char) eqn:E; [|now left].
      apply Ascii.eqb_eq in E. subst c. now right.
    + destruct IH as [IH | IH]; [left | right]; cbn [String.append] in *;
        now rewrite <- IH.
Qed.

(** A node of the anthropic provider without base URL. *)
Lemma endpoint_resolution_witness :
  endpoint None (Some "anthropic") = "https://api.openai.com/v1/chat/completions"
  /\ resolveBaseUrl (Some "http://10.0.0.1:8000/") (Some "openai")
     = "http://10.0.0.1:8000/".
Proof.
  split.
  - exact (proj1 (proj2 (proj2 (endpoint_resolution None (Some "anthropic"))))
             eq_refl eq_refl eq_refl).
  - exact (proj1 (endpoint_resolution (Some "http://10.0.0.1:8000/") (Some "openai"))
             eq_refl eq_refl).
Defined.

(** ** The active set *)

Lemma existsb_mem (k : string) (s : list string) :
  existsb (String.eqb k) s = true <-> In k s.
Proof.
  rewrite existsb_exists. split.
  - intros (x & Hx & E). apply String.eqb_eq in E. now subst.
  - intros H. exists k. split; [assumption | apply String.eqb_refl].
Qed.

Lemma existsb_mem_ext (k : string) (s1 s2 : list string) :
  (In k s1 <-> In k s2) -> existsb (String.eqb k) s1 = existsb (String.eqb k) s2.
Proof.
  intros H.
  destruct (existsb (String.eqb k) s1) eqn:E1;
    destruct (existsb (String.eqb k) s2) eqn:E2; try reflexivity.
  - apply existsb_mem, H, existsb_mem in E1. congruence.
  - apply existsb_mem, H, existsb_mem in E2. congruence.
Qed.

(** The traversal reads the active set at the stored nodes only. *)
Lemma traverse_ext (p : ProjectState) (a1 a2 : option (list string)) :
  (forall k n, getNode k (nodes p) = Some n ->
               shouldInclude p a1 k = shouldInclude p a2 k) ->
  forall fuel k acc, traverse fuel p a1 k acc = traverse fuel p a2 k acc.
Proof.
  intros H. induction fuel as [|f IH]; intros k acc; [reflexivity|].
  cbn [traverse]. destruct (getNode k (nodes p)) as [node|] eqn:Hn; [|reflexivity].
  rewrite (H k node Hn).
  generalize (Some (if shouldInclude p a2 k then describe node acc else acc)) as init.
  generalize (childrenOf p k) as cs.
  induction cs as [|c rest IHcs]; intros init; [reflexivity|].
  cbn [fold_left]. destruct init as [x|]; [rewrite IH|]; apply IHcs.
Qed.

Lemma collectContext_ext (p : ProjectState) (a1 a2 : option (list string)) :
  (forall k n, getNode k (nodes p) = Some n ->
               shouldInclude p a1 k = shouldInclude p a2 k) ->
  forall fuel, collectContext fuel p a1 = collectContext fuel p a2.
Proof.
  intros H fuel. unfold collectContext.
  destruct (getNode (rootNodeId p) (nodes p)); [|reflexivity].
  now rewrite (traverse_ext p a1 a2 H).
Qed.

Lemma toggle_In (k x : string) (s : list string) :
  In x (toggle k s) <-> (x <> k /\ In x s) \/ (x = k /\ ~ In k s).
Proof.
  unfold toggle. destruct (existsb (String.eqb k) s) eqn:E.
  - apply existsb_mem in E. rewrite filter_In, negb_true_iff, String.eqb_neq.
    split; [intros [H1 H2]; now left|].
    intros [[H1 H2] | [H1 H2]]; [now split | contradiction].
  - assert (Hk : ~ In k s).
    { intros Hin. apply existsb_mem in Hin. congruence. }
    rewrite in_app_iff. simpl. split.
    + intros [H | [<- | []]]; [left | right]; [|now split].
      split; [|assumption]. intros ->. contradiction.
    + intros [[H1 H2] | [-> H2]]; [now left | right; now left].
Qed.

(** X21.  The active set is a set, and the root is always in it.  The
    context depends on the active stack only through membership, so its
    order and repetitions do not matter; toggling an identifier twice
    gives the context back although the stack may have changed; toggling
    the root changes nothing; and the initial stack of all keys gives the
    context of no filter at all. *)
Theorem active_set_is_a_set (fuel : nat) (p : ProjectState) (s : list string) :
  (forall s', (forall k, In k s <-> In k s') ->
              collectContext fuel p (Some s) = collectContext fuel p (Some s'))
  /\ (forall k, collectContext fuel p (Some (toggle k (toggle k s)))
                = collectContext fuel p (Some s))
  /\ collectContext fuel p (Some (toggle (rootNodeId p) s))
     = collectContext fuel p (Some s)
  /\ collectContext fuel p (Some (initialStack p)) = collectContext fuel p None
  /\ forall k st, activeContextIds (snd (toggleContextId k st))
                  = toggle k (activeContextIds st).
Proof.
  assert (Hmem : forall s1 s2, (forall k, In k s1 <-> In k s2) ->
            collectContext fuel p (Some s1) = collectContext fuel p (Some s2)).
  { intros s1 s2 H. apply collectContext_ext. intros k n _.
    cbn [shouldInclude]. now rewrite (existsb_mem_ext k s1 s2 (H k)). }
  split; [apply Hmem|]. split; [|split; [|split]].
  - intros k. apply Hmem. intros x. rewrite !toggle_In.
    destruct (String.eqb_spec x k) as [-> | Hne]; [|tauto].
    assert (Hk : k = k) by reflexivity.
    destruct (in_dec string_dec k s) as [Hin | Hout]; tauto.
  - apply collectContext_ext. intros k n _. cbn [shouldInclude].
    destruct (String.eqb_spec k (rootNodeId p)) as [-> | Hne];
      [now rewrite !orb_true_r|].
    rewrite !orb_false_r. apply existsb_mem_ext. rewrite toggle_In. tauto.
  - apply collectContext_ext. intros k n Hn. cbn [shouldInclude].
    apply orb_true_iff. left. apply existsb_mem. unfold initialStack.
    apply getNode_In in Hn. change k with (fst (k, n)). now apply in_map.
  - reflexivity.
Qed.

(** Two stacks of the default project with the same members. *)
Lemma active_set_witness :
  collectContext 64 DEFAULT_PROJECT (Some ["agent_core"; "mem_readme"])
  = collectContext 64 DEFAULT_PROJECT
      (Some ["mem_readme"; "agent_core"; "mem_readme"]).
Proof.
  apply (proj1 (active_set_is_a_set 64 DEFAULT_PROJECT ["agent_core"; "mem_readme"])).
  intros k. simpl. tauto.
Defined.

(** ** Chat sessions *)

Lemma filter_removes_all (k : string) (l : list Sessions.ChatSession) :
  (forall s, In s l -> Sessions.id s = k) ->
  filter (fun s => negb (String.eqb (Sessions.id s) k)) l = [].
Proof.
  induction l as [|s r IH]; intros H; [reflexivity|]. simpl.
  rewrite (H s (or_introl eq_refl)), String.eqb_refl. simpl.
  apply IH. intros x Hx. apply H. now right.
Qed.

(** X22.  Deleting a conversation leaves a valid state.  When the active
    identifier names a stored conversation, it still does after any
    delete, the list is not empty and the active conversation is the one
    the identifier names; a delete of another conversation keeps the
    active one; and as soon as another conversation remains, the deleted
    identifier is gone and the others keep their order. *)
Theorem deleting_a_session_keeps_one_active (st : Sessions.State)
    (k newId : string) (t1 t2 : nat) :
  In (Sessions.activeSessionId st) (map Sessions.id (Sessions.sessions st)) ->
  let st' := Sessions.handleDeleteSession st k newId t1 t2 st in
  Sessions.sessions st' <> []
  /\ In (Sessions.activeSessionId st') (map Sessions.id (Sessions.sessions st'))
  /\ (exists s, Sessions.activeSession st' = Some s
                /\ Sessions.id s = Sessions.activeSessionId st')
  /\ (Sessions.activeSessionId st <> k ->
      Sessions.activeSessionId st' = Sessions.activeSessionId st)
  /\ ((exists s, In s (Sessions.sessions st) /\ Sessions.id s <> k) ->
      Sessions.sessions st'
      = filter (fun s => negb (String.eqb (Sessions.id s) k)) (Sessions.sessions st)
      /\ ~ In k (map Sessions.id (Sessions.sessions st'))).
Proof.
  intros Hactive st'.
  assert (Hvalid : Sessions.sessions st' <> []
                   /\ In (Sessions.activeSessionId st')
                        (map Sessions.id (Sessions.sessions st'))).
  { subst st'. unfold Sessions.handleDeleteSession.
    destruct (filter _ (Sessions.sessions st)) as [|first rest] eqn:E.
    - simpl. split; [discriminate | now left].
    - cbn [Sessions.sessions Sessions.activeSessionId]. split; [discriminate|].
      destruct (String.eqb_spec (Sessions.activeSessionId st) k) as [Heq | Hne].
      + now left.
      + rewrite <- E. apply in_map_iff in Hactive.
        destruct Hactive as (s & Hs & Hin). apply in_map_iff. exists s.
        split; [assumption|]. apply filter_In. split; [assumption|].
        apply negb_true_iff, String.eqb_neq. congruence. }
  destruct Hvalid as [Hne Hin].
  split; [exact Hne|]. split; [exact Hin|]. split; [|split].
  - unfold Sessions.activeSession.
    destruct (find _ (Sessions.sessions st')) as [s|] eqn:E.
    + exists s. split; [reflexivity|]. apply find_some in E.
      now apply String.eqb_eq.
    + exfalso. apply in_map_iff in Hin. destruct Hin as (s & Hs & Hin).
      pose proof (find_none _ _ E s Hin) as Hno. cbv beta in Hno.
      rewrite Hs, String.eqb_refl in Hno. discriminate.
  - intros Hk. subst st'. unfold Sessions.handleDeleteSession.
    destruct (filter _ (Sessions.sessions st)) as [|first rest] eqn:E.
    + exfalso. apply in_map_iff in Hactive. destruct Hactive as (s & Hs & Hs').
      assert (Hf : In s (filter (fun s => negb (String.eqb (Sessions.id s) k))
                           (Sessions.sessions st))).
      { apply filter_In. split; [assumption|].
        apply negb_true_iff, String.eqb_neq. congruence. }
      rewrite E in Hf. contradiction.
    + cbn [Sessions.activeSessionId].
      destruct (String.eqb_spec (Sessions.activeSessionId st) k); [contradiction|].
      reflexivity.
  - intros (s & Hs & Hsk). subst st'. unfold Sessions.handleDeleteSession.
    destruct (filter _ (Sessions.sessions st)) as [|first rest] eqn:E.
    + exfalso.
      assert (Hf : In s (filter (fun s => negb (String.eqb (Sessions.id s) k))
                           (Sessions.sessions st))).
      { apply filter_In. split; [assumption|].
        now apply negb_true_iff, String.eqb_neq. }
      rewrite E in Hf. contradiction.
    + cbn [Sessions.sessions]. split; [reflexivity|]. rewrite <- E.
      intros Hk. apply in_map_iff in Hk. destruct Hk as (x & Hx & Hxin).
      apply filter_In in Hxin. destruct Hxin as [_ Hxk].
      apply negb_true_iff, String.eqb_neq in Hxk. contradiction.
Qed.

(** X23.  Deleting the only conversation does not delete it.  When every
    stored conversation has the identifier to delete, the handler opens a
    new conversation in FRONT of the stored ones: the conversation and
    its messages stay in the list (and in what the save effect writes). *)
Theorem deleting_the_only_session_keeps_it (st : Sessions.State)
    (k newId : string) (t1 t2 : nat) :
  (forall s, In s (Sessions.sessions st) -> Sessions.id s = k) ->
  let st' := Sessions.handleDeleteSession st k newId t1 t2 st in
  Sessions.sessions st'
  = Sessions.mkSession newId "New Session" [] t1 t2 :: Sessions.sessions st
  /\ Sessions.activeSessionId st' = newId
  /\ forall s, In s (Sessions.sessions st) -> In s (Sessions.sessions st').
Proof.
  intros Hall st'. subst st'. unfold Sessions.handleDeleteSession.
  rewrite (filter_removes_all k _ Hall). simpl.
  split; [reflexivity|]. split; [reflexivity|]. intros s Hs. now right.
Qed.

(** The first of two conversations is deleted. *)
Lemma deleting_a_session_witness :
  Sessions.activeSessionId
    (Sessions.handleDeleteSession twoSessions "s1" "n1" 5 6 twoSessions) = "s2"
  /\ ~ In "s1" (map Sessions.id
                  (Sessions.sessions
                     (Sessions.handleDeleteSession twoSessions "s1" "n1" 5 6
                        twoSessions))).
Proof.
  assert (Hactive : In (Sessions.activeSessionId twoSessions)
                      (map Sessions.id (Sessions.sessions twoSessions)))
    by (left; reflexivity).
  split; [reflexivity|].
  apply (proj2 (proj2 (proj2 (proj2
           (deleting_a_session_keeps_one_active twoSessions "s1" "n1" 5 6
              Hactive))))).
  exists (Sessions.mkSession "s2" "Second" [] 1 1). split; [|discriminate].
  right. now left.
Defined.

(** The only conversation is deleted. *)
Lemma deleting_the_only_session_witness :
  In (Sessions.mkSession "default" "Plans"
        [mkMessage "1" USER "secret plans" None None None] 0 0)
     (Sessions.sessions
        (Sessions.handleDeleteSession oneSession "default" "n1" 5 6 oneSession)).
Proof.
  assert (Hall : forall s, In s (Sessions.sessions oneSession) ->
                           Sessions.id s = "default").
  { intros s [<- | []]. reflexivity. }
  apply (proj2 (proj2 (deleting_the_only_session_keeps_it oneSession "default"
                         "n1" 5 6 Hall))).
  now left.
Defined.

(** ** Manual node creation *)

Lemma WF_selected (p : ProjectState) (s : string) :
  WF p -> WF (mkProject (rootNodeId p) (nodes p) s).
Proof. intros [H1 H2 H3 H4 H5 H6]. constructor; assumption. Qed.

(** X24.  [createNode] keeps the tree.  On a well-formed active store and
    with a new identifier, the node is added to the store the render
    considers active, selected, and put in the active set; the store is
    still a tree; the parent is a stored node that is no memory (or the
    root); and while simulating the live store is not touched. *)
Theorem createNode_keeps_the_tree (uuid : nat -> string) (now : nat -> nat)
    (st : AppState) (ty : string) :
  wf (activeProject st) ->
  (isSimulating st = true -> simulatedProject st <> None) ->
  getNode (uuid (drawn st)) (nodes (activeProject st)) = None ->
  exists st' n parent,
    createNode uuid now st ty st = Some st'
    /\ wf (activeProject st')
    /\ selectedNodeId (activeProject st') = uuid (drawn st)
    /\ activeContextIds st' = activeContextIds st ++ [uuid (drawn st)]
    /\ getNode (uuid (drawn st)) (nodes (activeProject st')) = Some n
    /\ type n = Some ty
    /\ parentId n = Some (id parent)
    /\ getNode (id parent) (nodes (activeProject st)) = Some parent
    /\ (isMemory parent = false \/ id parent = rootNodeId (activeProject st))
    /\ (isSimulating st = true -> project st' = project st).
Proof.
  intros Hwf Hfork Hfresh. apply wf_spec in Hwf.
  set (p := activeProject st) in *. set (newId := uuid (drawn st)) in *.
  assert (Hparent : exists parent,
            fst (nestUnder p) = id parent
            /\ getNode (id parent) (nodes p) = Some parent
            /\ (isMemory parent = false \/ id parent = rootNodeId p)).
  { destruct (wf_root p Hwf) as (rootNode & Hroot & _).
    assert (Hrid : id rootNode = rootNodeId p).
    { apply (wf_ids p Hwf). now apply getNode_In. }
    assert (Hdefault : exists parent,
              rootNodeId p = id parent
              /\ getNode (id parent) (nodes p) = Some parent
              /\ (isMemory parent = false \/ id parent = rootNodeId p)).
    { exists rootNode. rewrite Hrid. auto. }
    unfold nestUnder.
    destruct (getNode (selectedNodeId p) (nodes p)) as [selected|] eqn:Hs;
      [|exact Hdefault].
    destruct (eqStr NodeType.AGENT (type selected) || _ || _ || _)%bool eqn:E;
      [|exact Hdefault].
    assert (Hsid : id selected = selectedNodeId p).
    { apply (wf_ids p Hwf). now apply getNode_In. }
    exists selected. cbn [fst]. split; [reflexivity|]. rewrite Hsid.
    split; [assumption|]. left.
    unfold isMemory, eqStr in *. destruct (type selected) as [t|]; [|reflexivity].
    destruct (String.eqb_spec t NodeType.MEMORY) as [-> | Hne]; [|reflexivity].
    discriminate. }
  destruct Hparent as (parent & Hnest & Hstored & Hkind).
  set (n := manualNode newId (id parent) ty).
  assert (Hinsert : WF (insertSelected newId n p)).
  { unfold insertSelected.
    apply (WF_selected (withNodes p (setNode newId n (nodes p))) newId).
    apply WF_add_child with (parent := id parent); try reflexivity;
      [assumption | assumption | congruence]. }
  assert (Hactive : forall st', activeProject st' = insertSelected newId n p ->
            wf (activeProject st')
            /\ selectedNodeId (activeProject st') = newId
            /\ getNode newId (nodes (activeProject st')) = Some n).
  { intros st' ->. split; [now apply wf_spec|]. split; [reflexivity|].
    cbn [insertSelected nodes]. apply getNode_setNode_same. }
  unfold createNode. fold p.
  change (drawUuid uuid st) with (newId, snd (drawUuid uuid st)). cbv iota beta.
  destruct (nestUnder p) as [parentKey parentName] eqn:Enest.
  cbn [fst] in Hnest. subst parentKey. fold n.
  change (simulatedProject (snd (drawUuid uuid st))) with (simulatedProject st).
  change (project (snd (drawUuid uuid st))) with (project st).
  destruct (isSimulating st) eqn:Esim.
  - destruct (simulatedProject st) as [sp|] eqn:Esp; [|now destruct (Hfork eq_refl)].
    assert (Hp : p = sp) by (unfold p, activeProject; now rewrite Esim, Esp).
    eexists _, n, parent. split; [reflexivity|].
    match goal with |- wf (activeProject ?s) /\ _ =>
      destruct (Hactive s) as (H1 & H2 & H3) end.
    { unfold activeProject. cbn [addLog bind dateNow updateSessionMessages
        setActiveContextIds setSimulatedProject drawUuid snd fst isSimulating
        simulatedProject project]. rewrite Esim. now rewrite Hp. }
    split; [exact H1|]. split; [exact H2|]. split; [reflexivity|].
    split; [exact H3|]. split; [reflexivity|]. split; [reflexivity|].
    split; [exact Hstored|]. split; [exact Hkind|]. intros _. reflexivity.
  - assert (Hp : p = project st) by (unfold p, activeProject; now rewrite Esim).
    eexists _, n, parent. split; [reflexivity|].
    match goal with |- wf (activeProject ?s) /\ _ =>
      destruct (Hactive s) as (H1 & H2 & H3) end.
    { unfold activeProject. cbn [addLog bind dateNow updateSessionMessages
        setActiveContextIds setProject drawUuid snd fst isSimulating
        simulatedProject project]. rewrite Esim. now rewrite Hp. }
    split; [exact H1|]. split; [exact H2|]. split; [reflexivity|].
    split; [exact H3|]. split; [reflexivity|]. split; [reflexivity|].
    split; [exact Hstored|]. split; [exact Hkind|]. discriminate.
Qed.

(** A tool is created by hand while the root of the default project is
    selected. *)
Lemma createNode_witness :
  exists st',
    createNode sampleUuid ticking liveState NodeType.TOOL liveState = Some st'
    /\ wf (activeProject st').
Proof.
  assert (Hfork : isSimulating liveState = true -> simulatedProject liveState <> None)
    by discriminate.
  destruct (createNode_keeps_the_tree sampleUuid ticking liveState NodeType.TOOL
              eq_refl Hfork eq_refl) as (st' & n & parent & H1 & H2 & _).
  exists st'. split; assumption.
Defined.

(** ** The whole history on the wire *)

Lemma mapi_names (mid : string) (stringify : Args -> string) (calls : list ToolCall) :
  forall k,
  map wc_name
    (mapi (fun tc i => mkWireCall (callId mid i) (call_name tc)
                         (stringify (call_args tc))) k calls)
  = map call_name calls.
Proof.
  induction calls as [|c r IH]; intros k; simpl; [reflexivity | now rewrite IH].
Qed.

Lemma mapMessage_mapsTo stringify st m st' :
  mapMessage stringify st m = Some st' ->
  exists c, mapped st' = mapped st ++ [c] /\ mapsTo m c.
Proof.
  unfold mapMessage, mapsTo.
  destruct (role m) eqn:Er; destruct (toolCalls m) as [tcs|] eqn:Et;
    try (intros [= <-]; eexists; split; [reflexivity|]; reflexivity).
  - intros [= <-]. eexists. split; [reflexivity|]. cbn [mapped].
    eexists _, _. split; [reflexivity|]. split.
    + apply mapi_names.
    + destruct (msg_content m); simpl; split; congruence.
  - destruct (toolResponse m) as [tr|]; [|discriminate].
    intros [= <-]. eexists. split; [reflexivity|]. eexists _, tr. split; reflexivity.
  - destruct (toolResponse m) as [tr|]; [|discriminate].
    intros [= <-]. eexists. split; [reflexivity|]. eexists _, tr. split; reflexivity.
Qed.

Lemma mapMessage_None stringify st m :
  mapMessage stringify st m = None <-> role m = TOOL_ROLE /\ toolResponse m = None.
Proof.
  unfold mapMessage.
  destruct (role m); destruct (toolCalls m); destruct (toolResponse m);
    split; try discriminate; try (intros [H1 H2]; discriminate); auto.
Qed.

Lemma mapHistory_mapsTo stringify history :
  forall st,
  match mapHistory stringify st history with
  | Some st' => exists rest, mapped st' = mapped st ++ rest
                             /\ Forall2 mapsTo history rest
  | None => exists m, In m history /\ role m = TOOL_ROLE /\ toolResponse m = None
  end.
Proof.
  induction history as [|m r IH]; intros st; cbn [mapHistory].
  - exists []. split; [now rewrite app_nil_r | constructor].
  - destruct (mapMessage stringify st m) as [st1|] eqn:E.
    + destruct (mapMessage_mapsTo _ _ _ _ E) as (c & Hc & Hm).
      specialize (IH st1). destruct (mapHistory stringify st1 r) as [st'|].
      * destruct IH as (rest & Hrest & Hall). exists (c :: rest). split.
        -- rewrite Hrest, Hc, <- app_assoc. reflexivity.
        -- now constructor.
      * destruct IH as (x & Hin & Hx). exists x. split; [now right | assumption].
    + apply mapMessage_None in E. exists m. split; [now left | assumption].
Qed.

(** X25.  The messages of the chat-completion request.  The system
    instruction comes first, then exactly one message per message of the
    history, in order: a user message as [user], a model message with tool
    calls as an assistant message with one call per tool call and a null
    content when its text is empty, a tool message as a tool message, and
    everything else, the log lines of the terminal included, as
    [assistant]; the mapping fails exactly when a tool message has no
    response; a tool result that no batch precedes is tied to
    [call__0]. *)
Theorem universalMessages_shape (stringify : Args -> string)
    (systemInstruction : string) (history : list Message) :
  (universalMessages stringify systemInstruction history = None <->
   exists m, In m history /\ role m = TOOL_ROLE /\ toolResponse m = None)
  /\ (forall ms,
        universalMessages stringify systemInstruction history = Some ms ->
        exists rest,
          ms = SystemMessage systemInstruction :: rest
          /\ Forall2 mapsTo history rest)
  /\ (forall m tr later,
        history = m :: later -> role m = TOOL_ROLE -> toolResponse m = Some tr ->
        forall ms,
        universalMessages stringify systemInstruction history = Some ms ->
        nth_error ms 1 = Some (ToolMessage "call__0" (resp_content tr))).
Proof.
  unfold universalMessages.
  pose proof (mapHistory_mapsTo stringify history
                (mkMapping [SystemMessage systemInstruction] [] EmptyString)) as H.
  split; [|split].
  - destruct (mapHistory _ _ history) as [st'|] eqn:E; simpl.
    + split; [discriminate|]. intros (m & Hin & Hr & Ht).
      exfalso. clear H. revert E.
      generalize (mkMapping [SystemMessage systemInstruction] [] EmptyString).
      induction history as [|x r IH]; [contradiction|]. intros st0. cbn [mapHistory].
      destruct (mapMessage stringify st0 x) as [st1|] eqn:Ex; [|discriminate].
      destruct Hin as [-> | Hin]; [|now apply IH].
      assert (Hn : mapMessage stringify st0 m = None) by now apply mapMessage_None.
      congruence.
    + split; [intros _; exact H | reflexivity].
  - intros ms. destruct (mapHistory _ _ history) as [st'|]; [|discriminate].
    simpl. intros [= <-]. destruct H as (rest & Hrest & Hall).
    exists rest. split; assumption.
  - intros m tr later -> Hr Ht ms. cbn [mapHistory]. unfold mapMessage at 1.
    rewrite Hr, Ht. cbn [lastModelToolCalls lastModelMsgId findIndex mapped app].
    match goal with |- context [mapHistory stringify ?s later] =>
      pose proof (mapHistory_mapsTo stringify later s) as Hl;
      destruct (mapHistory stringify s later) as [st'|]; [|discriminate]
    end.
    simpl. intros [= <-]. destruct Hl as (rest & -> & _). reflexivity.
Qed.

(** A history of a user message and a log line; a history that starts
    with a tool result. *)
Lemma universalMessages_witness :
  (exists rest,
     universalMessages noStringify "sys"
       [mkMessage "1" USER "hello" None None None; logLine]
     = Some (SystemMessage "sys" :: rest)
     /\ Forall2 mapsTo [mkMessage "1" USER "hello" None None None; logLine] rest)
  /\ exists ms,
       universalMessages noStringify "sys" batchResults = Some ms
       /\ nth_error ms 1 = Some (ToolMessage "call__0" "12:00").
Proof.
  split.
  - destruct (proj1 (proj2 (universalMessages_shape noStringify "sys"
                              [mkMessage "1" USER "hello" None None None; logLine]))
                _ eq_refl) as (rest & Hrest & Hall).
    exists rest. split; [|exact Hall]. now rewrite <- Hrest.
  - eexists. split; [reflexivity|].
    exact (proj2 (proj2 (universalMessages_shape noStringify "sys" batchResults))
             _ _ _ eq_refl eq_refl eq_refl _ eq_refl).
Defined.

(** ** Turns of delegated calls *)

Section DelegatedTurns.

Variable uuid : nat -> string.
Variable now : nat -> nat.
Variable stackDepth : nat.
Variable electron : option (string -> string + string).
Variable runJs : string -> Args -> list string * (string + string).
Variable toUpperCase : string -> string.

Lemma isDelegated_plain call : isDelegated call = true -> isSwitch call = false.
Proof.
  unfold isDelegated, isSwitch. intros H. apply andb_true_iff in H.
  destruct H as [H _]. apply negb_true_iff in H. now rewrite H.
Qed.

Lemma handleCall_delegated (r : AppState) call l st :
  isDelegated call = true ->
  let l' := fst (handleCall uuid now electron runJs toUpperCase r call l st) in
  nextProject l' = nextProject l /\ nextStack l' = nextStack l
  /\ modified l' = modified l.
Proof.
  unfold isDelegated. intros H. apply andb_true_iff in H. destruct H as [H1 H2].
  apply negb_true_iff in H1. apply negb_true_iff in H2.
  unfold handleCall. rewrite H1, H2. rewrite !bind_eq. cbn [ret fst pushHistory
    nextProject nextStack modified].
  rewrite runtimeExecutor_locals. repeat split.
Qed.

Lemma handleCalls_delegated (r : AppState) calls :
  forallb isDelegated calls = true ->
  forall l st,
  let l' := fst (handleCalls uuid now electron runJs toUpperCase r calls l st) in
  nextProject l' = nextProject l /\ nextStack l' = nextStack l
  /\ modified l' = modified l.
Proof.
  induction calls as [|c rest IH]; intros Hall l st; [repeat split|].
  simpl in Hall. apply andb_true_iff in Hall. destruct Hall as [Hc Hrest].
  cbn [handleCalls]. rewrite bind_eq.
  destruct (IH Hrest (fst (handleCall uuid now electron runJs toUpperCase r c l st))
              (snd (handleCall uuid now electron runJs toUpperCase r c l st)))
    as (H1 & H2 & H3).
  destruct (handleCall_delegated r c l st Hc) as (G1 & G2 & G3).
  cbv zeta in *. rewrite H1, H2, H3. auto.
Qed.

Lemma existsb_switch_delegated calls :
  forallb isDelegated calls = true -> existsb isSwitch calls = false.
Proof.
  induction calls as [|c rest IH]; [reflexivity|]. simpl. intros H.
  apply andb_true_iff in H. destruct H as [Hc Hrest].
  now rewrite (isDelegated_plain c Hc), IH.
Qed.

Lemma withNodes_same (p : ProjectState) : withNodes p (nodes p) = p.
Proof. now destruct p. Qed.

(** With tool runs as the runner of the model gives them, a value per run,
    a turn of delegated calls makes one request per batch plus one, all of
    them with the same context, ends when the backend completes, and leaves
    both stores and the active set as they were. *)
Lemma delegated_phases_unchanged (r : AppState)
    (batches : list (string * list ToolCall)) (final : string) (ctx : Context) :
  forallb (fun b => forallb isDelegated (snd b)) batches = true ->
  forall (history : list Message) (filter : option (list string))
         (override : option ProjectState) (st : AppState),
  getNode (rootNodeId (match override with Some p => p | None => activeProject r end))
    (nodes (match override with Some p => p | None => activeProject r end)) <> None ->
  collectContext stackDepth
    (match override with Some p => p | None => activeProject r end)
    (Some (match filter with Some s => s | None => activeContextIds r end))
  = Some ctx ->
  let out := processChatTurn uuid now stackDepth electron runJs toUpperCase r
               (phases batches final) history filter override st in
  fst (fst out) = EndCompleted
  /\ map fst (snd (fst out)) = repeat ctx (S (List.length batches))
  /\ project (snd out) = project st
  /\ simulatedProject (snd out) = simulatedProject st
  /\ activeContextIds (snd out) = activeContextIds st.
Proof.
  unfold phases.
  induction batches as [|[text calls] rest IH];
    intros Hall history filter override st Hroot Hctx.
  - cbn [map app processChatTurn]. rewrite !bind_eq.
    destruct (getNode _ _); [|congruence]. rewrite Hctx. rewrite !bind_eq.
    unfold onChunk. destruct (truthy (Some final)); repeat split.
  - simpl in Hall. apply andb_true_iff in Hall. destruct Hall as [Hcalls Hrest].
    cbn [map app processChatTurn fst snd]. rewrite !bind_eq.
    destruct (getNode _ _) eqn:Hr; [|congruence]. rewrite Hctx. rewrite !bind_eq.
    cbn [ret fst snd].
    set (rp := match override with Some p => p | None => activeProject r end) in *.
    set (stack := match filter with Some s => s | None => activeContextIds r end) in *.
    match goal with |- context [onToolCall _ _ _ _ _ r ?a ?t ?h rp stack calls ?s0] =>
      set (batch := onToolCall uuid now electron runJs toUpperCase r a t h rp stack
                      calls s0);
      assert (Hbatch : nextProject (fst batch) = rp /\ nextStack (fst batch) = stack
                       /\ project (snd batch) = project s0
                       /\ simulatedProject (snd batch) = simulatedProject s0
                       /\ activeContextIds (snd batch) = activeContextIds s0)
    end.
    { subst batch. unfold onToolCall. rewrite !bind_eq. cbn [ret fst snd].
      rewrite withNodes_same.
      match goal with |- context [handleCalls _ _ _ _ _ r calls ?l0 ?s1] =>
        destruct (handleCalls_delegated r calls Hcalls l0 s1) as (H1 & H2 & H3);
        pose proof (handleCalls_triggered uuid now electron runJs toUpperCase r
                      calls l0 s1) as H4;
        pose proof (fun (X : Type) (f : AppState -> X) Hm Hn Hu =>
                      unchanged_handleCalls_plain uuid now electron runJs toUpperCase
                        X f Hm Hn Hu r calls (existsb_switch_delegated calls Hcalls)
                        l0 s1) as Hsame
      end.
      cbv zeta in H1, H2, H3. cbn [nextProject nextStack modified
        triggeredSimulationChange] in H1, H2, H3, H4.
      rewrite H3. cbn [andb ret snd]. rewrite H1, H2.
      split; [reflexivity|]. split; [reflexivity|].
      split; [|split].
      + rewrite (Hsame _ project); [reflexivity | unfold unchanged; reflexivity ..].
      + rewrite (Hsame _ simulatedProject);
          [reflexivity | unfold unchanged; reflexivity ..].
      + rewrite (Hsame _ activeContextIds);
          [reflexivity | unfold unchanged; reflexivity ..]. }
    destruct Hbatch as (Hp & Hs & Hlive & Hfork & Hactive).
    specialize (IH Hrest (newHistory (fst batch)) (Some (nextStack (fst batch)))
                  (Some (nextProject (fst batch))) (snd batch)).
    cbv zeta in IH. rewrite Hp, Hs in IH. fold rp in Hr.
    destruct IH as (E1 & E2 & E3 & E4 & E5); [congruence | exact Hctx |].
    rewrite Hp, Hs. split; [exact E1|]. split.
    { cbn [map fst repeat]. cbn [repeat] in E2. now rewrite E2. }
    rewrite E3, E4, E5, Hlive, Hfork, Hactive.
    unfold onChunk. destruct (truthy (Some text)); repeat split.
Qed.

Lemma forallb_unknown_delegated (p : ProjectState)
    (batches : list (string * list ToolCall)) :
  forallb (fun b => forallb (isUnknown p) (snd b)) batches = true ->
  forallb (fun b => forallb isDelegated (snd b)) batches = true.
Proof.
  clear. intros H. rewrite forallb_forall in *. intros b Hb.
  specialize (H b Hb). rewrite forallb_forall in *. intros c Hc.
  specialize (H c Hc). unfold isUnknown in H. apply andb_true_iff in H. tauto.
Qed.

(** X26.  The loop has no bound of its own.  When every call of every
    batch names a tool that the store of the turn does not define, no tool
    code runs: the turn makes one request per batch plus one, all of them
    with the same context, ends when the backend completes, and leaves both
    stores and the active set as they were. *)
Theorem delegated_phases_repeat_the_context (r : AppState)
    (batches : list (string * list ToolCall)) (final : string) (ctx : Context)
    (history : list Message) (filter : option (list string))
    (override : option ProjectState) (st : AppState) :
  forallb (fun b =>
             forallb (isUnknown (match override with
                                 | Some p => p
                                 | None => activeProject r
                                 end)) (snd b)) batches = true ->
  getNode (rootNodeId (match override with Some p => p | None => activeProject r end))
    (nodes (match override with Some p => p | None => activeProject r end)) <> None ->
  collectContext stackDepth
    (match override with Some p => p | None => activeProject r end)
    (Some (match filter with Some s => s | None => activeContextIds r end))
  = Some ctx ->
  let out := processChatTurn uuid now stackDepth electron runJs toUpperCase r
               (phases batches final) history filter override st in
  fst (fst out) = EndCompleted
  /\ map fst (snd (fst out)) = repeat ctx (S (List.length batches))
  /\ project (snd out) = project st
  /\ simulatedProject (snd out) = simulatedProject st
  /\ activeContextIds (snd out) = activeContextIds st.
Proof.
  intros Hall Hroot Hctx.
  apply delegated_phases_unchanged; [|assumption..].
  exact (forallb_unknown_delegated _ _ Hall).
Qed.

End DelegatedTurns.

(** Three phases of calls to a tool the default project does not have. *)
Lemma delegated_phases_witness :
  List.length
    (snd (fst (processChatTurn sampleUuid ticking 64 None noRunner upper liveState
                 (phases [(EmptyString, [mkCall "Get_Time" noArgs]);
                          (EmptyString, [mkCall "Get_Time" noArgs]);
                          (EmptyString, [mkCall "Get_Time" noArgs])] "done")
                 [] None None liveState))) = 4.
Proof.
  destruct (collectContext 64 DEFAULT_PROJECT (Some (activeContextIds liveState)))
    as [ctx|] eqn:E; [|vm_compute in E; discriminate].
  assert (Hroot : getNode (rootNodeId (activeProject liveState))
                    (nodes (activeProject liveState)) <> None) by discriminate.
  pose proof (delegated_phases_repeat_the_context sampleUuid ticking 64 None noRunner
                upper liveState
                [(EmptyString, [mkCall "Get_Time" noArgs]);
                 (EmptyString, [mkCall "Get_Time" noArgs]);
                 (EmptyString, [mkCall "Get_Time" noArgs])] "done" ctx
                [] None None liveState eq_refl Hroot E) as H.
  cbv zeta in H. destruct H as (_ & H & _).
  apply (f_equal (@List.length Context)) in H. rewrite length_map in H.
  exact H.
Defined.

(** ** Structure of the node tree under the node manager and the inspector *)













(** The parent selector of the inspector excludes the node and its direct
    children only: a grandchild is offered, and choosing it closes a
    cycle. *)
Lemma inspector_offers_grandchild :
  wfb chainProject = true
  /\ exists p', reparent chainProject "a" "c" = Some p' /\ wfb p' = false.
Proof. split; [reflexivity|]. eexists. split; reflexivity. Qed.



(** ** The loop on calls as delivered *)

(** *** Calls that carry an argument object: the two loops agree *)

Section RawAgreement.

Variable uuid : nat -> string.
Variable now : nat -> nat.
Variable stackDepth : nat.
Variable electron : option (string -> string + string).
Variable runJs : string -> CallArgs -> list string * (string + string).
Variable toUpperCase : string -> string.

Lemma recorded_rawCall (calls : list ToolCall) :
  map Raw.recorded (map rawCall calls) = calls.
Proof.
  induction calls as [|[n a] rest IH]; [reflexivity|].
  cbn [map rawCall Raw.recorded Raw.raw_name Raw.raw_args call_name call_args].
  now rewrite IH.
Qed.

Lemma raw_handleCall_object (r : AppState) (c : ToolCall) (l : Locals)
    (st : AppState) :
  Raw.handleCall uuid now electron runJs toUpperCase r (rawCall c) l st
  = (Normal (fst (handleCall uuid now electron (onObjects runJs) toUpperCase
                    r c l st)),
     snd (handleCall uuid now electron (onObjects runJs) toUpperCase r c l st)).
Proof.
  destruct c as [n a]. unfold Raw.handleCall, handleCall, rawCall, onObjects.
  cbn [Raw.raw_name Raw.raw_args call_name call_args].
  destruct (String.eqb n "manage_simulation");
    [|destruct (String.eqb n "manage_node")];
    rewrite !bind_eq; cbn [ret fst snd]; rewrite !bind_eq; reflexivity.
Qed.

Lemma raw_handleCalls_object (r : AppState) (calls : list ToolCall) :
  forall (l : Locals) (st : AppState),
  Raw.handleCalls uuid now electron runJs toUpperCase r (map rawCall calls) l st
  = (Normal (fst (handleCalls uuid now electron (onObjects runJs) toUpperCase
                    r calls l st)),
     snd (handleCalls uuid now electron (onObjects runJs) toUpperCase r calls l st)).
Proof.
  induction calls as [|c rest IH]; intros l st; [reflexivity|].
  cbn [map Raw.handleCalls handleCalls]. rewrite !bind_eq.
  rewrite raw_handleCall_object. cbn [fst snd]. apply IH.
Qed.

Lemma raw_onToolCall_object (r : AppState) (aiMsgId text : string)
    (currentHistory : list Message) (runtimeProject : ProjectState)
    (stack : list string) (calls : list ToolCall) (st : AppState) :
  Raw.onToolCall uuid now electron runJs toUpperCase r aiMsgId text
    currentHistory runtimeProject stack (map rawCall calls) st
  = (Normal (fst (onToolCall uuid now electron (onObjects runJs) toUpperCase r
                    aiMsgId text currentHistory runtimeProject stack calls st)),
     snd (onToolCall uuid now electron (onObjects runJs) toUpperCase r
            aiMsgId text currentHistory runtimeProject stack calls st)).
Proof.
  unfold Raw.onToolCall, onToolCall. rewrite recorded_rawCall.
  rewrite !bind_eq. rewrite raw_handleCalls_object. cbn [fst snd].
  rewrite !bind_eq. reflexivity.
Qed.

(** On phases whose calls all carry an argument object the loop of
    [Module Raw] is the loop above: same end, same dispatches, same
    state. *)
Lemma raw_processChatTurn_object (r : AppState) (script : list Outcome) :
  forall history filter override st,
  Raw.processChatTurn uuid now stackDepth electron runJs toUpperCase r
    (map rawOutcome script) history filter override st
  = (rawEnd (fst (processChatTurn uuid now stackDepth electron (onObjects runJs)
                    toUpperCase r script history filter override st)),
     snd (processChatTurn uuid now stackDepth electron (onObjects runJs)
            toUpperCase r script history filter override st)).
Proof.
  induction script as [|o rest IH]; intros history filter override st;
    cbn [map Raw.processChatTurn processChatTurn]; rewrite !bind_eq;
    (destruct (getNode _ _); [|rewrite !bind_eq; reflexivity]);
    (destruct (collectContext _ _ _); [|rewrite !bind_eq; reflexivity]).
  - reflexivity.
  - destruct o as [text calls|text|text error]; cbn [rawOutcome];
      rewrite !bind_eq; [|reflexivity..].
    rewrite raw_onToolCall_object. cbn [fst snd]. rewrite !bind_eq.
    rewrite IH. reflexivity.
Qed.

(** A send without image is the send above. *)
Lemma raw_handleSend_object (r : AppState) (script : list Outcome)
    (input : string) (focusMode : bool) (st : AppState) :
  Raw.handleSend uuid now stackDepth electron runJs toUpperCase r
    (map rawOutcome script) input None focusMode st
  = (option_map rawEnd
       (fst (handleSend uuid now stackDepth electron (onObjects runJs) toUpperCase
               r script input focusMode st)),
     snd (handleSend uuid now stackDepth electron (onObjects runJs) toUpperCase
            r script input focusMode st)).
Proof.
  unfold Raw.handleSend, handleSend. cbn [truthy negb]. rewrite andb_true_r.
  destruct (String.eqb (trim input) EmptyString || isLoading r); [reflexivity|].
  rewrite append_empty_r. rewrite !bind_eq.
  rewrite raw_processChatTurn_object. reflexivity.
Qed.

End RawAgreement.

(** *** What a batch leaves of the state *)

Section Logged.

Variable uuid : nat -> string.
Variable now : nat -> nat.
Variable electron : option (string -> string + string).
Variable runJs : string -> CallArgs -> list string * (string + string).
Variable toUpperCase : string -> string.

(** A component of the state that log lines and the two counters do not
    touch. *)
Variable X : Type.
Variable f : AppState -> X.
Hypothesis f_log : forall source text, unchanged f (addLog now source text).
Hypothesis f_now : unchanged f (dateNow now).
Hypothesis f_uuid : unchanged f (drawUuid uuid).

Ltac logged :=
  repeat match goal with
         | |- unchanged _ (if ?b then _ else _) => destruct b
         | |- unchanged _ (match ?o with Some _ => _ | None => _ end) => destruct o
         | |- unchanged _ (match ?o with inl _ => _ | inr _ => _ end) => destruct o
         | |- unchanged _ (bind _ _) => apply unchanged_bind; [|intros ?]
         | |- unchanged _ (ret _) => apply unchanged_ret
         | |- unchanged _ (addLog _ _ _) => apply f_log
         | |- unchanged _ (drawUuid _) => exact f_uuid
         | |- unchanged _ (dateNow _) => exact f_now
         end.

Lemma logged_manageNode args l : unchanged f (manageNode uuid now args l).
Proof. unfold manageNode, operationFailed. logged. Qed.

Lemma logged_operationFailed l message :
  unchanged f (operationFailed now l message).
Proof. clear f_uuid. unfold operationFailed. logged. Qed.

Lemma logged_lines source (printed : list string) :
  unchanged f (fold_right (fun line k => addLog now source line ;; k) (ret tt) printed).
Proof.
  clear f_now f_uuid.
  induction printed as [|line rest IH]; simpl; [apply unchanged_ret|].
  apply unchanged_bind; [apply f_log | intros _; exact IH].
Qed.

Lemma logged_runtimeExecutor (run : string -> Args -> list string * (string + string))
    call l :
  unchanged f (runtimeExecutor now electron run toUpperCase call l).
Proof.
  clear f_now f_uuid. unfold runtimeExecutor.
  destruct (findTarget _ _) as [target|]; [|logged].
  apply unchanged_bind; [apply f_log | intros _].
  destruct (eqStr "python" (language target)); [logged|].
  destruct (run _ _) as [printed outcome].
  apply unchanged_bind; [apply logged_lines | intros _]. logged.
Qed.

Hypothesis f_fork : forall v, unchanged f (setSimulatedProject v).
Hypothesis f_flag : forall v, unchanged f (setIsSimulating v).

Ltac switched :=
  repeat match goal with
         | |- unchanged _ (if ?b then _ else _) => destruct b
         | |- unchanged _ (match ?o with Some _ => _ | None => _ end) => destruct o
         | |- unchanged _ (bind _ _) => apply unchanged_bind; [|intros ?]
         | |- unchanged _ (ret _) => apply unchanged_ret
         | |- unchanged _ (addLog _ _ _) => apply f_log
         | |- unchanged _ (setSimulatedProject _) => apply f_fork
         | |- unchanged _ (setIsSimulating _) => apply f_flag
         end.

(** Start and abort write the fork and the flag only. *)
Lemma logged_manageSimulation_no_commit (r : AppState) args l :
  eqStr "commit" (action args) = false ->
  unchanged f (manageSimulation now r args l).
Proof.
  clear f_now f_uuid. intros Hc.
  unfold manageSimulation, startSimulation, abortSimulation. rewrite Hc.
  switched.
Qed.

Lemma logged_manageSimulation (r : AppState) args l :
  (forall v, unchanged f (setProject v)) ->
  unchanged f (manageSimulation now r args l).
Proof.
  clear f_now f_uuid. intros f_project.
  destruct (eqStr "commit" (action args)) eqn:Hc;
    [|now apply logged_manageSimulation_no_commit].
  unfold manageSimulation, startSimulation, commitSimulation. rewrite Hc.
  repeat match goal with
         | |- unchanged _ (if ?b then _ else _) => destruct b
         | |- unchanged _ (match ?o with Some _ => _ | None => _ end) => destruct o
         | |- unchanged _ (bind _ _) => apply unchanged_bind; [|intros ?]
         | |- unchanged _ (ret _) => apply unchanged_ret
         | |- unchanged _ (addLog _ _ _) => apply f_log
         | |- unchanged _ (setProject _) => apply f_project
         | |- unchanged _ (setSimulatedProject _) => apply f_fork
         | |- unchanged _ (setIsSimulating _) => apply f_flag
         end.
Qed.

Hypothesis f_messages : forall fn, unchanged f (updateSessionMessages fn).

(** The loop body leaves [f] alone when the simulation switch it may
    perform does. *)
Lemma logged_handleCall (r : AppState) (call : Raw.Call) (l : Locals) :
  (forall args, String.eqb (Raw.raw_name call) "manage_simulation" = true ->
                Raw.raw_args call = Object args ->
                unchanged f (manageSimulation now r args l)) ->
  unchanged f (Raw.handleCall uuid now electron runJs toUpperCase r call l).
Proof.
  clear f_fork f_flag. intros Hsim. unfold Raw.handleCall.
  apply unchanged_bind.
  - destruct (String.eqb (Raw.raw_name call) "manage_simulation").
    + destruct (Raw.raw_args call) as [args| |]; try apply unchanged_ret.
      apply unchanged_bind; [now apply Hsim | intros ?; apply unchanged_ret].
    + destruct (String.eqb (Raw.raw_name call) "manage_node").
      * destruct (Raw.raw_args call) as [args| |];
          (apply unchanged_bind; [|intros ?; apply unchanged_ret]);
          [apply logged_manageNode | apply logged_operationFailed ..].
      * apply unchanged_bind; [|intros ?; apply unchanged_ret].
        apply logged_runtimeExecutor.
  - intros [lr|message]; [|apply unchanged_ret].
    apply unchanged_bind; [exact f_now | intros i].
    apply unchanged_bind; [apply f_messages | intros _; apply unchanged_ret].
Qed.

Lemma logged_handleCalls (r : AppState) (calls : list Raw.Call) :
  (forall call args l,
     In call calls ->
     String.eqb (Raw.raw_name call) "manage_simulation" = true ->
     Raw.raw_args call = Object args ->
     unchanged f (manageSimulation now r args l)) ->
  forall l, unchanged f (Raw.handleCalls uuid now electron runJs toUpperCase r calls l).
Proof.
  clear f_fork f_flag.
  induction calls as [|c rest IH]; intros Hsim l; cbn [Raw.handleCalls];
    [apply unchanged_ret|].
  apply unchanged_bind.
  - apply logged_handleCall. intros args Hn Ha. apply (Hsim c); [now left | assumption..].
  - intros [l'|message]; [|apply unchanged_ret].
    apply IH. intros call args l0 Hin. apply Hsim. now right.
Qed.

Lemma logged_onToolCall (r : AppState) (aiMsgId text : string)
    (currentHistory : list Message) (runtimeProject : ProjectState)
    (stack : list string) (calls : list Raw.Call) :
  (forall call args l,
     In call calls ->
     String.eqb (Raw.raw_name call) "manage_simulation" = true ->
     Raw.raw_args call = Object args ->
     unchanged f (manageSimulation now r args l)) ->
  (forall v, unchanged f (setActiveProject r v)) ->
  (forall v, unchanged f (setActiveContextIds v)) ->
  unchanged f (Raw.onToolCall uuid now electron runJs toUpperCase r aiMsgId text
                 currentHistory runtimeProject stack calls).
Proof.
  clear f_fork f_flag. intros Hsim Hwrite Hactive. unfold Raw.onToolCall.
  apply unchanged_bind; [apply f_messages | intros _].
  apply unchanged_bind; [now apply logged_handleCalls | intros [l|message]];
    [|apply unchanged_ret].
  apply unchanged_bind; [|intros _; apply unchanged_ret].
  destruct (modified l && negb (triggeredSimulationChange l));
    [|apply unchanged_ret].
  apply unchanged_bind; [apply Hwrite | intros _; apply Hactive].
Qed.

End Logged.

(** *** Tool results in the session log *)

Lemma resultNames_append (m : Message) (st : AppState) :
  resultNames (snd (updateSessionMessages (fun prev => prev ++ [m]) st))
  = resultNames st
    ++ match role m, toolResponse m with
       | TOOL_ROLE, Some response => [resp_name response]
       | _, _ => []
       end.
Proof.
  unfold resultNames, updateSessionMessages. cbn [snd messages].
  rewrite flat_map_app. cbn [flat_map]. now rewrite app_nil_r.
Qed.

Lemma resultNames_log (now : nat -> nat) source text :
  unchanged resultNames (addLog now source text).
Proof.
  intros st. unfold addLog. rewrite bind_eq. rewrite resultNames_append.
  cbn [role]. now rewrite app_nil_r.
Qed.

(** Completing the message of the model changes no tool result. *)
Lemma resultNames_map (g : Message -> Message) (st : AppState) :
  (forall m, role (g m) = role m /\ toolResponse (g m) = toolResponse m) ->
  resultNames (snd (updateSessionMessages (map g) st)) = resultNames st.
Proof.
  intros Hg. unfold resultNames, updateSessionMessages. cbn [snd messages].
  induction (messages st) as [|m rest IH]; [reflexivity|].
  cbn [map flat_map]. destruct (Hg m) as [-> ->]. now rewrite IH.
Qed.

Section RawResults.

Variable uuid : nat -> string.
Variable now : nat -> nat.
Variable stackDepth : nat.
Variable electron : option (string -> string + string).
Variable runJs : string -> CallArgs -> list string * (string + string).
Variable toUpperCase : string -> string.

Lemma resultNames_tail (call : Raw.Call) (result : string) (s1 : AppState)
    (names : list string) :
  resultNames s1 = names ->
  resultNames
    (snd (updateSessionMessages
            (fun prev =>
               prev ++ [mkMessage (toString (fst (dateNow now s1))) TOOL_ROLE "done"
                          None None
                          (Some (mkResponse (Raw.raw_name call) result))])
            (snd (dateNow now s1))))
  = names ++ [Raw.raw_name call].
Proof. intros <-. now rewrite resultNames_append. Qed.

(** The loop body appends one tool result, under the name of the call,
    unless the call throws; then it appends none and the exception leaves
    the body. *)
Lemma raw_handleCall_result (r : AppState) (call : Raw.Call) (l : Locals)
    (st : AppState) :
  let out := Raw.handleCall uuid now electron runJs toUpperCase r call l st in
  resultNames (snd out) = resultNames st ++ map Raw.raw_name (answered [call])
  /\ match fst out with
     | Throw message =>
         throws call = true /\ message = cannotRead (Raw.raw_args call) "action"
     | Normal _ => throws call = false
     end.
Proof.
  assert (Hlog := resultNames_log now).
  assert (Hnode := fun args =>
            logged_manageNode uuid now _ resultNames Hlog (fun s => eq_refl) args l st).
  assert (Hfail := fun m =>
            logged_operationFailed now _ resultNames Hlog l m st).
  assert (Hsim := fun args =>
            logged_manageSimulation now _ resultNames Hlog
              (fun v s => eq_refl) (fun v s => eq_refl) r args l
              (fun v s => eq_refl) st).
  assert (Hrun := logged_runtimeExecutor now electron toUpperCase _ resultNames Hlog
                    (fun code _ => runJs code (Raw.raw_args call))
                    (mkCall (Raw.raw_name call) noArgs) l st).
  cbv zeta. unfold Raw.handleCall, throws. cbn [answered]. unfold throws.
  rewrite bind_eq.
  destruct (String.eqb (Raw.raw_name call) "manage_simulation").
  - destruct (Raw.raw_args call) as [args| |]; cbn [andb map].
    + rewrite !bind_eq. cbn [ret fst snd]. rewrite !bind_eq. cbn [ret fst snd].
      split; [|reflexivity]. apply resultNames_tail. apply Hsim.
    + cbn [ret fst snd]. rewrite app_nil_r. repeat split.
    + cbn [ret fst snd]. rewrite app_nil_r. repeat split.
  - cbn [andb map].
    destruct (String.eqb (Raw.raw_name call) "manage_node").
    + destruct (Raw.raw_args call) as [args| |];
        rewrite !bind_eq; cbn [ret fst snd]; rewrite !bind_eq; cbn [ret fst snd];
        (split; [|reflexivity]); apply resultNames_tail;
        [apply Hnode | apply Hfail ..].
    + rewrite !bind_eq. cbn [ret fst snd]. rewrite !bind_eq. cbn [ret fst snd].
      split; [|reflexivity]. apply resultNames_tail. apply Hrun.
Qed.

Lemma answered_length (calls : list Raw.Call) :
  List.length (answered calls) <= List.length calls
  /\ (existsb throws calls = true ->
      List.length (answered calls) < List.length calls)
  /\ (existsb throws calls = false -> answered calls = calls).
Proof.
  clear. induction calls as [|c rest (H1 & H2 & H3)]; cbn [answered existsb].
  - repeat split; [lia | discriminate].
  - destruct (throws c); cbn [orb List.length].
    + repeat split; [lia | lia | discriminate].
    + repeat split; [lia | intros H; specialize (H2 H); lia |].
      intros H. now rewrite H3.
Qed.

(** A batch gets one tool result per call, in the order of the calls, up
    to the first call that throws, and none from there on. *)
Lemma raw_handleCalls_results (r : AppState) (calls : list Raw.Call) :
  forall (l : Locals) (st : AppState),
  let out := Raw.handleCalls uuid now electron runJs toUpperCase r calls l st in
  resultNames (snd out) = resultNames st ++ map Raw.raw_name (answered calls)
  /\ match fst out with
     | Throw _ => existsb throws calls = true
     | Normal _ => existsb throws calls = false
     end.
Proof.
  induction calls as [|c rest IH]; intros l st; cbv zeta.
  - cbn. rewrite app_nil_r. now split.
  - cbn [Raw.handleCalls]. rewrite bind_eq.
    destruct (raw_handleCall_result r c l st) as [Hnames Hend]. cbv zeta in Hnames, Hend.
    cbn [answered existsb map] in *.
    destruct (fst (Raw.handleCall uuid now electron runJs toUpperCase r c l st))
      as [l'|message].
    + rewrite Hend in *. cbn [orb].
      destruct (IH l' (snd (Raw.handleCall uuid now electron runJs toUpperCase
                              r c l st))) as [IHn IHe].
      cbv zeta in IHn, IHe. rewrite IHn, Hnames. cbn [map app].
      rewrite <- app_assoc. split; [reflexivity | exact IHe].
    + destruct Hend as [Hend _]. rewrite Hend in *. cbn [orb ret fst snd map].
      cbn [map] in Hnames. now split.
Qed.

Lemma raw_onToolCall_results (r : AppState) (aiMsgId text : string)
    (currentHistory : list Message) (runtimeProject : ProjectState)
    (stack : list string) (calls : list Raw.Call) (st : AppState) :
  let out := Raw.onToolCall uuid now electron runJs toUpperCase r aiMsgId text
               currentHistory runtimeProject stack calls st in
  resultNames (snd out) = resultNames st ++ map Raw.raw_name (answered calls)
  /\ match fst out with
     | Throw _ => existsb throws calls = true
     | Normal _ => existsb throws calls = false
     end.
Proof.
  cbv zeta. unfold Raw.onToolCall. rewrite !bind_eq.
  match goal with |- context [Raw.handleCalls _ _ _ _ _ r calls ?l0 ?s0] =>
    destruct (raw_handleCalls_results r calls l0 s0) as [Hn He];
    cbv zeta in Hn, He;
    destruct (fst (Raw.handleCalls uuid now electron runJs toUpperCase r calls l0 s0))
      as [l|message]
  end.
  - rewrite !bind_eq. cbn [ret fst snd]. split; [|exact He].
    rewrite resultNames_map in Hn by (intros m; destruct (String.eqb _ _); now split).
    rewrite <- Hn.
    destruct (modified l && negb (triggeredSimulationChange l)); [|reflexivity].
    unfold setActiveProject. destruct (isSimulating r); reflexivity.
  - cbn [ret fst snd]. split; [|exact He].
    rewrite resultNames_map in Hn by (intros m; destruct (String.eqb _ _); now split).
    exact Hn.
Qed.

(** A batch with a [manage_simulation] call that comes without argument
    object stops the turn: the handler is rejected, the loop does not
    recurse, so one request was dispatched for the phase and none follows,
    the loading flag stays as the send has set it, and fewer tool results
    than calls are in the log. *)
Lemma raw_turn_rejected (r : AppState) (text : string) (calls : list Raw.Call)
    (rest : list Raw.Outcome) (history : list Message)
    (filter : option (list string)) (override : option ProjectState)
    (st : AppState) (ctx : Context) :
  existsb throws calls = true ->
  getNode (rootNodeId (match override with Some p => p | None => activeProject r end))
    (nodes (match override with Some p => p | None => activeProject r end)) <> None ->
  collectContext stackDepth
    (match override with Some p => p | None => activeProject r end)
    (Some (match filter with Some s => s | None => activeContextIds r end))
  = Some ctx ->
  let out := Raw.processChatTurn uuid now stackDepth electron runJs toUpperCase r
               (Raw.ToolCalls text calls :: rest) history filter override st in
  (exists message, fst (fst out) = Raw.Rejected message)
  /\ snd (fst out) = [(ctx, history)]
  /\ isLoading (snd out) = isLoading st
  /\ resultNames (snd out) = resultNames st ++ map Raw.raw_name (answered calls)
  /\ List.length (answered calls) < List.length calls.
Proof.
  intros Hthrow Hroot Hctx. cbv zeta. cbn [Raw.processChatTurn]. rewrite !bind_eq.
  destruct (getNode _ _); [|congruence]. rewrite Hctx. rewrite !bind_eq.
  match goal with |- context [Raw.onToolCall _ _ _ _ _ r ?a ?t ?h ?p ?s calls ?s0] =>
    destruct (raw_onToolCall_results r a t h p s calls s0) as [Hn He];
    pose proof (logged_onToolCall uuid now electron runJs toUpperCase _ isLoading
                  (fun _ _ _ => eq_refl) (fun _ => eq_refl) (fun _ => eq_refl)
                  (fun _ _ => eq_refl) r a t h p s calls) as Hl;
    cbv zeta in Hn, He;
    destruct (fst (Raw.onToolCall uuid now electron runJs toUpperCase r a t h p s
                     calls s0)) as [l|message]
  end; [congruence|].
  cbn [ret fst snd]. split; [now exists message|]. split; [reflexivity|].
  split; [|split; [|now apply answered_length]].
  - rewrite Hl.
    + unfold onChunk. destruct (truthy _); reflexivity.
    + intros call args l0 _ _ _.
      apply logged_manageSimulation; unfold unchanged; reflexivity.
    + intros v. unfold setActiveProject. destruct (isSimulating r);
        unfold unchanged; reflexivity.
    + unfold unchanged; reflexivity.
  - rewrite Hn. f_equal. unfold onChunk.
    destruct (truthy _); cbn [ret snd];
      rewrite ?resultNames_map by (intros m; destruct (String.eqb _ _); now split);
      rewrite resultNames_append; cbn [role]; now rewrite app_nil_r.
Qed.

(** A turn that ends unlocks the input; a turn whose handler is rejected
    leaves the loading flag as it found it. *)
Lemma raw_turn_loading (r : AppState) (script : list Raw.Outcome) :
  forall history filter override st,
  let out := Raw.processChatTurn uuid now stackDepth electron runJs toUpperCase
               r script history filter override st in
  match fst (fst out) with
  | Raw.Ended e => ended e = true -> isLoading (snd out) = false
  | Raw.Rejected _ => isLoading (snd out) = isLoading st
  end.
Proof.
  induction script as [|o rest IH]; intros history filter override st; cbv zeta;
    cbn [Raw.processChatTurn]; rewrite !bind_eq;
    (destruct (getNode _ _);
       [|unfold onError; rewrite !bind_eq; cbn [ret fst snd]; reflexivity]);
    (destruct (collectContext _ _ _);
       [|unfold onError; rewrite !bind_eq; cbn [ret fst snd]; reflexivity]).
  - cbn [ret fst snd ended]. discriminate.
  - destruct o as [text calls|text|text error]; rewrite !bind_eq.
    + match goal with
      |- context [Raw.onToolCall _ _ _ _ _ r ?a ?t ?h ?p ?s calls ?s0] =>
        pose proof (logged_onToolCall uuid now electron runJs toUpperCase _ isLoading
                      (fun _ _ _ => eq_refl) (fun _ => eq_refl) (fun _ => eq_refl)
                      (fun _ _ => eq_refl) r a t h p s calls) as Hl;
        assert (Hs0 : isLoading s0 = isLoading st)
          by (unfold onChunk; destruct (truthy _); reflexivity);
        destruct (Raw.onToolCall uuid now electron runJs toUpperCase r a t h p s
                    calls s0) as [[l|message] s1] eqn:Hbatch
      end.
      * cbn [fst snd]. rewrite !bind_eq. cbn [ret fst snd].
        specialize (IH (newHistory l) (Some (nextStack l)) (Some (nextProject l)) s1).
        cbv zeta in IH.
        destruct (fst (fst (Raw.processChatTurn uuid now stackDepth electron runJs
                              toUpperCase r rest (newHistory l)
                              (Some (nextStack l)) (Some (nextProject l)) s1)));
          [exact IH|].
        rewrite IH, <- Hs0.
        change s1 with (snd (Normal l, s1)). rewrite <- Hbatch. apply Hl.
        -- intros call args l0 _ _ _.
           apply logged_manageSimulation; unfold unchanged; reflexivity.
        -- intros v. unfold setActiveProject. destruct (isSimulating r);
             unfold unchanged; reflexivity.
        -- unfold unchanged; reflexivity.
      * cbn [ret fst snd]. rewrite <- Hs0.
        change s1 with (snd (@Throw Locals message, s1)). rewrite <- Hbatch. apply Hl.
        -- intros call args l0 _ _ _.
           apply logged_manageSimulation; unfold unchanged; reflexivity.
        -- intros v. unfold setActiveProject. destruct (isSimulating r);
             unfold unchanged; reflexivity.
        -- unfold unchanged; reflexivity.
    + cbn [ret fst snd]. reflexivity.
    + unfold onError. rewrite !bind_eq. cbn [ret fst snd]. reflexivity.
Qed.

End RawResults.

(** *** Whole turns *)

Section RawTurns.

Variable uuid : nat -> string.
Variable now : nat -> nat.
Variable stackDepth : nat.
Variable electron : option (string -> string + string).
Variable runJs : string -> CallArgs -> list string * (string + string).
Variable toUpperCase : string -> string.

(** X13.  Every turn that ends, ends with the input unlocked: whether the
    backend completes, fails, the root is missing or the context cannot be
    assembled, [isLoading] is false at the end.  A turn whose batch handler
    is rejected does not end: [isLoading] stays true.  A send with neither
    text nor image, or while a turn is in flight, does nothing at all, and
    these are the only sends that are ignored. *)
Theorem turn_end_unlocks_input (r : AppState) (script : list Raw.Outcome)
    (input : string) (image : option string) (focusMode : bool) (st : AppState) :
  let out := Raw.handleSend uuid now stackDepth electron runJs toUpperCase
               r script input image focusMode st in
  match fst out with
  | None => snd out = st
  | Some (Raw.Ended e, _) => ended e = true -> isLoading (snd out) = false
  | Some (Raw.Rejected _, _) => isLoading (snd out) = true
  end
  /\ (fst out = None <->
      (String.eqb (trim input) EmptyString = true /\ truthy image = false)
      \/ isLoading r = true).
Proof.
  intros out. subst out. unfold Raw.handleSend.
  destruct ((String.eqb (trim input) EmptyString && negb (truthy image))
            || isLoading r) eqn:E.
  - cbn [ret fst snd]. split; [reflexivity|]. split; [intros _|reflexivity].
    apply orb_true_iff in E. destruct E as [E | E]; [left | now right].
    apply andb_true_iff in E. destruct E as [E1 E2].
    apply negb_true_iff in E2. now split.
  - rewrite !bind_eq. cbn [ret fst snd]. split.
    + match goal with
      |- context [Raw.processChatTurn _ _ _ _ _ _ r script ?h ?f ?o ?s0] =>
        pose proof (raw_turn_loading uuid now stackDepth electron runJs toUpperCase
                      r script h f o s0) as H;
        cbv zeta in H;
        destruct (Raw.processChatTurn uuid now stackDepth electron runJs toUpperCase
                    r script h f o s0) as [[[e|message] ds] s1]
      end; cbn [fst snd] in *; exact H.
    + split; [discriminate|]. intros H. exfalso.
      apply orb_false_iff in E. destruct E as [E1 E2].
      destruct H as [[H1 H2] | H]; [|congruence].
      rewrite H1, H2 in E1. discriminate.
Qed.

(** Within a turn sent while the simulation runs, administrative calls
    other than a commit never write the live store. *)
Lemma raw_turn_keeps_live (r : AppState) (script : list Raw.Outcome) :
  isSimulating r = true ->
  forallb sandboxed script = true ->
  forall history filter override,
  unchanged project
    (Raw.processChatTurn uuid now stackDepth electron runJs toUpperCase
       r script history filter override).
Proof.
  intros Hsim. induction script as [|o rest IH]; intros Hs history filter override;
    cbn [Raw.processChatTurn];
    (apply unchanged_bind; [unfold unchanged; reflexivity | intros t]);
    (apply unchanged_bind; [unfold unchanged; reflexivity | intros _]);
    (destruct (getNode _ _); [|unfold onError, unchanged; reflexivity]);
    (destruct (collectContext _ _ _); [|unfold onError, unchanged; reflexivity]).
  - apply unchanged_ret.
  - cbn [forallb] in Hs. apply andb_true_iff in Hs. destruct Hs as [Ho Hrest].
    destruct o as [text calls|text|text error].
    + apply unchanged_bind;
        [unfold onChunk, unchanged; destruct (truthy _); reflexivity | intros _].
      apply unchanged_bind.
      * apply logged_onToolCall; try (unfold unchanged; reflexivity).
        -- intros call args l Hin Hname Hargs. cbn [sandboxed] in Ho.
           rewrite forallb_forall in Ho. specialize (Ho call Hin).
           apply andb_true_iff in Ho. destruct Ho as [_ Ho].
           apply negb_true_iff in Ho. unfold isRawCommit in Ho.
           rewrite Hname, Hargs in Ho. cbn [andb] in Ho.
           apply logged_manageSimulation_no_commit;
             [unfold unchanged; reflexivity .. | exact Ho].
        -- intros v. unfold setActiveProject. rewrite Hsim.
           unfold unchanged; reflexivity.
      * intros [l|message]; [|apply unchanged_ret].
        apply unchanged_bind; [now apply IH | intros e; apply unchanged_ret].
    + unfold onChunk, unchanged. destruct (truthy _); reflexivity.
    + unfold onChunk, onError, unchanged. destruct (truthy _); reflexivity.
Qed.

(** X18.  A message sent while the simulation is running never writes the
    live store, as long as the backend requests administrative calls only
    and no commit among them: node operations go to the fork, a start or
    an abort write the fork and the flag, and a turn stopped by a call
    without arguments has written nothing either.  (A delegated call runs
    the code of a tool in the page, which is outside this statement.) *)
Theorem simulated_turn_keeps_the_live_store (r st : AppState)
    (script : list Raw.Outcome) (input : string) (image : option string)
    (focusMode : bool) :
  isSimulating r = true ->
  forallb sandboxed script = true ->
  project (snd (Raw.handleSend uuid now stackDepth electron runJs toUpperCase
                  r script input image focusMode st))
  = project st.
Proof.
  intros Hsim Hscript.
  enough (H : unchanged project
                (Raw.handleSend uuid now stackDepth electron runJs toUpperCase
                   r script input image focusMode)) by apply H.
  unfold Raw.handleSend.
  destruct ((String.eqb (trim input) EmptyString && negb (truthy image))
            || isLoading r); [apply unchanged_ret|].
  apply unchanged_bind; [unfold unchanged; reflexivity | intros t].
  apply unchanged_bind; [unfold unchanged; reflexivity | intros _].
  apply unchanged_bind; [unfold unchanged; reflexivity | intros _].
  apply unchanged_bind; [|intros e; apply unchanged_ret].
  now apply raw_turn_keeps_live.
Qed.

End RawTurns.

(** A send while a turn is in flight, with an image attached. *)
Lemma turn_end_unlocks_input_witness :
  fst (Raw.handleSend sampleUuid ticking 64 None noRawRunner upper loadingState
         [Raw.Completed "ok"] "hello" (Some "data:image/png;base64,AAAA") false
         loadingState) = None.
Proof.
  apply (proj2 (turn_end_unlocks_input sampleUuid ticking 64 None noRawRunner upper
                  loadingState [Raw.Completed "ok"] "hello"
                  (Some "data:image/png;base64,AAAA") false loadingState)).
  right. reflexivity.
Defined.

(** A turn on the diverged fork in which the backend deletes a node and
    then sends a [manage_simulation] call without arguments. *)
Lemma simulated_turn_witness :
  project (snd (Raw.handleSend sampleUuid ticking 64 None noRawRunner upper
                  simulatingState
                  [Raw.ToolCalls EmptyString [rawCall (deleteCall "mem_readme")];
                   Raw.ToolCalls EmptyString [Raw.mkRaw "manage_simulation" Undefined];
                   Raw.Completed "ok"]
                  "clean up" None false simulatingState))
  = project simulatingState.
Proof.
  exact (simulated_turn_keeps_the_live_store sampleUuid ticking 64 None noRawRunner
           upper simulatingState simulatingState
           [Raw.ToolCalls EmptyString [rawCall (deleteCall "mem_readme")];
            Raw.ToolCalls EmptyString [Raw.mkRaw "manage_simulation" Undefined];
            Raw.Completed "ok"]
           "clean up" None false eq_refl eq_refl).
Defined.

(** *** A call without arguments *)

(** The universal driver delivers [null] as the arguments of a call whose
    argument text is [null]: the text parses, so the call passes the
    filter of the completed calls. *)
Lemma universal_driver_delivers_null_arguments :
  executeUniversalRequest json parseJson decodeDelta "https://api.openai.com/v1"
    (Body [nullEvent])
  = [ToolCallBatch [(Some "manage_simulation", JNull)]]
  /\ argsOf JNull = Null.
Proof. vm_compute. split; reflexivity. Qed.

(** C2 fails in the code for a batch with a [manage_simulation] call that
    comes without argument object: reading [args.action] throws outside any
    [try], unlike in the node manager next to it.  The turn [nullTurn],
    sent from the default state: the create before the call is answered, the
    call itself and the one after it are not, so the batch of three calls
    gets one tool result; the handler is rejected, no second request is
    made, the node that the first result reports as created is written to
    no store, the loading flag stays set and the next send is ignored. *)
Theorem C2_call_without_arguments_stops_the_batch :
  let out := Raw.handleSend sampleUuid ticking 64 None noRawRunner upper liveState
               nullTurn "go" None false liveState in
  List.length nullBatch = 3
  /\ (exists d, fst out = Some (Raw.Rejected (cannotRead Null "action"), [d]))
  /\ resultNames (snd out) = ["manage_node"]
  /\ project (snd out) = project liveState
  /\ simulatedProject (snd out) = None
  /\ isLoading (snd out) = true
  /\ fst (Raw.handleSend sampleUuid ticking 64 None noRawRunner upper (snd out)
            [Raw.Completed "done"] "again" None false (snd out)) = None.
Proof.
  vm_compute. split; [reflexivity|]. split; [eexists; reflexivity|].
  repeat split.
Qed.
